(** * Menu system and keyboard-shortcut management (menu.py)

    A shallow embedding of the menu module of the editor: Python strings
    and dictionaries, the Qt objects the module creates (menus and
    actions, addressed by their position in a store), the menu classes
    and their [build] methods, the key mapper, the shortcut helpers and
    the shortcut editing dialog.

    Conventions of the embedding:
    - a Python [str] is a [string]; a character is its code point, and
      the model covers the code points below 256;
    - a Python [dict] is an association list in insertion order with
      unique keys (iteration order matters to [onEdit]);
    - a Python exception is a value of [exn]; code that can raise lives
      in [res], code that also mutates objects lives in the monad [M];
    - an object is a number, its index in the store of its class. *)

From Stdlib Require Import ZArith Lia Ascii.
From stdpp Require Import base list strings.

(** ** Characters *)

Definition ord (c : ascii) : N := N_of_ascii c.

Definition LF : ascii := "010"%char.
Definition CR : ascii := "013"%char.
Definition SPACE : ascii := " "%char.

Definition in_range (lo hi : N) (c : ascii) : bool :=
  ((lo <=? ord c) && (ord c <=? hi))%N.

(** [str.isspace] on one character (code points below 256). *)
Definition isspace (c : ascii) : bool :=
  in_range 9 13 c || in_range 28 32 c
  || (ord c =? 133)%N || (ord c =? 160)%N.

Definition isdigit (c : ascii) : bool := in_range 48 57 c.

(** [str.lower] on one character: the ASCII capitals and the Latin-1
    capitals (all of U+00C0..U+00DE but the multiplication sign). *)
Definition lower_char (c : ascii) : ascii :=
  if in_range 65 90 c || in_range 192 214 c || in_range 216 222 c
  then ascii_of_N (ord c + 32) else c.

(** ** Strings *)

Definition char_eqb (a b : ascii) : bool := Ascii.eqb a b.
Arguments char_eqb : simpl never.

Fixpoint str_lower (s : string) : string :=
  match s with
  | EmptyString => EmptyString
  | String c r => String (lower_char c) (str_lower r)
  end.

(** [c in s] for a one-character string [c]. *)
Fixpoint str_contains (c : ascii) (s : string) : bool :=
  match s with
  | EmptyString => false
  | String d r => char_eqb d c || str_contains c r
  end.

(** [s.count(c)] for a one-character string [c]. *)
Fixpoint str_count (c : ascii) (s : string) : nat :=
  match s with
  | EmptyString => 0
  | String d r => (if char_eqb d c then 1 else 0) + str_count c r
  end.

(** [s.startswith(p)], returning what follows the prefix. *)
Fixpoint strip_prefix (p s : string) : option string :=
  match p, s with
  | EmptyString, _ => Some s
  | String a p', String b s' =>
      if char_eqb a b then strip_prefix p' s' else None
  | String _ _, EmptyString => None
  end.

(** [s.replace(old, new)]: the occurrences of [old] are found from the
    left and do not overlap.  [skip] counts the characters of a found
    occurrence that are still to be passed over. *)
Fixpoint replace_from (old new : string) (skip : nat) (s : string) : string :=
  match s with
  | EmptyString => EmptyString
  | String c r =>
      match skip with
      | S k => replace_from old new k r
      | O =>
          match strip_prefix old s with
          | Some _ => new +:+ replace_from old new (String.length old - 1) r
          | None => String c (replace_from old new 0 r)
          end
      end
  end.

(** With an empty [old], Python puts [new] before every character and
    at the end. *)
Fixpoint interleave (new s : string) : string :=
  match s with
  | EmptyString => new
  | String c r => new +:+ String c (interleave new r)
  end.

Definition str_replace (old new s : string) : string :=
  match old with
  | EmptyString => interleave new s
  | _ => replace_from old new 0 s
  end.

(** [s.split(sep)] for a one-character [sep]: always at least one part. *)
Fixpoint str_split (sep : ascii) (s : string) : list string :=
  match s with
  | EmptyString => [EmptyString]
  | String c r =>
      if char_eqb c sep then EmptyString :: str_split sep r
      else match str_split sep r with
           | p :: ps => String c p :: ps
           | [] => [String c EmptyString]
           end
  end.

(** [sep.join(parts)]. *)
Fixpoint str_join (sep : string) (parts : list string) : string :=
  match parts with
  | [] => EmptyString
  | [p] => p
  | p :: ps => p +:+ sep +:+ str_join sep ps
  end.

(** [s.lstrip()]: drops the leading whitespace. *)
Fixpoint str_lstrip (s : string) : string :=
  match s with
  | EmptyString => EmptyString
  | String c r => if isspace c then str_lstrip r else s
  end.

(** Comparison of two strings, as [<], [==] and [>] compute it: by code
    point, a proper prefix coming first. *)
Fixpoint str_compare (a b : string) : comparison :=
  match a, b with
  | EmptyString, EmptyString => Eq
  | EmptyString, String _ _ => Lt
  | String _ _, EmptyString => Gt
  | String x a', String y b' =>
      match (ord x ?= ord y)%N with
      | Eq => str_compare a' b'
      | o => o
      end
  end.

Definition str_eqb (a b : string) : bool := String.eqb a b.
Arguments str_eqb : simpl never.

(** ** The two regular expressions of the module *)

(** For [re.sub('\(.*\)', '', s)]: standing just after an opening
    bracket, the number of characters up to and including the last
    closing bracket of the line, [None] when the line has none ([.] does
    not match a newline, and [.*] is greedy). *)
Fixpoint last_close (s : string) : option nat :=
  match s with
  | EmptyString => None
  | String c r =>
      if char_eqb c LF then None
      else match last_close r with
           | Some n => Some (S n)
           | None => if char_eqb c ")" then Some 1 else None
           end
  end.

Fixpoint sub_brackets_from (skip : nat) (s : string) : string :=
  match s with
  | EmptyString => EmptyString
  | String c r =>
      match skip with
      | S k => sub_brackets_from k r
      | O =>
          if char_eqb c "("
          then match last_close r with
               | Some n => sub_brackets_from n r
               | None => String c (sub_brackets_from 0 r)
               end
          else String c (sub_brackets_from 0 r)
      end
  end.

(** [re.sub('\(.*\)', '', s)] *)
Definition re_sub_brackets (s : string) : string := sub_brackets_from 0 s.

(** The class [[a-zA-z_0-9]]: the range [A-z] of the source also takes in
    the six characters between [Z] and [a]. *)
Definition valid_name_char (c : ascii) : bool :=
  in_range 97 122 c || in_range 65 122 c || char_eqb c "_"
  || in_range 48 57 c.

(** [re.sub('[^a-zA-z_0-9]', '', s, count)]: [count] is [None] for the
    call without a count (every match is removed) and [Some n] for at
    most [n] removals. *)
Fixpoint re_sub_invalid (count : option nat) (s : string) : string :=
  match s with
  | EmptyString => EmptyString
  | String c r =>
      if valid_name_char c then String c (re_sub_invalid count r)
      else match count with
           | None => re_sub_invalid None r
           | Some (S n) => re_sub_invalid (Some n) r
           | Some O => s
           end
  end.

(** ** Integers and their text *)

Definition digit_char (d : N) : ascii := ascii_of_N (48 + d).

Fixpoint digits_from (fuel : nat) (n : N) (acc : string) : string :=
  match fuel with
  | O => acc
  | S f =>
      let acc' := String (digit_char (n mod 10)) acc in
      if (n <? 10)%N then acc' else digits_from f (n / 10) acc'
  end.

(** The decimal digits of [n]; a number has no more decimal digits than
    binary ones. *)
Definition str_of_N (n : N) : string :=
  digits_from (S (N.to_nat (N.log2 n))) n EmptyString.

(** [str(z)] *)
Definition str_of_Z (z : Z) : string :=
  if (z <? 0)%Z then String "-" (str_of_N (Z.abs_N z)) else str_of_N (Z.abs_N z).

Fixpoint zeros (n : nat) : string :=
  match n with
  | O => EmptyString
  | S k => String "0" (zeros k)
  end.

(** ['%05i' % z]: the sign, then the digits padded with zeros so that
    the whole is at least five characters wide. *)
Definition format_05i (z : Z) : string :=
  let digits := str_of_N (Z.abs_N z) in
  if (z <? 0)%Z
  then String "-" (zeros (4 - String.length digits) +:+ digits)
  else zeros (5 - String.length digits) +:+ digits.

(** The whitespace [int] skips around a number: [isspace] without the
    four separators U+001C..U+001F. *)
Definition int_space (c : ascii) : bool :=
  in_range 9 13 c || char_eqb c SPACE
  || (ord c =? 133)%N || (ord c =? 160)%N.

Fixpoint lstrip_int (s : string) : string :=
  match s with
  | EmptyString => EmptyString
  | String c r => if int_space c then lstrip_int r else s
  end.

Fixpoint all_int_space (s : string) : bool :=
  match s with
  | EmptyString => true
  | String c r => int_space c && all_int_space r
  end.

(** The digits of a number, read from the left: [acc] is the value so
    far, [after_digit] tells whether the previous character was a digit
    (an underscore may only stand between two digits).  Trailing
    whitespace ends the number. *)
Fixpoint int_digits (acc : N) (after_digit : bool) (s : string) : option N :=
  match s with
  | EmptyString => if after_digit then Some acc else None
  | String c r =>
      if isdigit c then int_digits (10 * acc + (ord c - 48)) true r
      else if char_eqb c "_" then
        (if after_digit
         then match r with
              | String d _ => if isdigit d then int_digits acc false r else None
              | EmptyString => None
              end
         else None)
      else if after_digit && all_int_space s then Some acc
      else None
  end.

(** [int(s)]; [None] stands for [ValueError]. *)
Definition int_of_str (s : string) : option Z :=
  match lstrip_int s with
  | String "-" r => option_map (fun n => (- Z.of_N n)%Z) (int_digits 0 false r)
  | String "+" r => option_map Z.of_N (int_digits 0 false r)
  | r => option_map Z.of_N (int_digits 0 false r)
  end.

(** ** Sorting strings: [list.sort()] *)

Definition str_leb (a b : string) : bool :=
  match str_compare a b with Gt => false | _ => true end.

Fixpoint sort_insert (x : string) (l : list string) : list string :=
  match l with
  | [] => [x]
  | y :: l' => if str_leb x y then x :: l else y :: sort_insert x l'
  end.

Definition str_sort (l : list string) : list string :=
  foldr sort_insert [] l.

(** ** Dictionaries

    Insertion-ordered, as Python's are: an assignment to a key that is
    present keeps its place, a new key goes to the end. *)

Definition dict (V : Type) : Type := list (string * V).

Fixpoint dict_get {V} (d : dict V) (k : string) : option V :=
  match d with
  | [] => None
  | (k', v) :: d' => if str_eqb k' k then Some v else dict_get d' k
  end.

(** [k in d] *)
Definition dict_in {V} (d : dict V) (k : string) : bool :=
  match dict_get d k with Some _ => true | None => false end.

(** [d[k] = v] *)
Fixpoint dict_set {V} (d : dict V) (k : string) (v : V) : dict V :=
  match d with
  | [] => [(k, v)]
  | (k', v') :: d' =>
      if str_eqb k' k then (k', v) :: d' else (k', v') :: dict_set d' k v
  end.

(** [del d[k]], for a key that is present *)
Fixpoint dict_del {V} (d : dict V) (k : string) : dict V :=
  match d with
  | [] => []
  | (k', v') :: d' =>
      if str_eqb k' k then d' else (k', v') :: dict_del d' k
  end.

(** [[key for key in d]] *)
Definition dict_keys {V} (d : dict V) : list string := map fst d.

(** ** Exceptions *)

(** [Diverges] and [NoSuchObject] are not Python exceptions: the first
    marks a loop of the source that would not end (a cycle in the parent
    chain of a menu), the second a number that names no object of the
    store. *)
Inductive exn :=
| IndexError | KeyError | ValueError | AttributeError
| NotImplementedError | Diverges | NoSuchObject.

Inductive res (A : Type) : Type :=
| Ok (a : A)
| Raise (e : exn).
Arguments Ok {A} a.
Arguments Raise {A} e.

Definition res_bind {A B} (r : res A) (f : A -> res B) : res B :=
  match r with
  | Ok a => f a
  | Raise e => Raise e
  end.

(** [l[i]] on a list or tuple, for an index that is not negative *)
Definition getitem {A} (l : list A) (i : nat) : res A :=
  match l !! i with
  | Some x => Ok x
  | None => Raise IndexError
  end.

(** [l[i] = x] *)
Definition setitem {A} (l : list A) (i : nat) (x : A) : res (list A) :=
  if decide (i < length l) then Ok (<[i := x]> l) else Raise IndexError.

(** [s[0]] on a string *)
Definition str_head (s : string) : res ascii :=
  match s with
  | String c _ => Ok c
  | EmptyString => Raise IndexError
  end.

(** [d[k]] *)
Definition dict_getitem {V} (d : dict V) (k : string) : res V :=
  match dict_get d k with
  | Some v => Ok v
  | None => Raise KeyError
  end.

(** ** Python values passed to callbacks and kept as dictionary keys *)

Inductive Value :=
| VNone
| VBool (b : bool)
| VInt (z : Z)
| VStr (s : string)
| VPair (a b : Value)
| VObj (name : string).

(** [==] on values: [True] and [False] are the integers 1 and 0. *)
Fixpoint value_eqb (a b : Value) : bool :=
  match a, b with
  | VNone, VNone => true
  | VBool x, VBool y => Bool.eqb x y
  | VBool x, VInt y | VInt y, VBool x => (y =? (if x then 1 else 0))%Z
  | VInt x, VInt y => (x =? y)%Z
  | VStr x, VStr y => str_eqb x y
  | VPair a1 a2, VPair b1 b2 => value_eqb a1 b1 && value_eqb a2 b2
  | VObj x, VObj y => str_eqb x y
  | _, _ => false
  end.

(** [bool(v)] *)
Definition value_truth (v : Value) : bool :=
  match v with
  | VNone => false
  | VBool b => b
  | VInt z => negb (z =? 0)%Z
  | VStr s => negb (str_eqb s "")
  | VPair _ _ | VObj _ => true
  end.

(** A dictionary keyed by values. *)
Definition vdict (A : Type) : Type := list (Value * A).

Fixpoint vdict_get {A} (d : vdict A) (k : Value) : option A :=
  match d with
  | [] => None
  | (k', a) :: d' => if value_eqb k' k then Some a else vdict_get d' k
  end.

Fixpoint vdict_set {A} (d : vdict A) (k : Value) (a : A) : vdict A :=
  match d with
  | [] => [(k, a)]
  | (k', a') :: d' =>
      if value_eqb k' k then (k', a) :: d' else (k', a') :: vdict_set d' k a
  end.

(** ** The Qt objects *)

Abbreviation action_id := nat (only parsing).
Abbreviation menu_id := nat (only parsing).

(** The parent of a menu: the menu bar, another menu, or some other
    widget (or none).  Only a menu has the attribute [menuPath]. *)
Inductive widget :=
| MenuBarW
| MenuW (m : menu_id)
| OtherW.

(** What a menu item calls: a callable of another module, a bound method
    of a menu of this module, a lambda of the source, or a local
    function that closes over another callable. *)
Inductive Callback :=
| Fn (name : string)
| Method (self : menu_id) (name : string)
| Lambda (body : string)
| Closure (name : string) (inner : Callback).

(** The slots the [add...Item] methods connect; [b] is the checked state
    the signal carries. *)
Inductive Slot :=
| Call (cb : Callback)                       (* lambda b: callback() *)
| CallValue (cb : Callback) (v : Value)      (* lambda b, v=value: callback(v) *)
| CallState (cb : Callback)                  (* callback *)
| CallStateValue (cb : Callback) (v : Value) (* lambda b, v=value: callback(b, v) *)
| CallIfChecked (cb : Callback) (v : Value). (* lambda b, v=value: doCallback(b, v) *)

Record QAction := {
  a_text : string;
  a_parent : option menu_id;       (* parent(), when it is a QMenu *)
  a_menu : option menu_id;         (* menu(): the submenu the action opens *)
  a_separator : bool;
  a_menuPath : option string;      (* the attribute menuPath, once set *)
  a_shortcuts : list string;
  a_checkable : bool;
  a_checked : bool;
  a_enabled : bool;
  a_triggered : list Slot;
  a_toggled : list Slot
}.

(** A value of [Menu._groups]: the QActionGroup (its actions, in the
    order they were added) and the dictionary from value to action. *)
Record Group := {
  g_members : list action_id;
  g_actions : vdict action_id
}.

Record QMenu := {
  m_title : string;
  m_parent : widget;               (* parent() *)
  m_menuAction : action_id;
  m_actions : list action_id;      (* actions() *)
  m_menuPath : string;
  m_groups : vdict Group;          (* _groups *)
  m_attrs : dict (list action_id)  (* _items, _shellActions, ... *)
}.

(** What the module reads of the application. *)
Record Env := {
  config_view : dict Value;        (* the attributes of iep.config.view *)
  config_settings : dict Value;    (* the attributes of iep.config.settings *)
  shellConfigs : list string;      (* config.name for iep.config.shellConfigs *)
  styleKeys : list string;         (* QStyleFactory.keys() *)
  defaultQtStyleName : string;     (* iep.defaultQtStyleName *)
  toolInfo : list (string * bool)  (* (tool.name, bool(tool.instance)) *)
}.

Record World := {
  config_shortcuts : dict string;      (* iep.config.shortcuts *)
  actions : list QAction;              (* the QActions, by identity *)
  menus : list QMenu;                  (* the QMenus, by identity *)
  keyMappingChanged : list action_id;  (* the actions whose setShortcut
                                          slot is connected to the signal *)
  connections : list (string * Callback); (* other signals and their slots *)
  menuBar_actions : list action_id;    (* menuBar.actions() *)
  menuBar_menus : option (list menu_id); (* menuBar._menus *)
  env : Env
}.

(** *** Field updates *)

Definition with_shortcuts (d : dict string) (w : World) : World :=
  {| config_shortcuts := d; actions := actions w; menus := menus w;
     keyMappingChanged := keyMappingChanged w; connections := connections w;
     menuBar_actions := menuBar_actions w; menuBar_menus := menuBar_menus w;
     env := env w |}.

Definition with_actions (l : list QAction) (w : World) : World :=
  {| config_shortcuts := config_shortcuts w; actions := l; menus := menus w;
     keyMappingChanged := keyMappingChanged w; connections := connections w;
     menuBar_actions := menuBar_actions w; menuBar_menus := menuBar_menus w;
     env := env w |}.

Definition with_menus (l : list QMenu) (w : World) : World :=
  {| config_shortcuts := config_shortcuts w; actions := actions w; menus := l;
     keyMappingChanged := keyMappingChanged w; connections := connections w;
     menuBar_actions := menuBar_actions w; menuBar_menus := menuBar_menus w;
     env := env w |}.

Definition with_keyMappingChanged (l : list action_id) (w : World) : World :=
  {| config_shortcuts := config_shortcuts w; actions := actions w; menus := menus w;
     keyMappingChanged := l; connections := connections w;
     menuBar_actions := menuBar_actions w; menuBar_menus := menuBar_menus w;
     env := env w |}.

Definition with_connections (l : list (string * Callback)) (w : World) : World :=
  {| config_shortcuts := config_shortcuts w; actions := actions w; menus := menus w;
     keyMappingChanged := keyMappingChanged w; connections := l;
     menuBar_actions := menuBar_actions w; menuBar_menus := menuBar_menus w;
     env := env w |}.

Definition with_menuBar_actions (l : list action_id) (w : World) : World :=
  {| config_shortcuts := config_shortcuts w; actions := actions w; menus := menus w;
     keyMappingChanged := keyMappingChanged w; connections := connections w;
     menuBar_actions := l; menuBar_menus := menuBar_menus w;
     env := env w |}.

Definition with_menuBar_menus (l : option (list menu_id)) (w : World) : World :=
  {| config_shortcuts := config_shortcuts w; actions := actions w; menus := menus w;
     keyMappingChanged := keyMappingChanged w; connections := connections w;
     menuBar_actions := menuBar_actions w; menuBar_menus := l;
     env := env w |}.

Definition a_with_menuPath (p : string) (a : QAction) : QAction :=
  {| a_text := a_text a; a_parent := a_parent a; a_menu := a_menu a;
     a_separator := a_separator a; a_menuPath := Some p;
     a_shortcuts := a_shortcuts a; a_checkable := a_checkable a;
     a_checked := a_checked a; a_enabled := a_enabled a;
     a_triggered := a_triggered a; a_toggled := a_toggled a |}.

Definition a_with_shortcuts (l : list string) (a : QAction) : QAction :=
  {| a_text := a_text a; a_parent := a_parent a; a_menu := a_menu a;
     a_separator := a_separator a; a_menuPath := a_menuPath a;
     a_shortcuts := l; a_checkable := a_checkable a;
     a_checked := a_checked a; a_enabled := a_enabled a;
     a_triggered := a_triggered a; a_toggled := a_toggled a |}.

Definition a_with_checkable (b : bool) (a : QAction) : QAction :=
  {| a_text := a_text a; a_parent := a_parent a; a_menu := a_menu a;
     a_separator := a_separator a; a_menuPath := a_menuPath a;
     a_shortcuts := a_shortcuts a; a_checkable := b;
     a_checked := a_checked a; a_enabled := a_enabled a;
     a_triggered := a_triggered a; a_toggled := a_toggled a |}.

Definition a_with_checked (b : bool) (a : QAction) : QAction :=
  {| a_text := a_text a; a_parent := a_parent a; a_menu := a_menu a;
     a_separator := a_separator a; a_menuPath := a_menuPath a;
     a_shortcuts := a_shortcuts a; a_checkable := a_checkable a;
     a_checked := b; a_enabled := a_enabled a;
     a_triggered := a_triggered a; a_toggled := a_toggled a |}.

Definition a_with_enabled (b : bool) (a : QAction) : QAction :=
  {| a_text := a_text a; a_parent := a_parent a; a_menu := a_menu a;
     a_separator := a_separator a; a_menuPath := a_menuPath a;
     a_shortcuts := a_shortcuts a; a_checkable := a_checkable a;
     a_checked := a_checked a; a_enabled := b;
     a_triggered := a_triggered a; a_toggled := a_toggled a |}.

Definition a_with_triggered (l : list Slot) (a : QAction) : QAction :=
  {| a_text := a_text a; a_parent := a_parent a; a_menu := a_menu a;
     a_separator := a_separator a; a_menuPath := a_menuPath a;
     a_shortcuts := a_shortcuts a; a_checkable := a_checkable a;
     a_checked := a_checked a; a_enabled := a_enabled a;
     a_triggered := l; a_toggled := a_toggled a |}.

Definition a_with_toggled (l : list Slot) (a : QAction) : QAction :=
  {| a_text := a_text a; a_parent := a_parent a; a_menu := a_menu a;
     a_separator := a_separator a; a_menuPath := a_menuPath a;
     a_shortcuts := a_shortcuts a; a_checkable := a_checkable a;
     a_checked := a_checked a; a_enabled := a_enabled a;
     a_triggered := a_triggered a; a_toggled := l |}.

Definition m_with_actions (l : list action_id) (m : QMenu) : QMenu :=
  {| m_title := m_title m; m_parent := m_parent m;
     m_menuAction := m_menuAction m; m_actions := l;
     m_menuPath := m_menuPath m; m_groups := m_groups m;
     m_attrs := m_attrs m |}.

Definition m_with_groups (g : vdict Group) (m : QMenu) : QMenu :=
  {| m_title := m_title m; m_parent := m_parent m;
     m_menuAction := m_menuAction m; m_actions := m_actions m;
     m_menuPath := m_menuPath m; m_groups := g;
     m_attrs := m_attrs m |}.

Definition m_with_attrs (d : dict (list action_id)) (m : QMenu) : QMenu :=
  {| m_title := m_title m; m_parent := m_parent m;
     m_menuAction := m_menuAction m; m_actions := m_actions m;
     m_menuPath := m_menuPath m; m_groups := m_groups m;
     m_attrs := d |}.

(** ** The monad of the code that raises and mutates objects *)

Definition M (A : Type) : Type := World -> res (A * World).

Definition ret {A} (a : A) : M A := fun w => Ok (a, w).

Definition bind {A B} (m : M A) (f : A -> M B) : M B :=
  fun w =>
    match m w with
    | Ok (a, w') => f a w'
    | Raise e => Raise e
    end.

Definition raise {A} (e : exn) : M A := fun _ => Raise e.

Definition gets {A} (f : World -> A) : M A := fun w => Ok (f w, w).

Definition modify (f : World -> World) : M unit := fun w => Ok (tt, f w).

Definition lift {A} (r : res A) : M A :=
  fun w => match r with Ok a => Ok (a, w) | Raise e => Raise e end.

(** A function that only reads the objects. *)
Definition reads {A} (f : World -> res A) : M A := fun w => lift (f w) w.

Declare Scope M_scope.
Delimit Scope M_scope with M.
Declare Scope res_scope.
Delimit Scope res_scope with res.

Notation "x <- c1 ;; c2" := (bind c1 (fun x => c2))
  (at level 100, c1 at next level, right associativity) : M_scope.
Notation "c1 ;; c2" := (bind c1 (fun _ => c2))
  (at level 100, right associativity) : M_scope.
Notation "x <- c1 ;; c2" := (res_bind c1 (fun x => c2))
  (at level 100, c1 at next level, right associativity) : res_scope.

(** [for x in l: f(x)] *)
Fixpoint forM_ {A} (l : list A) (f : A -> M unit) : M unit :=
  match l with
  | [] => ret tt
  | x :: l' => (f x ;; forM_ l' f)%M
  end.

(** [[f(x) for x in l]] *)
Fixpoint mapM {A B} (l : list A) (f : A -> M B) : M (list B) :=
  match l with
  | [] => ret []
  | x :: l' => (y <- f x ;; ys <- mapM l' f ;; ret (y :: ys))%M
  end.

(** *** Access to the stores *)

Definition find_action (w : World) (a : action_id) : res QAction :=
  match actions w !! a with
  | Some x => Ok x
  | None => Raise NoSuchObject
  end.

Definition find_menu (w : World) (m : menu_id) : res QMenu :=
  match menus w !! m with
  | Some x => Ok x
  | None => Raise NoSuchObject
  end.

Definition get_action (a : action_id) : M QAction :=
  reads (fun w => find_action w a).

Definition get_menu (m : menu_id) : M QMenu :=
  reads (fun w => find_menu w m).

Definition update_action (a : action_id) (f : QAction -> QAction) : M unit :=
  (_ <- get_action a ;;
   modify (fun w => with_actions (alter f a (actions w)) w))%M.

Definition update_menu (m : menu_id) (f : QMenu -> QMenu) : M unit :=
  (_ <- get_menu m ;;
   modify (fun w => with_menus (alter f m (menus w)) w))%M.

(** A new QAction; its identity is the next free place of the store. *)
Definition new_action (a : QAction) : M action_id :=
  fun w => Ok (length (actions w), with_actions (actions w ++ [a]) w).

Definition plain_action (text : string) (parent : option menu_id) : QAction :=
  {| a_text := text; a_parent := parent; a_menu := None;
     a_separator := false; a_menuPath := None; a_shortcuts := [];
     a_checkable := false; a_checked := false; a_enabled := true;
     a_triggered := []; a_toggled := [] |}.

(** [signal.connect(slot)] for the signals of other objects. *)
Definition connect (signal : string) (slot : Callback) : M unit :=
  modify (fun w => with_connections (connections w ++ [(signal, slot)]) w).

(** *** The methods of QAction and QMenu the module calls

    [setChecked] records the state of the action itself.  What Qt does
    in reaction (the exclusive choice within a QActionGroup and the
    delivery of [toggled] and [triggered] to the connected slots) is the
    toolkit's and is not modelled; the slots are recorded. *)

Definition setCheckable (a : action_id) (b : bool) : M unit :=
  update_action a (a_with_checkable b).

Definition setChecked (a : action_id) (b : bool) : M unit :=
  update_action a (fun x => if a_checkable x then a_with_checked b x else x).

Definition action_setEnabled (a : action_id) (b : bool) : M unit :=
  update_action a (a_with_enabled b).

Definition setShortcuts (a : action_id) (l : list string) : M unit :=
  update_action a (a_with_shortcuts l).

Definition connect_triggered (a : action_id) (s : Slot) : M unit :=
  update_action a (fun x => a_with_triggered (a_triggered x ++ [s]) x).

Definition connect_toggled (a : action_id) (s : Slot) : M unit :=
  update_action a (fun x => a_with_toggled (a_toggled x ++ [s]) x).

(** [QMenu.addAction(text)]: a new action, owned by the menu, at the end
    of its actions. *)
Definition addAction (self : menu_id) (text : string) : M action_id :=
  (_ <- get_menu self ;;
   a <- new_action (plain_action text (Some self)) ;;
   update_menu self (fun m => m_with_actions (m_actions m ++ [a]) m) ;;
   ret a)%M.

Definition addSeparator (self : menu_id) : M action_id :=
  (_ <- get_menu self ;;
   a <- new_action
          {| a_text := ""; a_parent := Some self; a_menu := None;
             a_separator := true; a_menuPath := None; a_shortcuts := [];
             a_checkable := false; a_checked := false; a_enabled := true;
             a_triggered := []; a_toggled := [] |} ;;
   update_menu self (fun m => m_with_actions (m_actions m ++ [a]) m) ;;
   ret a)%M.

(** [QMenu.addMenu(menu)]: the action of the submenu joins the actions. *)
Definition addMenu (self : menu_id) (menu : menu_id) : M action_id :=
  (sub <- get_menu menu ;;
   update_menu self
     (fun m => m_with_actions (m_actions m ++ [m_menuAction sub]) m) ;;
   ret (m_menuAction sub))%M.

(** [QMenuBar.addMenu(menu)] *)
Definition menuBar_addMenu (menu : menu_id) : M unit :=
  (sub <- get_menu menu ;;
   modify (fun w =>
     with_menuBar_actions (menuBar_actions w ++ [m_menuAction sub]) w))%M.

Fixpoint remove_first (a : action_id) (l : list action_id) : list action_id :=
  match l with
  | [] => []
  | x :: l' => if decide (x = a) then l' else x :: remove_first a l'
  end.

Definition removeAction (self : menu_id) (a : action_id) : M unit :=
  update_menu self (fun m => m_with_actions (remove_first a (m_actions m)) m).

(** A new QMenu with its title; the menu owns the action that stands for
    it in its parent. *)
Definition new_menu (parent : widget) (title menuPath : string)
    (attrs : dict (list action_id)) : M menu_id :=
  fun w =>
    let self := length (menus w) in
    let act := {| a_text := title; a_parent := Some self; a_menu := Some self;
                  a_separator := false; a_menuPath := None; a_shortcuts := [];
                  a_checkable := false; a_checked := false; a_enabled := true;
                  a_triggered := []; a_toggled := [] |} in
    let m := {| m_title := title; m_parent := parent;
                m_menuAction := length (actions w); m_actions := [];
                m_menuPath := menuPath; m_groups := []; m_attrs := attrs |} in
    Ok (self, with_menus (menus w ++ [m]) (with_actions (actions w ++ [act]) w)).

(** [self.attr = l] and [self.attr] for the lists of actions a menu keeps *)
Definition set_attr (self : menu_id) (attr : string) (l : list action_id) : M unit :=
  update_menu self (fun m => m_with_attrs (dict_set (m_attrs m) attr l) m).

Definition get_attr (self : menu_id) (attr : string) : M (list action_id) :=
  (m <- get_menu self ;;
   match dict_get (m_attrs m) attr with
   | Some l => ret l
   | None => raise AttributeError
   end)%M.

(** [getattr(obj, name)] on the configuration *)
Definition getattr (d : dict Value) (name : string) : M Value :=
  match dict_get d name with
  | Some v => ret v
  | None => raise AttributeError
  end.

(** ** class KeyMapper *)

Module KeyMapper.

(** [setShortcut(self, action)] *)
Definition setShortcut (action : action_id) : M unit :=
  (a <- get_action action ;;
   menuPath <- match a_menuPath a with
               | Some p => ret p
               | None => raise AttributeError
               end ;;
   cfg <- gets config_shortcuts ;;
   if dict_in cfg menuPath then
     shortcuts <- lift (dict_getitem cfg menuPath) ;;
     setShortcuts action (str_split "," shortcuts)
   else ret tt)%M.

(** [keyMappingChanged.emit()]: the connected slots run in the order of
    their connection; each is [lambda: iep.keyMapper.setShortcut(a)]. *)
Definition keyMappingChanged_emit : M unit :=
  (slots <- gets keyMappingChanged ;;
   forM_ slots setShortcut)%M.

End KeyMapper.

(** ** unwrapText *)

Definition unwrapText (text : string) : string :=
  (* Removes newlines *)
  let text := str_replace (String LF "") "" text in
  (* Remove double/triple/etc spaces *)
  let text := str_lstrip text in
  let text := Nat.iter 10 (str_replace "  " " ") text in
  (* Convert \r newlines *)
  let text := str_replace (String CR "") (String LF "") text in
  (* Remove spaces after newlines *)
  let text := str_replace (String LF " ") (String LF "") text in
  text.

(** ** class Menu *)

(** What [addItem] and its siblings take as [properties]: a text, or a
    tuple of an icon and a text. *)
Inductive Properties :=
| PText (text : string)
| PIconText (icon : string) (text : string).

Module Menu.

(** [_createMenuPathName(self, name)] *)
Definition _createMenuPathName (name : string) : res string :=
  (* hide anything between brackets *)
  let name := re_sub_brackets name in
  (* replace invalid chars *)
  let name := str_replace " " "_" name in
  (c <- str_head name ;;
   let name := if str_contains c "0123456789_" then String "_" name else name in
   let name := re_sub_invalid None name in
   Ok (str_lower name))%res.

(** [__init__(self, parent, name)].  The subclasses differ in the lists
    they set before calling it ([attrs]) and in [build]. *)
Definition __init__ (attrs : dict (list action_id)) (build : menu_id -> M unit)
    (parent : widget) (name : string) : M menu_id :=
  (* Make sure that the menu has a title *)
  (if str_eqb name "" then raise ValueError else
   (* menuPath is used to bind shortcuts *)
   prefix <- match parent with
             | MenuW p => pm <- get_menu p ;; ret (m_menuPath pm +:+ "__")
             | _ => ret "" (* This is a top-level menu *)
             end ;;
   path <- lift (_createMenuPathName name) ;;
   self <- new_menu parent name (prefix +:+ path) attrs ;;
   build self ;;
   ret self)%M.

(** [_addAction(self, properties)] *)
Definition _addAction (self : menu_id) (properties : Properties) : M action_id :=
  match properties with
  | PText text => addAction self text
  | PIconText _ text => addAction self text
  end.

(** [build(self)]: to be overridden *)
Definition build (self : menu_id) : M unit := raise NotImplementedError.

(** [_connectActionShortcut(self, a)] *)
Definition _connectActionShortcut (self : menu_id) (a : action_id) : M unit :=
  (m <- get_menu self ;;
   act <- get_action a ;;
   name <- lift (_createMenuPathName (a_text act)) ;;
   update_action a (a_with_menuPath (m_menuPath m +:+ "__" +:+ name)) ;;
   modify (fun w => with_keyMappingChanged (keyMappingChanged w ++ [a]) w) ;;
   KeyMapper.setShortcut a)%M.

(** [addItem(self, properties, callback = None, value = None)] *)
Definition addItem (self : menu_id) (properties : Properties)
    (callback : option Callback) (value : Value) : M action_id :=
  (a <- _addAction self properties ;;
   (* Connect the menu item to its callback *)
   match callback with
   | Some cb =>
       match value with
       | VNone => connect_triggered a (Call cb)
       | _ => connect_triggered a (CallValue cb value)
       end
   | None => ret tt
   end ;;
   _connectActionShortcut self a ;;
   ret a)%M.

(** [addGroupItem(self, properties, group = None, value = None,
    callback = None, selected = False)] *)
Definition addGroupItem (self : menu_id) (properties : Properties)
    (group value : Value) (callback : option Callback) (selected : bool)
    : M action_id :=
  (a <- _addAction self properties ;;
   setCheckable a true ;;
   setChecked a selected ;;
   match callback with
   | Some cb => connect_toggled a (CallIfChecked cb value)
   | None => ret tt
   end ;;
   (* Add the menu item to a action group *)
   m <- get_menu self ;;
   let groups := match vdict_get (m_groups m) group with
                 | Some _ => m_groups m
                 | None => vdict_set (m_groups m) group
                             {| g_members := []; g_actions := [] |}
                 end in
   g <- match vdict_get groups group with
        | Some g => ret g
        | None => raise KeyError
        end ;;
   let g' := {| g_members := g_members g ++ [a];
                g_actions := vdict_set (g_actions g) value a |} in
   update_menu self (m_with_groups (vdict_set groups group g')) ;;
   _connectActionShortcut self a ;;
   ret a)%M.

(** [addCheckItem(self, properties, callback = None, value = None,
    selected = False)] *)
Definition addCheckItem (self : menu_id) (properties : Properties)
    (callback : option Callback) (value : Value) (selected : bool)
    : M action_id :=
  (a <- _addAction self properties ;;
   setCheckable a true ;;
   setChecked a selected ;;
   (* Connect the menu item to its callback *)
   match callback with
   | Some cb =>
       match value with
       | VNone => connect_triggered a (CallState cb)
       | _ => connect_triggered a (CallStateValue cb value)
       end
   | None => ret tt
   end ;;
   _connectActionShortcut self a ;;
   ret a)%M.

(** [setCheckedOption(self, group, value)] *)
Definition setCheckedOption (self : menu_id) (group value : Value) : M unit :=
  (m <- get_menu self ;;
   g <- match vdict_get (m_groups m) group with
        | Some g => ret g
        | None => raise KeyError
        end ;;
   match vdict_get (g_actions g) value with
   | Some a => setChecked a true
   | None => ret tt
   end)%M.

End Menu.

(** ** The menus *)

Module IndentationMenu.

(** [setEnabled(self, enabled)] *)
Definition setEnabled (self : menu_id) (enabled : bool) : M unit :=
  (items <- get_attr self "_items" ;;
   forM_ items (fun child =>
     action_setEnabled child enabled ;;
     if negb enabled then setChecked child false else ret tt))%M.

Definition build (self : menu_id) : M unit :=
  (a1 <- Menu.addGroupItem self (PText "Use tabs") (VStr "style") (VBool false)
           (Some (Method self "setStyle")) false ;;
   a2 <- Menu.addGroupItem self (PText "Use spaces") (VStr "style") (VBool true)
           (Some (Method self "setStyle")) false ;;
   set_attr self "_items" [a1; a2] ;;
   addSeparator self ;;
   more <- mapM [2; 3; 4; 5; 6; 7; 8]%Z (fun i =>
             Menu.addGroupItem self (PText (str_of_Z i +:+ " spaces"))
               (VStr "width") (VInt i) (Some (Method self "setWidth")) false) ;;
   items <- get_attr self "_items" ;;
   set_attr self "_items" (items ++ more) ;;
   (* Items are selected and enabled via the onEditorsCurrentChanged slot *)
   setEnabled self false)%M.

Definition new (parent : widget) (name : string) : M menu_id :=
  (self <- Menu.__init__ [("_items", [])] build parent name ;;
   connect "iep.editors.currentChanged" (Method self "onEditorsCurrentChanged") ;;
   ret self)%M.

End IndentationMenu.

Module FileMenu.

Definition build (self : menu_id) : M unit :=
  (Menu.addItem self (PText "New") (Some (Fn "iep.editors.newFile")) VNone ;;
   Menu.addItem self (PText "Open") (Some (Fn "iep.editors.openFile")) VNone ;;
   Menu.addItem self (PText "Save") (Some (Fn "iep.editors.saveFile")) VNone ;;
   Menu.addItem self (PText "Save as") (Some (Fn "iep.editors.saveFileAs")) VNone ;;
   Menu.addItem self (PText "Save all") (Some (Fn "iep.editors.saveAllFiles")) VNone ;;
   Menu.addItem self (PText "Close") (Some (Fn "iep.editors.closeFile")) VNone ;;
   Menu.addItem self (PText "Close all") (Some (Fn "iep.editors.closeAllFiles")) VNone ;;
   addSeparator self ;;
   sub <- IndentationMenu.new (MenuW self) "Indentation" ;;
   addMenu self sub ;;
   addSeparator self ;;
   Menu.addItem self (PText "Restart IEP") (Some (Fn "iep.main.restart")) VNone ;;
   Menu.addItem self (PText "Quit IEP") (Some (Fn "iep.main.close")) VNone ;;
   ret tt)%M.

Definition new : widget -> string -> M menu_id := Menu.__init__ [] build.

End FileMenu.

Module EditMenu.

Definition build (self : menu_id) : M unit :=
  (let cb := Some (Method self "_editItemCallback") in
   Menu.addItem self (PText "Undo") cb (VStr "undo") ;;
   Menu.addItem self (PText "Redo") cb (VStr "redo") ;;
   addSeparator self ;;
   Menu.addItem self (PText "Cut") cb (VStr "cut") ;;
   Menu.addItem self (PText "Copy") cb (VStr "copy") ;;
   Menu.addItem self (PText "Paste") cb (VStr "paste") ;;
   Menu.addItem self (PText "Select all") cb (VStr "selectAll") ;;
   addSeparator self ;;
   Menu.addItem self (PText "Indent lines") cb (VStr "indentSelection") ;;
   Menu.addItem self (PText "Dedent lines") cb (VStr "dedentSelection") ;;
   addSeparator self ;;
   Menu.addItem self (PText "Comment lines") cb (VStr "commentCode") ;;
   Menu.addItem self (PText "Uncomment lines") cb (VStr "uncommentCode") ;;
   addSeparator self ;;
   Menu.addItem self (PText "Find or replace")
     (Some (Fn "iep.editors._findReplace.startFind")) VNone ;;
   Menu.addItem self (PText "Find selection")
     (Some (Fn "iep.editors._findReplace.findSelection")) VNone ;;
   Menu.addItem self (PText "Find selection backward")
     (Some (Fn "iep.editors._findReplace.findSelectionBw")) VNone ;;
   Menu.addItem self (PText "Find next")
     (Some (Fn "iep.editors._findReplace.findNext")) VNone ;;
   Menu.addItem self (PText "Find previous")
     (Some (Fn "iep.editors._findReplace.findPrevious")) VNone ;;
   ret tt)%M.

Definition new : widget -> string -> M menu_id := Menu.__init__ [] build.

End EditMenu.

Module EdgeColumnMenu.

Definition build (self : menu_id) : M unit :=
  (let changed := Some (Method self "changed") in
   Menu.addGroupItem self (PText "None") (VStr "edge") (VInt 0) changed false ;;
   forM_ [60; 70; 80; 90; 100; 110; 120]%Z (fun value =>
     Menu.addGroupItem self (PText (str_of_Z value)) (VStr "edge") (VInt value)
       changed false ;;
     ret tt) ;;
   view <- gets (fun w => config_view (env w)) ;;
   edgeColumn <- getattr view "edgeColumn" ;;
   Menu.setCheckedOption self (VStr "edge") edgeColumn)%M.

Definition new : widget -> string -> M menu_id := Menu.__init__ [] build.

End EdgeColumnMenu.

(** [v.lower()] on a configuration value, which must be a string *)
Definition value_lower (v : Value) : M string :=
  match v with
  | VStr s => ret (str_lower s)
  | _ => raise AttributeError
  end.

Module QtThemeMenu.

Definition build (self : menu_id) : M unit :=
  (keys <- gets (fun w => styleKeys (env w)) ;;
   default <- gets (fun w => defaultQtStyleName (env w)) ;;
   let styleNames := str_sort (keys ++ ["Cleanlooks+"]) in
   (* Add all items to the menu and mark the default one *)
   forM_ styleNames (fun styleName =>
     let title := if str_eqb (str_lower styleName) (str_lower default)
                  then styleName +:+ " (default)" else styleName in
     Menu.addGroupItem self (PText title) (VStr "style")
       (VStr (str_lower styleName)) (Some (Method self "changed")) false ;;
     ret tt) ;;
   (* Select the one that is default from the iep config *)
   view <- gets (fun w => config_view (env w)) ;;
   qtstyle <- getattr view "qtstyle" ;;
   qtstyle <- value_lower qtstyle ;;
   Menu.setCheckedOption self (VStr "style") (VStr qtstyle))%M.

Definition new : widget -> string -> M menu_id := Menu.__init__ [] build.

End QtThemeMenu.

Module ViewMenu.

(** [addEditorItem(self, name, param)] *)
Definition addEditorItem (self : menu_id) (name param : string) : M unit :=
  (view <- gets (fun w => config_view (env w)) ;;
   let default := match dict_get view param with
                  | Some v => value_truth v
                  | None => true
                  end in
   Menu.addCheckItem self (PText name) (Some (Method self "_configEditor"))
     (VStr param) default ;;
   ret tt)%M.

Definition build (self : menu_id) : M unit :=
  (Menu.addItem self (PText "Select shell") (Some (Method self "_selectShell")) VNone ;;
   Menu.addItem self (PText "Select editor") (Some (Method self "_selectEditor")) VNone ;;
   Menu.addItem self (PText "Select previous file")
     (Some (Fn "iep.editors._tabs.selectPreviousItem")) VNone ;;
   addSeparator self ;;
   addEditorItem self "Show whitespace" "showWhitespace" ;;
   addEditorItem self "Show line endings" "showLineEndings" ;;
   addEditorItem self "Show indentation guides" "showIndentationGuides" ;;
   addSeparator self ;;
   addEditorItem self "Wrap long lines" "wrap" ;;
   addEditorItem self "Highlight current line" "highlightCurrentLine" ;;
   addSeparator self ;;
   edge <- EdgeColumnMenu.new (MenuW self) "Edge column" ;;
   addMenu self edge ;;
   theme <- QtThemeMenu.new (MenuW self) "Qt theme" ;;
   addMenu self theme ;;
   ret tt)%M.

Definition new : widget -> string -> M menu_id := Menu.__init__ [] build.

End ViewMenu.

(** The places of a list, counted from [i]: [enumerate] *)
Fixpoint enumerate_from {A} (i : Z) (l : list A) : list (Z * A) :=
  match l with
  | [] => []
  | x :: l' => (i, x) :: enumerate_from (i + 1) l'
  end.

Module ShellMenu.

(** [updateShells(self)] *)
Definition updateShells (self : menu_id) : M unit :=
  (old <- get_attr self "_shellCreateActions" ;;
   forM_ old (removeAction self) ;;
   configs <- gets (fun w => shellConfigs (env w)) ;;
   created <- mapM (enumerate_from 0 configs) (fun '(i, name) =>
     Menu.addItem self
       (PText ("Create shell " +:+ str_of_Z (i + 1) +:+ ": (" +:+ name +:+ ")"))
       (Some (Fn "iep.shells.addShell")) (VObj name)) ;;
   set_attr self "_shellCreateActions" created)%M.

(** [build(self, isCtxMenu = False)] *)
Definition build (isCtxMenu : bool) (self : menu_id) : M unit :=
  (let shellAction := Some (Method self "shellAction") in
   a1 <- Menu.addItem self (PText "Interrupt current shell") shellAction (VStr "interrupt") ;;
   a2 <- Menu.addItem self (PText "Terminate current shell") shellAction (VStr "terminate") ;;
   a3 <- Menu.addItem self (PText "Restart current shell") shellAction (VStr "restart") ;;
   a4 <- Menu.addItem self (PText "Clear screen") shellAction (VStr "clearScreen") ;;
   set_attr self "_shellActions" [a1; a2; a3; a4] ;;
   if negb isCtxMenu then
     addSeparator self ;;
     Menu.addItem self (PText "Edit shell configurations...")
       (Some (Method self "editConfig")) VNone ;;
     (* Add shell configs *)
     updateShells self
   else ret tt)%M.

Definition init (build : menu_id -> M unit) (parent : widget) (name : string)
    : M menu_id :=
  (self <- Menu.__init__ [("_shellCreateActions", []); ("_shellActions", [])]
             build parent name ;;
   connect "iep.shells.currentShellChanged" (Method self "onCurrentShellChanged") ;;
   ret self)%M.

Definition new : widget -> string -> M menu_id := init (build false).

End ShellMenu.

Module ShellContextMenu.

Definition build (self : menu_id) : M unit :=
  (ShellMenu.build true self ;;
   addSeparator self ;;
   let cb := Some (Method self "_editItemCallback") in
   Menu.addItem self (PText "Cut") cb (VStr "cut") ;;
   Menu.addItem self (PText "Copy") cb (VStr "copy") ;;
   Menu.addItem self (PText "Paste") cb (VStr "paste") ;;
   Menu.addItem self (PText "Select all") cb (VStr "selectAll") ;;
   ret tt)%M.

Definition new : widget -> string -> M menu_id := ShellMenu.init build.

End ShellContextMenu.

(** ** RunMenu: running code

    The document of the editor is a list of blocks (the lines), never
    empty, and a position counts the characters from the start, each
    block but the last being followed by one separator.  The cursor
    [runCell] moves stands at the start of a block until its last move. *)

(** What [runCell] reads of the editor: the text of its blocks, the
    block the cursor is in, and the length of the first line the layout
    makes of a block (the whole block unless the editor wraps it). *)
Record Editor := {
  e_blocks : list string;
  e_cursorBlock : nat;
  e_lineLength : string -> nat
}.

(** [s[n:]] and [s[:n]] *)
Fixpoint str_drop (n : nat) (s : string) : string :=
  match n, s with
  | S k, String _ r => str_drop k r
  | _, _ => s
  end.

Fixpoint str_take (n : nat) (s : string) : string :=
  match n, s with
  | S k, String c r => String c (str_take k r)
  | _, _ => EmptyString
  end.

(** [block.text()] of the block [i] *)
Definition block_text (doc : list string) (i : nat) : string :=
  default "" (doc !! i).

(** [block.position()] of the block [i] *)
Fixpoint block_position (doc : list string) (i : nat) : nat :=
  match i, doc with
  | S i', b :: doc' => String.length b + 1 + block_position doc' i'
  | _, _ => 0
  end.

(** [cursor.selectedText().replace('\u2029', '\n')]: the text between
    the anchor and the position, whichever comes first, the separators
    of the blocks turned into newlines. *)
Definition selected_text (doc : list string) (anchor position : nat) : string :=
  let lo := Nat.min anchor position in
  let hi := Nat.max anchor position in
  str_take (hi - lo) (str_drop lo (str_join (String LF "") doc)).

(** [block.text().lstrip().startswith('##')] *)
Definition starts_cell (text : string) : bool :=
  match strip_prefix "##" (str_lstrip text) with
  | Some _ => true
  | None => false
  end.

(** [getShellAndEditor(self, what, mainEditor)]: the message of the
    warning it shows, [None] when it shows none. *)
Definition getShellAndEditor_msg (what : string) (shell editor : bool)
    (mainEditor : bool) : option string :=
  let msg := "" in
  let msg := if shell then msg else msg +:+ "No shell to run code in. " in
  let msg := if editor then msg
             else if mainEditor then msg +:+ "The is no main file selected."
                  else msg +:+ "No editor selected." in
  if str_eqb msg "" then None
  else Some ("Could not run " +:+ what +:+ ":" +:+ String LF (String LF "") +:+ msg).

(** What a run comes to: nothing is executed (after a warning or not),
    or [shell.executeCode(code, fname, lineNumber)] is called. *)
Inductive RunResult :=
| NotRun (warning : option string)
| Executed (code : string) (lineNumber : nat).

Module RunMenu.

Definition build (self : menu_id) : M unit :=
  (let runFile := Some (Method self "runFile") in
   Menu.addItem self (PText "Run selected lines") (Some (Method self "runSelected")) VNone ;;
   Menu.addItem self (PText "Run cell") (Some (Method self "runCell")) VNone ;;
   (* In the runFile calls, the parameter specifies (asFile, mainFile) *)
   Menu.addItem self (PText "Run file") runFile (VPair (VBool false) (VBool false)) ;;
   Menu.addItem self (PText "Run main file") runFile (VPair (VBool false) (VBool true)) ;;
   addSeparator self ;;
   Menu.addItem self (PText "Run file as script") runFile (VPair (VBool true) (VBool false)) ;;
   Menu.addItem self (PText "Run main file as script") runFile (VPair (VBool true) (VBool true)) ;;
   addSeparator self ;;
   Menu.addItem self (PText "Help on running code") (Some (Method self "showHelp")) VNone ;;
   ret tt)%M.

Definition new : widget -> string -> M menu_id := Menu.__init__ [] build.

(** The first loop of [runCell]: from the block [i] up, until the start
    of the document or right after a line starting with ##; [None] is
    the [return] on a last line that starts with ##. *)
Fixpoint cell_start (doc : list string) (i : nat) : option nat :=
  match i with
  | O => Some O                        (* Start of document *)
  | S i' =>
      if starts_cell (block_text doc i) then
        (* ## line, move to the line following this one *)
        if S i <? length doc then Some (S i) else None
      else cell_start doc i'
  end.

(** The second loop of [runCell], on the blocks from the cursor's on,
    [position] being the start of the first of them: the position the
    cursor ends at. *)
Fixpoint cell_end (lineLength : string -> nat) (blocks : list string)
    (position : nat) : nat :=
  match blocks with
  | [] => position
  | b :: rest =>
      if starts_cell b then
        (* This line starts with ##, move to the end of the previous one *)
        position - 1
      else
        match rest with
        | [] =>
            (* Last block of the document, move to the end of the line *)
            position + lineLength b
        | _ :: _ => cell_end lineLength rest (position + String.length b + 1)
        end
  end.

(** [runCell(self, value)] *)
Definition runCell (shell : bool) (editor : option Editor) : RunResult :=
  (* Get editor and shell *)
  match shell, editor with
  | true, Some ed =>
      let doc := e_blocks ed in
      (* Move up until the start of document or right after a line
         starting with ## *)
      match cell_start doc (e_cursorBlock ed) with
      | None => NotRun None
      | Some start =>
          (* This is the line number of the start *)
          let lineNumber := start in
          (* Move down until a line before one starting with ## or to
             end of document *)
          let anchor := block_position doc start in
          let position := cell_end (e_lineLength ed) (drop start doc) anchor in
          (* Sample code, execute code *)
          Executed (selected_text doc anchor position) lineNumber
      end
  | _, _ =>
      NotRun (getShellAndEditor_msg "cell" shell
                (match editor with Some _ => true | None => false end) false)
  end.

End RunMenu.

Module ToolsMenu.

Definition build (self : menu_id) : M unit :=
  (Menu.addItem self (PText "Reload tools") (Some (Fn "iep.toolManager.reloadTools")) VNone ;;
   addSeparator self ;;
   connect "iep.toolManager.toolInstanceChange" (Method self "onToolInstanceChange"))%M.

(** [onToolInstanceChange(self)] *)
Definition onToolInstanceChange (self : menu_id) : M unit :=
  ((* Remove all exisiting tools from the menu *)
   old <- get_attr self "_toolActions" ;;
   forM_ old (removeAction self) ;;
   (* Add all tools, with checkmarks for those that are active *)
   tools <- gets (fun w => toolInfo (env w)) ;;
   created <- mapM tools (fun '(name, active) =>
     Menu.addCheckItem self (PText name) (Some (Fn (name +:+ ".menuLauncher")))
       VNone active) ;;
   set_attr self "_toolActions" created)%M.

Definition new : widget -> string -> M menu_id :=
  Menu.__init__ [("_toolActions", [])] build.

End ToolsMenu.

Module HelpMenu.

(** [addUrlItem(self, name, url)] *)
Definition addUrlItem (self : menu_id) (name url : string) : M unit :=
  (Menu.addItem self (PText name) (Some (Lambda ("webbrowser.open " +:+ url))) VNone ;;
   ret tt)%M.

Definition build (self : menu_id) : M unit :=
  (addUrlItem self "Website" "http://code.google.com/p/iep/" ;;
   addUrlItem self "Ask a question" "http://groups.google.com/group/iep_" ;;
   addUrlItem self "Report an issue" "http://code.google.com/p/iep/issues/list" ;;
   addSeparator self ;;
   Menu.addItem self (PText "Tutorial") (Some (Lambda "iep.editors.loadFile tutorial.py")) VNone ;;
   Menu.addItem self (PText "View license") (Some (Lambda "iep.editors.loadFile license.txt")) VNone ;;
   Menu.addItem self (PText "Check for updates") None VNone ;;
   Menu.addItem self (PText "About IEP") (Some (Lambda "None")) VNone ;;
   ret tt)%M.

Definition new : widget -> string -> M menu_id := Menu.__init__ [] build.

End HelpMenu.

Module SettingsMenu.

(** [addBoolSetting(self, properties, key, callback = None)] *)
Definition addBoolSetting (self : menu_id) (properties : Properties)
    (key : string) (callback : option Callback) : M unit :=
  (let _callback := match callback with
                    | Some cb => Closure "_callback" cb
                    | None => Lambda "_callback"
                    end in
   settings <- gets (fun w => config_settings (env w)) ;;
   default <- getattr settings key ;;
   Menu.addCheckItem self properties (Some _callback) (VStr key)
     (value_truth default) ;;
   ret tt)%M.

Definition build (self : menu_id) : M unit :=
  (addBoolSetting self (PText "Automatically indent") "autoIndent"
     (Some (Lambda "[e.setAutoIndent(state) for e in iep.editors]")) ;;
   addBoolSetting self (PText "Enable autocompletion") "autoComplete" None ;;
   addBoolSetting self (PText "Autocomplete keywords") "autoComplete_keywords" None ;;
   addSeparator self ;;
   Menu.addItem self (PText "Edit key mappings...")
     (Some (Lambda "KeymappingDialog().exec_()")) VNone ;;
   Menu.addItem self (PText "Edit syntax styles...") (Some (Method self "editStyles")) VNone ;;
   Menu.addItem self (PText "Advanced settings...") (Some (Method self "advancedSettings")) VNone ;;
   ret tt)%M.

Definition new : widget -> string -> M menu_id := Menu.__init__ [] build.

End SettingsMenu.

(** ** buildMenus *)

Definition buildMenus : M unit :=
  (m1 <- FileMenu.new MenuBarW "File" ;;
   m2 <- EditMenu.new MenuBarW "Edit" ;;
   m3 <- ViewMenu.new MenuBarW "View" ;;
   m4 <- SettingsMenu.new MenuBarW "Settings" ;;
   m5 <- ShellMenu.new MenuBarW "Shell" ;;
   m6 <- RunMenu.new MenuBarW "Run" ;;
   m7 <- ToolsMenu.new MenuBarW "Tools" ;;
   m8 <- HelpMenu.new MenuBarW "Help" ;;
   let menus := [m1; m2; m3; m4; m5; m6; m7; m8] in
   forM_ menus menuBar_addMenu ;;
   modify (with_menuBar_menus (Some menus)))%M.

(** ** expandVersion *)

Definition expandVersion (version : string) : string :=
  let parts :=
    foldl (fun parts ver =>
             match int_of_str ver with
             | Some n => parts ++ [format_05i n]
             | None => parts ++ [ver]      (* except ValueError *)
             end) [] (str_split "." version) in
  str_join "." parts.

(** [a > b] on strings. *)
Definition str_gtb (a b : string) : bool :=
  match str_compare a b with Gt => true | _ => false end.

(** The loop of [fun_updates] that selects the best of the versions the
    download page lists. *)
Definition select_best (results : list string) : string :=
  foldl (fun remoteVersion result =>
           if str_gtb (expandVersion result) (expandVersion remoteVersion)
           then result else remoteVersion)
        "" results.

(** ** getFullName and getShortcut *)

(** The loop of [getFullName]: climbs from menu to menu for as long as
    the parent is a QMenu, putting each title in front of the text.
    [fuel] is the number of menus of the store: a chain of parents that
    does not come back to a menu cannot be longer. *)
Fixpoint parent_titles (fuel : nat) (w : World) (parent : option menu_id)
    (text : string) : res string :=
  match parent with
  | None => Ok text
  | Some m =>
      match fuel with
      | O => Raise Diverges
      | S fuel' =>
          (item <- find_menu w m ;;
           parent_titles fuel' w
             (match m_parent item with MenuW p => Some p | _ => None end)
             (m_title item +:+ "__" +:+ text))%res
      end
  end.

(** [getFullName(action)] *)
Definition getFullName (w : World) (action : action_id) : res string :=
  (item <- find_action w action ;;
   let text := a_text item in
   text <- parent_titles (length (menus w)) w (a_parent item) text ;;
   (* hide anything between brackets *)
   let text := re_sub_brackets text in
   (* replace invalid chars *)
   let text := str_replace " " "_" text in
   c <- str_head text ;;
   let text := if str_contains c "0123456789" then String "_" text else text in
   let text := re_sub_invalid (Some 999) text in
   Ok (str_lower text))%res.

(** The argument of [getShortcut]: a full name or a QAction. *)
Inductive name_or_action :=
| FullName (fullName : string)
| Action (action : action_id).

(** [getShortcut(fullName)]; the tuple it returns is a list. *)
Definition getShortcut (w : World) (fullName : name_or_action) : res (list string) :=
  (fullName <- match fullName with
               | Action a => getFullName w a
               | FullName s => Ok s
               end ;;
   if dict_in (config_shortcuts w) fullName then
     shortcut <- dict_getitem (config_shortcuts w) fullName ;;
     if decide (str_count "," shortcut = 0)
     then Ok [shortcut; ""]
     else Ok (str_split "," shortcut)
   else Ok [""; ""])%res.

(** ** class KeyMapModel *)

(** What the internal pointer of a model index holds. *)
Inductive Item :=
| ItemMenu (m : menu_id)
| ItemAction (a : action_id).

Inductive QModelIndex :=
| InvalidIndex
| Index (row column : nat) (internalPointer : Item).

Record KeyMapModel := { _root : option menu_id }.

Module KeyMapModel.

(** [setRootMenu(self, menu)] *)
Definition setRootMenu (self : KeyMapModel) (menu : menu_id) : KeyMapModel :=
  {| _root := Some menu |}.

(** [item.actions()]: only a menu has actions. *)
Definition item_actions (w : World) (item : option Item) : res (list action_id) :=
  match item with
  | Some (ItemMenu m) => (menu <- find_menu w m ;; Ok (m_actions menu))%res
  | Some (ItemAction _) | None => Raise AttributeError
  end.

(** [rowCount(self, parent)] *)
Definition rowCount (self : KeyMapModel) (w : World) (parent : QModelIndex)
    : res nat :=
  match parent with
  | Index _ _ menu =>
      (l <- item_actions w (Some menu) ;; Ok (length l))%res
  | InvalidIndex =>
      (l <- item_actions w (option_map ItemMenu (_root self)) ;; Ok (length l))%res
  end.

(** [columnCount(self, parent)] *)
Definition columnCount (self : KeyMapModel) (parent : QModelIndex) : nat := 3.

(** [hasChildren(self, index)] *)
Definition hasChildren (self : KeyMapModel) (index : QModelIndex) : bool :=
  match index with
  | InvalidIndex => true          (* row() is -1 *)
  | Index _ _ (ItemMenu _) => true
  | Index _ _ (ItemAction _) => false
  end.

(** [index(self, row, column, parent)] *)
Definition index (self : KeyMapModel) (w : World) (row column : nat)
    (parent : QModelIndex) : res QModelIndex :=
  (* establish parent *)
  let parentMenu := match parent with
                    | InvalidIndex => option_map ItemMenu (_root self)
                    | Index _ _ p => Some p
                    end in
  (* produce index and make menu if the action represents a menu *)
  (l <- item_actions w parentMenu ;;
   childAction <- getitem l row ;;
   a <- find_action w childAction ;;
   match a_menu a with
   | Some m => Ok (Index row column (ItemMenu m))
   | None => Ok (Index row column (ItemAction childAction))
   end)%res.

End KeyMapModel.

(** ** class KeyMapEditDialog *)

(** The state of the dialog: [_line] is the shortcut the line edit holds
    (what its [text()] returns), [_label] the text of the label. *)
Record KeyMapEditDialog := {
  _fullname : string;
  _intro : string;
  _isprimary : bool;
  _label : string;
  _line : string;
  _open : bool
}.

Definition with_label (text : string) (d : KeyMapEditDialog) : KeyMapEditDialog :=
  {| _fullname := _fullname d; _intro := _intro d; _isprimary := _isprimary d;
     _label := text; _line := _line d; _open := _open d |}.

Definition with_line (text : string) (d : KeyMapEditDialog) : KeyMapEditDialog :=
  {| _fullname := _fullname d; _intro := _intro d; _isprimary := _isprimary d;
     _label := _label d; _line := text; _open := _open d |}.

Module KeyMapEditDialog.

(** [__init__(self, *args)] *)
Definition __init__ : KeyMapEditDialog :=
  {| _fullname := ""; _intro := ""; _isprimary := true;
     _label := ""; _line := ""; _open := true |}.

(** [key.replace('__',' -> ').replace('_', ' ')] *)
Definition readable (key : string) : string :=
  str_replace "_" " " (str_replace "__" " -> " key).

(** [setFullName(self, fullname, isprimary)] *)
Definition setFullName (self : KeyMapEditDialog) (w : World)
    (fullname : string) (isprimary : bool) : res KeyMapEditDialog :=
  let tmp := readable fullname in
  let primSec := if isprimary then "primary" else "secondary" in
  let intro := "Set the " +:+ primSec +:+ " shortcut for:" +:+ String LF tmp in
  let self := {| _fullname := fullname; _intro := intro; _isprimary := isprimary;
                 _label := intro; _line := _line self; _open := _open self |} in
  (* set initial value *)
  if dict_in (config_shortcuts w) fullname then
    (current <- dict_getitem (config_shortcuts w) fullname ;;
     let current := if str_contains "," current then current
                    else current +:+ "," in
     let current := str_split "," current in
     text <- getitem current (if isprimary then 0 else 1) ;;
     Ok (with_line text self))%res
  else Ok self.

(** [onClear(self)] *)
Definition onClear (self : KeyMapEditDialog) : KeyMapEditDialog :=
  with_line "" self.

(** The loop of [onEdit]: the warning for the first key of the
    configuration that holds the shortcut, [None] when the loop ends
    without a [break]. *)
Fixpoint onEdit_loop (w : World) (shortcut : string) (keys : list string)
    : res (option string) :=
  match keys with
  | [] => Ok None
  | key :: keys' =>
      (* get shortcut and test whether it corresponds with what's pressed *)
      (shortcuts <- getShortcut w (FullName key) ;;
       s0 <- getitem shortcuts 0 ;;
       primSec <-
         (if str_eqb (str_lower s0) (str_lower shortcut) then Ok "primary"
          else s1 <- getitem shortcuts 1 ;;
               if str_eqb (str_lower s1) (str_lower shortcut)
               then Ok "secondary" else Ok "") ;;
       (* if a correspondence, let the user know *)
       if negb (str_eqb primSec "") then
         Ok (Some ("WARNING: combo already in use " +:+
                   "as " +:+ primSec +:+ " shortcut for:" +:+ String LF "" +:+
                   readable key))
       else onEdit_loop w shortcut keys')%res
  end.

(** [onEdit(self)] *)
Definition onEdit (self : KeyMapEditDialog) (w : World) : res KeyMapEditDialog :=
  let shortcut := _line self in
  if str_eqb shortcut "" then Ok (with_label (_intro self) self)
  else
    (found <- onEdit_loop w shortcut (dict_keys (config_shortcuts w)) ;;
     match found with
     | Some tmp =>
         Ok (with_label (_intro self +:+ String LF (String LF "") +:+ tmp) self)
     | None => Ok (with_label (_intro self) self)
     end)%res.

(** The body of the first loop of [onAccept], for one key. *)
Definition onAccept_remove (shortcut : string) (key : string) : M unit :=
  ((* get shortcut, test whether it corresponds with what's pressed *)
   shortcuts <- reads (fun w => getShortcut w (FullName key)) ;;
   let tmp := shortcuts in
   s0 <- lift (getitem shortcuts 0) ;;
   let match0 := str_eqb (str_lower s0) (str_lower shortcut) in
   tmp <- (if match0 then lift (setitem tmp 0 "") else ret tmp) ;;
   s1 <- lift (getitem shortcuts 1) ;;
   let match1 := str_eqb (str_lower s1) (str_lower shortcut) in
   tmp <- (if match1 then lift (setitem tmp 1 "") else ret tmp) ;;
   let needUpdate := match0 || match1 in
   if needUpdate then
     let tmp := str_join "," tmp in
     let tmp := str_replace " " "" tmp in
     cfg <- gets config_shortcuts ;;
     if decide (String.length tmp = 1) then
       if dict_in cfg key then modify (with_shortcuts (dict_del cfg key))
       else raise KeyError
     else modify (with_shortcuts (dict_set cfg key tmp))
   else ret tt)%M.

(** [onAccept(self)] *)
Definition onAccept (self : KeyMapEditDialog) : M KeyMapEditDialog :=
  (let shortcut := _line self in
   (* remove shortcut if present elsewhere *)
   keys <- gets (fun w => dict_keys (config_shortcuts w)) ;; (* copy *)
   forM_ keys (onAccept_remove shortcut) ;;
   (* insert shortcut *)
   (if negb (str_eqb (_fullname self) "") then
      (* get current and make list of size two *)
      cfg <- gets config_shortcuts ;;
      current <- (if dict_in cfg (_fullname self)
                  then reads (fun w => getShortcut w (FullName (_fullname self)))
                  else ret [""; ""]) ;;
      (* update the list *)
      current <- lift (setitem current (if _isprimary self then 0 else 1) shortcut) ;;
      cfg <- gets config_shortcuts ;;
      modify (with_shortcuts (dict_set cfg (_fullname self) (str_join "," current)))
    else ret tt) ;;
   (* close *)
   ret {| _fullname := _fullname self; _intro := _intro self;
          _isprimary := _isprimary self; _label := _label self;
          _line := _line self; _open := false |})%M.

End KeyMapEditDialog.

(** * Properties

    The definitions the statements below are written with. *)

(** An empty application with the given shortcut configuration. *)
Definition config_world (cfg : dict string) : World :=
  {| config_shortcuts := cfg; actions := []; menus := [];
     keyMappingChanged := []; connections := [];
     menuBar_actions := []; menuBar_menus := None;
     env := {| config_view := []; config_settings := []; shellConfigs := [];
               styleKeys := []; defaultQtStyleName := ""; toolInfo := [] |} |}.

(** The tuple [getShortcut] makes of a stored value, and the tuple it
    returns for a name. *)
Definition tuple_of (v : string) : list string :=
  if decide (str_count "," v = 0) then [v; ""] else str_split "," v.

Definition shortcut_tuple (cfg : dict string) (k : string) : list string :=
  match dict_get cfg k with
  | Some v => tuple_of v
  | None => [""; ""]
  end.

(** [key] has [shortcut], compared without case, as its primary or
    secondary shortcut. *)
Definition holds_shortcut (w : World) (shortcut key : string) : Prop :=
  exists p0 p1 rest,
    getShortcut w (FullName key) = Ok (p0 :: p1 :: rest) /\
    (str_lower p0 = str_lower shortcut \/ str_lower p1 = str_lower shortcut).



(** The first loop of [onAccept] on one tuple: does it hold the
    shortcut, and the tuple with the shortcut blanked out. *)
Definition matches (shortcut : string) (tuple : list string) : bool :=
  match tuple with
  | p0 :: p1 :: _ =>
      str_eqb (str_lower p0) (str_lower shortcut)
      || str_eqb (str_lower p1) (str_lower shortcut)
  | _ => false
  end.

Definition blank_matches (shortcut : string) (tuple : list string) : list string :=
  match tuple with
  | p0 :: p1 :: rest =>
      (if str_eqb (str_lower p0) (str_lower shortcut) then "" else p0)
      :: (if str_eqb (str_lower p1) (str_lower shortcut) then "" else p1)
      :: rest
  | _ => tuple
  end.

(** What the first loop of [onAccept] leaves of a stored value: [None]
    when the key is deleted. *)
Definition value_after (shortcut v : string) : option string :=
  let t := tuple_of v in
  if matches shortcut t then
    let tmp := str_replace " " "" (str_join "," (blank_matches shortcut t)) in
    if decide (String.length tmp = 1) then None else Some tmp
  else Some v.

(** What is expected of [onAccept]: it returns, no other key holds the
    entered shortcut afterwards, and the edited key has it at the edited
    position. *)
Definition accept_claim (self : KeyMapEditDialog) (w : World) : Prop :=
  exists self' w',
    KeyMapEditDialog.onAccept self w = Ok (self', w') /\
    (forall key, key <> _fullname self ->
       In key (dict_keys (config_shortcuts w')) ->
       ~ holds_shortcut w' (_line self) key) /\
    (exists tuple,
       getShortcut w' (FullName (_fullname self)) = Ok tuple /\
       tuple !! (if _isprimary self then 0 else 1) = Some (_line self)).

(** The dialog for the primary shortcut of [fullname], holding [line]. *)
Definition dialog_for (fullname line : string) (isprimary : bool) : KeyMapEditDialog :=
  {| _fullname := fullname; _intro := ""; _isprimary := isprimary;
     _label := ""; _line := line; _open := true |}.

(** What is expected of [unwrapText]: no carriage return in the result,
    and a newline in it exactly when the text has a carriage return. *)
Definition unwrap_claim (text : string) : Prop :=
  str_contains CR (unwrapText text) = false /\
  (str_contains LF (unwrapText text) = true <-> str_contains CR text = true).

(** A decimal integer, as a component of a version: digits, at least one. *)
Fixpoint all_digits (s : string) : bool :=
  match s with
  | EmptyString => true
  | String c r => isdigit c && all_digits r
  end.

Definition is_decimal (c : string) : bool :=
  negb (str_eqb c "") && all_digits c.

(** The number a component stands for. *)
Definition component_value (c : string) : Z :=
  match int_of_str c with Some n => n | None => 0%Z end.

(** A component of a numeric version: [int] reads it, as a number from
    0 to 99999.  Every string of digits with such a value is one. *)
Definition numeric_component (c : string) : Prop :=
  exists n, int_of_str c = Some n /\ (0 <= n < 100000)%Z.

(** Comparison of two versions component by component, as Python
    compares tuples of integers. *)
Fixpoint version_compare (a b : list Z) : comparison :=
  match a, b with
  | [], [] => Eq
  | [], _ :: _ => Lt
  | _ :: _, [] => Gt
  | x :: a', y :: b' =>
      match (x ?= y)%Z with
      | Eq => version_compare a' b'
      | o => o
      end
  end.

(** What [expandVersion] makes of one component. *)
Definition expand_part (ver : string) : string :=
  match int_of_str ver with
  | Some n => format_05i n
  | None => ver
  end.

(** The value of a string of digits, read from the left. *)
Fixpoint dec_value (acc : N) (s : string) : N :=
  match s with
  | EmptyString => acc
  | String c r => dec_value (10 * acc + (ord c - 48)) r
  end.

(** The five digits of a number below 100000. *)
Definition five (n : N) : string :=
  String (digit_char (n / 10000 mod 10))
    (String (digit_char (n / 1000 mod 10))
       (String (digit_char (n / 100 mod 10))
          (String (digit_char (n / 10 mod 10))
             (String (digit_char (n mod 10)) "")))).

Definition props_text (properties : Properties) : string :=
  match properties with
  | PText text => text
  | PIconText _ text => text
  end.

(** What [KeyMapper.setShortcut] binds an action to, under a configuration. *)
Definition bound_shortcuts (cfg : dict string) (menuPath : string)
    (before : list string) : list string :=
  match dict_get cfg menuPath with
  | Some v => str_split "," v
  | None => before
  end.

(** [m'] is [m] but for its actions and its groups. *)
Definition same_menu (m m' : QMenu) : Prop :=
  m_title m' = m_title m /\ m_parent m' = m_parent m /\
  m_menuAction m' = m_menuAction m /\ m_menuPath m' = m_menuPath m /\
  m_attrs m' = m_attrs m.

(** The groups of [m'] are those of [m], with the action [a] added to
    some of them. *)
Definition groups_extend (a : action_id) (m m' : QMenu) : Prop :=
  (forall g, is_Some (vdict_get (m_groups m) g) ->
             is_Some (vdict_get (m_groups m') g)) /\
  (forall g grp v b,
      vdict_get (m_groups m') g = Some grp ->
      vdict_get (g_actions grp) v = Some b ->
      b = a \/ exists grp0, vdict_get (m_groups m) g = Some grp0 /\
                           vdict_get (g_actions grp0) v = Some b).

(** The worlds agree but for the actions, the menus and the slots. *)
Definition same_app (w w' : World) : Prop :=
  env w' = env w /\ config_shortcuts w' = config_shortcuts w /\
  menuBar_actions w' = menuBar_actions w /\ menuBar_menus w' = menuBar_menus w /\
  connections w' = connections w.

(** In [w1] the action [a] has been added to the menu [self] of [w],
    and is not yet bound to a shortcut. *)
Definition pending (self : menu_id) (text : string) (w : World)
    (a : action_id) (w1 : World) : Prop :=
  a = length (actions w) /\ same_app w w1 /\
  keyMappingChanged w1 = keyMappingChanged w /\
  (exists act, actions w1 = actions w ++ [act] /\
     a_text act = text /\ a_parent act = Some self /\ a_menu act = None /\
     a_menuPath act = None /\ a_shortcuts act = []) /\
  (exists m m', menus w !! self = Some m /\ menus w1 = <[self := m']> (menus w) /\
     same_menu m m' /\ groups_extend a m m' /\
     m_actions m' = m_actions m ++ [a]).

(** In [w'] the action [a] has been added to the menu [self] of [w] and
    bound to its shortcut. *)
Definition item_added (self : menu_id) (text : string) (w : World)
    (a : action_id) (w' : World) : Prop :=
  a = length (actions w) /\ same_app w w' /\
  keyMappingChanged w' = keyMappingChanged w ++ [a] /\
  (exists m m', menus w !! self = Some m /\ menus w' = <[self := m']> (menus w) /\
     same_menu m m' /\ groups_extend a m m' /\
     m_actions m' = m_actions m ++ [a] /\
     exists act name, actions w' = actions w ++ [act] /\
       a_text act = text /\ a_parent act = Some self /\ a_menu act = None /\
       Menu._createMenuPathName text = Ok name /\
       a_menuPath act = Some (m_menuPath m +:+ "__" +:+ name) /\
       a_shortcuts act =
         bound_shortcuts (config_shortcuts w) (m_menuPath m +:+ "__" +:+ name) []).

(** Every slot of [keyMappingChanged] is for an action that exists and
    has its [menuPath]. *)
Definition slots_ok (w : World) : Prop :=
  forall a, In a (keyMappingChanged w) ->
    exists act p, actions w !! a = Some act /\ a_menuPath act = Some p.

(** The action as [KeyMapper.setShortcut] leaves it. *)
Definition rebind (cfg : dict string) (act : QAction) : QAction :=
  match a_menuPath act with
  | Some p =>
      match dict_get cfg p with
      | Some v => a_with_shortcuts (str_split "," v) act
      | None => act
      end
  | None => act
  end.

(** The worlds agree but for the actions. *)
Definition same_but_actions (w w' : World) : Prop :=
  same_app w w' /\ menus w' = menus w /\
  keyMappingChanged w' = keyMappingChanged w.

(** The action [a], added to the menu [self] of [w], is bound to its
    shortcut in [w'], and a later emission of the signal finds it. *)
Definition shortcut_bound (self : menu_id) (text : string) (w : World)
    (a : action_id) (w' : World) : Prop :=
  item_added self text w a w' /\ In a (keyMappingChanged w') /\ slots_ok w'.

(** An emission of [keyMappingChanged] binds every connected action to
    what the configuration holds for its [menuPath] at that time. *)
Definition emission_rebinds (w : World) : Prop :=
  exists w',
    KeyMapper.keyMappingChanged_emit w = Ok (tt, w') /\
    config_shortcuts w' = config_shortcuts w /\
    forall a act p,
      In a (keyMappingChanged w) -> actions w !! a = Some act ->
      a_menuPath act = Some p ->
      exists act', actions w' !! a = Some act' /\
        a_menuPath act' = Some p /\
        a_shortcuts act' = bound_shortcuts (config_shortcuts w) p (a_shortcuts act).

(** The actions named by [l] exist. *)
Definition valid_ids (w : World) (l : list action_id) : Prop :=
  Forall (fun a => a < length (actions w)) l.

(** The menu [self] exists, has the attributes [attrs], and the actions
    its attributes and groups name exist. *)
Definition menu_ready (attrs : list string) (self : menu_id) (w : World) : Prop :=
  exists mo, menus w !! self = Some mo /\
    (forall k, In k attrs -> is_Some (dict_get (m_attrs mo) k)) /\
    (forall k l, dict_get (m_attrs mo) k = Some l -> valid_ids w l) /\
    (forall g grp v a, vdict_get (m_groups mo) g = Some grp ->
        vdict_get (g_actions grp) v = Some a -> a < length (actions w)).

(** From [w] to [w'] only the menu [self] and the actions changed, and
    the menu kept its title, its action, its path and its groups. *)
Definition ext (self : menu_id) (w w' : World) : Prop :=
  env w' = env w /\ config_shortcuts w' = config_shortcuts w /\
  menuBar_actions w' = menuBar_actions w /\ menuBar_menus w' = menuBar_menus w /\
  length (actions w) <= length (actions w') /\
  (forall i m, i <> self -> menus w !! i = Some m -> menus w' !! i = Some m) /\
  (forall m, menus w !! self = Some m ->
     exists m', menus w' !! self = Some m' /\ m_title m' = m_title m /\
       m_menuAction m' = m_menuAction m /\ m_menuPath m' = m_menuPath m /\
       (forall g, is_Some (vdict_get (m_groups m) g) ->
                  is_Some (vdict_get (m_groups m') g))).

(** A fact about the world that such changes do not undo. *)
Definition stable (self : menu_id) (F : World -> Prop) : Prop :=
  forall w w', ext self w w' -> F w -> F w'.

(** In the environment [e], on a ready menu [self] and under the fact
    [F], the computation [m] returns, leaves the menu ready, changes
    only what [ext] allows, and establishes [Q]. *)
Definition spec (e : Env) (attrs : list string) (self : menu_id) {A : Type}
    (F : World -> Prop) (m : M A) (Q : A -> World -> Prop) : Prop :=
  forall w, env w = e -> menu_ready attrs self w -> F w ->
    exists a w', m w = Ok (a, w') /\ menu_ready attrs self w' /\
                 ext self w w' /\ Q a w'.

(** The menu [self] has a group for [g]. *)
Definition has_group (self : menu_id) (g : Value) (w : World) : Prop :=
  exists mo, menus w !! self = Some mo /\ is_Some (vdict_get (m_groups mo) g).

(** From [w] to [w'] the menus that existed are as they were. *)
Definition grows (w w' : World) : Prop :=
  env w' = env w /\ config_shortcuts w' = config_shortcuts w /\
  menuBar_actions w' = menuBar_actions w /\ menuBar_menus w' = menuBar_menus w /\
  length (actions w) <= length (actions w') /\
  (forall i m, menus w !! i = Some m -> menus w' !! i = Some m).

(** In the environment [e] and under [F], [m] returns a new menu with
    the title [name], whatever the world. *)
Definition creates (e : Env) (F : World -> Prop) (m : M menu_id) (name : string)
    : Prop :=
  forall w, env w = e -> F w ->
    exists self w', m w = Ok (self, w') /\ self = length (menus w) /\
      grows w w' /\
      exists mo, menus w' !! self = Some mo /\ m_title mo = name.

(** The title of a style in the Qt theme menu. *)
Definition style_title (default styleName : string) : string :=
  if str_eqb (str_lower styleName) (str_lower default)
  then styleName +:+ " (default)" else styleName.

(** What [buildMenus] needs of the application: the settings its menus
    read, and styles whose titles give a path name. *)
Definition env_ok (e : Env) : Prop :=
  is_Some (dict_get (config_view e) "edgeColumn") /\
  (exists s, dict_get (config_view e) "qtstyle" = Some (VStr s)) /\
  is_Some (dict_get (config_settings e) "autoIndent") /\
  is_Some (dict_get (config_settings e) "autoComplete") /\
  is_Some (dict_get (config_settings e) "autoComplete_keywords") /\
  Forall (fun k => exists p,
            Menu._createMenuPathName (style_title (defaultQtStyleName e) k) = Ok p)
         (styleKeys e).

(** The menu [m] of [w] has the title [title]; its action is [a]. *)
Definition titled (w : World) (m : menu_id) (title : string) : Prop :=
  exists mo, menus w !! m = Some mo /\ m_title mo = title.

Definition menu_action (w : World) (m : menu_id) (a : action_id) : Prop :=
  exists mo, menus w !! m = Some mo /\ m_menuAction mo = a.

(** What [buildMenus] does: it returns; the menus [ms] it made are new,
    eight, with the eight titles in order; their actions [acts] were
    added to the menu bar, in order; and [ms] is the list kept in
    [menuBar._menus]. *)
Definition builds_eight_menus (w : World) : Prop :=
  exists w' ms acts,
    buildMenus w = Ok (tt, w') /\
    Forall (fun m => menus w !! m = None) ms /\ NoDup ms /\
    Forall2 (titled w') ms
      ["File"; "Edit"; "View"; "Settings"; "Shell"; "Run"; "Tools"; "Help"] /\
    menuBar_actions w' = menuBar_actions w ++ acts /\
    Forall2 (menu_action w') ms acts /\
    menuBar_menus w' = Some ms.

(** The application when [buildMenus] is called: the settings the menus
    read, two shell configurations, two Qt styles, and a few shortcuts. *)
Definition start_env : Env :=
  {| config_view := [("edgeColumn", VInt 80); ("qtstyle", VStr "Cleanlooks+");
                     ("wrap", VBool false)];
     config_settings := [("autoIndent", VBool true); ("autoComplete", VBool true);
                         ("autoComplete_keywords", VBool false)];
     shellConfigs := ["python"; "pypy (fast)"];
     styleKeys := ["Windows"; "Plastique"];
     defaultQtStyleName := "plastique";
     toolInfo := [("Source structure", true); ("File browser", false)] |}.

Definition start_app : World :=
  {| config_shortcuts := [("file__new", "Ctrl+N");
                          ("edit__copy", "Ctrl+C,Ctrl+Insert")];
     actions := []; menus := []; keyMappingChanged := []; connections := [];
     menuBar_actions := []; menuBar_menus := None; env := start_env |}.

(** An Edit menu with one item, Copy, bound to its two shortcuts. *)
Definition copy_action : QAction :=
  a_with_shortcuts ["Ctrl+C"; "Ctrl+Insert"]
    (a_with_menuPath "edit__copy" (plain_action "Copy" (Some 0))).

Definition edit_menu_app : World :=
  {| config_shortcuts := [("edit__copy", "Ctrl+C,Ctrl+Insert");
                          ("edit__paste", "Ctrl+V")];
     actions := [ {| a_text := "Edit"; a_parent := Some 0; a_menu := Some 0;
                     a_separator := false; a_menuPath := None; a_shortcuts := [];
                     a_checkable := false; a_checked := false; a_enabled := true;
                     a_triggered := []; a_toggled := [] |};
                  copy_action ];
     menus := [ {| m_title := "Edit"; m_parent := MenuBarW; m_menuAction := 0;
                   m_actions := [1]; m_menuPath := "edit"; m_groups := [];
                   m_attrs := [] |} ];
     keyMappingChanged := [1]; connections := [];
     menuBar_actions := [0]; menuBar_menus := Some [0];
     env := start_env |}.

(** ** Definitions for the further properties *)

(** Every character of [s] passes [p]. *)
Fixpoint str_forall (p : ascii -> bool) (s : string) : bool :=
  match s with
  | EmptyString => true
  | String c r => p c && str_forall p r
  end.

(** The characters a path name is made of: the small letters, the
    digits, the underscore, and the five other characters between [Z]
    and [a] that the class of the source lets through. *)
Definition path_char (c : ascii) : bool :=
  in_range 97 122 c || in_range 48 57 c || in_range 91 96 c.

(** A text whose path name is the same wherever it stands in a full
    name: no opening bracket, and a first character that is neither a
    digit, nor an underscore, nor a space. *)
Definition plain_text (t : string) : bool :=
  negb (str_contains "(" t) &&
  match t with
  | EmptyString => false
  | String c _ => negb (str_contains c "0123456789_ ")
  end.

(** The menu [m] and the menus above it have plain titles, and each has
    the [menuPath] that [Menu.__init__] gives it; [fuel] bounds the
    number of menus from [m] to the top. *)
Fixpoint well_named (fuel : nat) (w : World) (m : menu_id) : bool :=
  match fuel with
  | O => false
  | S fuel' =>
      match menus w !! m with
      | None => false
      | Some mo =>
          plain_text (m_title mo) &&
          match Menu._createMenuPathName (m_title mo), m_parent mo with
          | Ok c, MenuW p =>
              match menus w !! p with
              | Some pm =>
                  well_named fuel' w p &&
                  str_eqb (m_menuPath mo) (m_menuPath pm +:+ "__" +:+ c)
              | None => false
              end
          | Ok c, _ => str_eqb (m_menuPath mo) c
          | Raise _, _ => false
          end
      end
  end.

(** The dialog once [onAccept] has closed it. *)
Definition closed (self : KeyMapEditDialog) : KeyMapEditDialog :=
  {| _fullname := _fullname self; _intro := _intro self;
     _isprimary := _isprimary self; _label := _label self;
     _line := _line self; _open := false |}.

(** The position of the shortcut a dialog edits. *)
Definition edited_position (self : KeyMapEditDialog) : nat :=
  if _isprimary self then 0 else 1.

(** The warning [onEdit] shows for [key]. *)
Definition in_use_warning (primSec key : string) : string :=
  "WARNING: combo already in use " +:+
  "as " +:+ primSec +:+ " shortcut for:" +:+ String LF "" +:+
  KeyMapEditDialog.readable key.

(** Which of its two shortcuts a tuple holds [shortcut] as: the primary
    one is looked at first. *)
Definition held_as (shortcut : string) (tuple : list string) : string :=
  match tuple with
  | p0 :: p1 :: _ =>
      if str_eqb (str_lower p0) (str_lower shortcut) then "primary"
      else if str_eqb (str_lower p1) (str_lower shortcut) then "secondary"
      else ""
  | _ => ""
  end.

(** The world in which the menu [self] has become [m'] and [act] is a
    new action, the last of the store. *)
Definition with_new_action (self : menu_id) (m' : QMenu) (act : QAction)
    (w : World) : World :=
  with_menus (<[self := m']> (menus w)) (with_actions (actions w ++ [act]) w).

(** The action as [_connectActionShortcut] leaves it: with its
    [menuPath], and bound to what the configuration holds for it. *)
Definition connected (cfg : dict string) (menuPath : string) (act : QAction)
    : QAction :=
  rebind cfg (a_with_menuPath menuPath act).

(** The world in which the slot of the last action is connected to
    [keyMappingChanged]. *)
Definition with_slot (w0 w : World) : World :=
  with_keyMappingChanged (keyMappingChanged w0 ++ [length (actions w0)]) w.

(** The slot [addItem] connects to [triggered], the one [addCheckItem]
    connects to [triggered], and the one [addGroupItem] connects to
    [toggled]. *)
Definition item_slot (callback : option Callback) (value : Value) : list Slot :=
  match callback with
  | Some cb => [match value with VNone => Call cb | _ => CallValue cb value end]
  | None => []
  end.

Definition check_slot (callback : option Callback) (value : Value) : list Slot :=
  match callback with
  | Some cb => [match value with VNone => CallState cb | _ => CallStateValue cb value end]
  | None => []
  end.

Definition group_slot (callback : option Callback) (value : Value) : list Slot :=
  match callback with
  | Some cb => [CallIfChecked cb value]
  | None => []
  end.

(** The groups of a menu once [addGroupItem] has put the action [a] in
    [group] under [value]. *)
Definition group_of (groups : vdict Group) (group : Value) : Group :=
  match vdict_get groups group with
  | Some g => g
  | None => {| g_members := []; g_actions := [] |}
  end.

Definition groups_with (groups : vdict Group) (group value : Value)
    (a : action_id) : vdict Group :=
  vdict_set groups group
    {| g_members := g_members (group_of groups group) ++ [a];
       g_actions := vdict_set (g_actions (group_of groups group)) value a |}.

(** From [w] to [w'] one action, [act], was added to the store and to
    the end of the menu [self]; the attributes of the menu, and the
    application around it, are as they were. *)
Definition item_step (self : menu_id) (w w' : World) (act : QAction) : Prop :=
  actions w' = actions w ++ [act] /\
  env w' = env w /\ config_shortcuts w' = config_shortcuts w /\
  exists m m', menus w !! self = Some m /\ menus w' = <[self := m']> (menus w) /\
    m_actions m' = m_actions m ++ [length (actions w)] /\
    m_attrs m' = m_attrs m.

(** The actions of a menu once those of [old] are removed, one after the
    other. *)
Definition without (old : list action_id) (l : list action_id) : list action_id :=
  foldl (fun l a => remove_first a l) l old.

(** A Tools menu as [ToolsMenu] makes it, before any tool is listed, in
    an application with two tools. *)
Definition tools_menu_app : World :=
  {| config_shortcuts := [("tools__file_browser", "Ctrl+B")];
     actions := [ {| a_text := "Tools"; a_parent := Some 0; a_menu := Some 0;
                     a_separator := false; a_menuPath := None; a_shortcuts := [];
                     a_checkable := false; a_checked := false; a_enabled := true;
                     a_triggered := []; a_toggled := [] |} ];
     menus := [ {| m_title := "Tools"; m_parent := MenuBarW; m_menuAction := 0;
                   m_actions := []; m_menuPath := "tools"; m_groups := [];
                   m_attrs := [("_toolActions", []); ("_shellCreateActions", []);
                               ("_items", [])] |} ];
     keyMappingChanged := []; connections := [];
     menuBar_actions := [0]; menuBar_menus := Some [0];
     env := start_env |}.

(** What [IndentationMenu.setEnabled] makes of one of its items. *)
Definition enabled_item (enabled : bool) (act : QAction) : QAction :=
  if enabled then a_with_enabled true act
  else if a_checkable act
       then a_with_checked false (a_with_enabled false act)
       else a_with_enabled false act.

(** The Edit menu of [edit_menu_app], keeping its one item in [_items]. *)
Definition items_menu : QMenu :=
  {| m_title := "Edit"; m_parent := MenuBarW; m_menuAction := 0;
     m_actions := [1]; m_menuPath := "edit"; m_groups := [];
     m_attrs := [("_items", [1])] |}.

Definition items_menu_app : World := with_menus [items_menu] edit_menu_app.

(** The menu a parent index stands for: the root menu for the invalid
    index, the menu the index points to otherwise. *)
Definition index_menu (self : KeyMapModel) (parent : QModelIndex) : option menu_id :=
  match parent with
  | InvalidIndex => _root self
  | Index _ _ (ItemMenu m) => Some m
  | Index _ _ (ItemAction _) => None
  end.

(** What the index of a child points to: the submenu the action opens,
    or the action itself. *)
Definition child_item (a : action_id) (act : QAction) : Item :=
  match a_menu act with
  | Some sub => ItemMenu sub
  | None => ItemAction a
  end.

(** No two spaces follow each other in [s]. *)
Fixpoint no_double_space (s : string) : bool :=
  match s with
  | EmptyString => true
  | String c r =>
      match r with
      | String d _ => negb (char_eqb c SPACE && char_eqb d SPACE) && no_double_space r
      | EmptyString => true
      end
  end.

(** A text [unwrapText] has nothing to do on: one line, no leading
    whitespace, single spaces. *)
Definition unwrapped (text : string) : bool :=
  negb (str_contains LF text) && negb (str_contains CR text) &&
  str_eqb (str_lstrip text) text && no_double_space text.

(** * Proofs *)

Lemma char_eqb_eq a b : char_eqb a b = true <-> a = b.
Proof. apply Ascii.eqb_eq. Qed.

Lemma char_eqb_refl a : char_eqb a a = true.
Proof. apply Ascii.eqb_refl. Qed.

Lemma char_eqb_neq a b : char_eqb a b = false <-> a <> b.
Proof. apply Ascii.eqb_neq. Qed.

Lemma str_eqb_eq a b : str_eqb a b = true <-> a = b.
Proof. apply String.eqb_eq. Qed.

Lemma str_eqb_neq a b : str_eqb a b = false <-> a <> b.
Proof. apply String.eqb_neq. Qed.

Lemma str_eqb_refl a : str_eqb a a = true.
Proof. apply String.eqb_refl. Qed.

Lemma str_lower_empty s : str_lower s = "" -> s = "".
Proof. destruct s; [done | discriminate]. Qed.

Lemma str_count_0 c s : str_count c s = 0 <-> str_contains c s = false.
Proof.
  induction s as [|d r IH]; simpl; [done|].
  destruct (char_eqb d c); simpl; [split; discriminate | exact IH].
Qed.

Lemma str_contains_app c a b :
  str_contains c (a +:+ b) = str_contains c a || str_contains c b.
Proof.
  induction a as [|d r IH]; simpl; [done|].
  by rewrite IH, orb_assoc.
Qed.

Lemma str_split_length c s : length (str_split c s) = S (str_count c s).
Proof.
  induction s as [|d r IH]; simpl; [done|].
  destruct (char_eqb d c); simpl; [by rewrite IH|].
  destruct (str_split c r); simpl in *; [discriminate | done].
Qed.

Lemma str_split_absent c s : str_contains c s = false -> str_split c s = [s].
Proof.
  induction s as [|d r IH]; simpl; [done|].
  destruct (char_eqb d c); simpl; [discriminate|].
  intros H. by rewrite (IH H).
Qed.

Lemma str_split_parts d c s :
  (d = c \/ str_contains d s = false) ->
  Forall (fun p => str_contains d p = false) (str_split c s).
Proof.
  induction s as [|x r IH]; simpl; intros H.
  - by repeat constructor.
  - destruct (char_eqb x c) eqn:E.
    + constructor; [done|]. apply IH.
      destruct H as [H|H]; [by left | right].
      by apply orb_false_elim in H as [_ H].
    + assert (Hx : char_eqb x d = false).
      { destruct H as [->|H]; [done | by apply orb_false_elim in H as [H _]]. }
      assert (IH' : Forall (fun p => str_contains d p = false) (str_split c r)).
      { apply IH. destruct H as [H|H]; [by left | right].
        by apply orb_false_elim in H as [_ H]. }
      destruct (str_split c r) as [|p ps].
      * repeat constructor. simpl. by rewrite Hx.
      * inversion IH'; subst. constructor; [|done]. simpl. by rewrite Hx.
Qed.

Lemma str_split_app c a b :
  str_contains c a = false ->
  str_split c (a +:+ String c b) = a :: str_split c b.
Proof.
  induction a as [|x r IH]; simpl; intros H.
  - by rewrite char_eqb_refl.
  - apply orb_false_elim in H as [Hx Hr]. rewrite Hx, (IH Hr). done.
Qed.

Lemma str_split_join c l :
  l <> [] -> Forall (fun p => str_contains c p = false) l ->
  str_split c (str_join (String c "") l) = l.
Proof.
  induction l as [|p ps IH]; [done|]. intros _ H.
  inversion H as [|? ? Hp Hps]; subst.
  destruct ps as [|q qs].
  - simpl. by apply str_split_absent.
  - change (str_join (String c "") (p :: q :: qs))
      with (p +:+ String c (str_join (String c "") (q :: qs))).
    rewrite str_split_app by done. f_equal. by apply IH.
Qed.

Lemma str_contains_join d c l :
  d <> c -> Forall (fun p => str_contains d p = false) l ->
  str_contains d (str_join (String c "") l) = false.
Proof.
  intros Hd. induction l as [|p ps IH]; intros H; [done|].
  inversion H as [|? ? Hp Hps]; subst.
  destruct ps as [|q qs]; [done|].
  change (str_join (String c "") (p :: q :: qs))
    with (p +:+ String c (str_join (String c "") (q :: qs))).
  rewrite str_contains_app, Hp. cbn [str_contains orb].
  rewrite (IH Hps). rewrite orb_false_r. apply char_eqb_neq. congruence.
Qed.

Lemma str_count_join_pos c p q l :
  str_count c (str_join (String c "") (p :: q :: l)) <> 0.
Proof.
  rewrite str_count_0.
  change (str_join (String c "") (p :: q :: l))
    with (p +:+ String c (str_join (String c "") (q :: l))).
  rewrite str_contains_app. cbn [str_contains]. rewrite char_eqb_refl.
  by rewrite orb_true_r.
Qed.

Lemma replace_from_absent c new s :
  str_contains c s = false -> replace_from (String c "") new 0 s = s.
Proof.
  induction s as [|x r IH]; simpl; [done|]. intros H.
  apply orb_false_elim in H as [Hx Hr].
  rewrite Ascii.eqb_sym in Hx. unfold char_eqb in *. rewrite Hx.
  by rewrite (IH Hr).
Qed.

Lemma str_replace_absent c new s :
  str_contains c s = false -> str_replace (String c "") new s = s.
Proof. apply replace_from_absent. Qed.

(** ** Dictionaries *)
Lemma dict_in_get {V} (d : dict V) k :
  dict_in d k = true <-> exists v, dict_get d k = Some v.
Proof.
  unfold dict_in. destruct (dict_get d k); split; eauto; try done.
  intros [? ?]; done.
Qed.

Lemma dict_get_keys {V} (d : dict V) k v :
  dict_get d k = Some v -> In k (dict_keys d).
Proof.
  induction d as [|[k' v'] d IH]; simpl; [done|].
  destruct (str_eqb k' k) eqn:E.
  - apply str_eqb_eq in E. auto.
  - auto.
Qed.

Lemma dict_keys_get {V} (d : dict V) k :
  In k (dict_keys d) -> exists v, dict_get d k = Some v.
Proof.
  induction d as [|[k' v'] d IH]; simpl; [done|].
  destruct (str_eqb k' k) eqn:E; [eauto|].
  intros [H|H]; [|auto]. apply str_eqb_neq in E. done.
Qed.

Lemma dict_get_set {V} (d : dict V) k v k' :
  dict_get (dict_set d k v) k' = if str_eqb k k' then Some v else dict_get d k'.
Proof.
  induction d as [|[k0 v0] d IH]; simpl.
  - done.
  - destruct (str_eqb k0 k) eqn:E; simpl.
    + apply str_eqb_eq in E. subst. by destruct (str_eqb k k').
    + rewrite IH. destruct (str_eqb k0 k') eqn:E'; [|done].
      apply str_eqb_eq in E'. subst.
      destruct (str_eqb k k') eqn:E2; [|done].
      apply str_eqb_eq in E2. subst. by rewrite str_eqb_refl in E.
Qed.

Lemma dict_set_same {V} (d : dict V) k v :
  dict_get d k = Some v -> dict_set d k v = d.
Proof.
  induction d as [|[k0 v0] d IH]; simpl; [done|].
  destruct (str_eqb k0 k); [congruence|]. intros H. by rewrite IH.
Qed.

Lemma dict_keys_del {V} (d : dict V) k k' :
  In k' (dict_keys (dict_del d k)) -> In k' (dict_keys d).
Proof.
  induction d as [|[k0 v0] d IH]; simpl; [done|].
  destruct (str_eqb k0 k); simpl; intuition.
Qed.

Lemma dict_get_del {V} (d : dict V) k k' :
  NoDup (dict_keys d) ->
  dict_get (dict_del d k) k' = if str_eqb k k' then None else dict_get d k'.
Proof.
  induction d as [|[k0 v0] d IH]; simpl; intros Hd.
  - by destruct (str_eqb k k').
  - apply NoDup_cons in Hd as [Hk0 Hd].
    destruct (str_eqb k0 k) eqn:E; simpl.
    + apply str_eqb_eq in E. subst.
      destruct (str_eqb k k') eqn:E'; [|done].
      apply str_eqb_eq in E'. subst.
      destruct (dict_get d k') eqn:G; [|done].
      apply dict_get_keys in G. exfalso. apply Hk0.
      by apply list_elem_of_In.
    + rewrite (IH Hd). destruct (str_eqb k0 k') eqn:E'; [|done].
      apply str_eqb_eq in E'. subst.
      destruct (str_eqb k k') eqn:E2; [|done].
      apply str_eqb_eq in E2. subst. by rewrite str_eqb_refl in E.
Qed.

Lemma dict_keys_set {V} (d : dict V) k v k' :
  In k' (dict_keys (dict_set d k v)) <-> k' = k \/ In k' (dict_keys d).
Proof.
  induction d as [|[k0 v0] d IH]; simpl.
  - intuition.
  - destruct (str_eqb k0 k) eqn:E; simpl.
    + apply str_eqb_eq in E. subst. intuition.
    + rewrite IH. intuition.
Qed.

Lemma NoDup_dict_set {V} (d : dict V) k v :
  NoDup (dict_keys d) -> NoDup (dict_keys (dict_set d k v)).
Proof.
  induction d as [|[k0 v0] d IH]; simpl; intros Hd.
  - repeat constructor. by intros ?%elem_of_nil.
  - apply NoDup_cons in Hd as [Hk0 Hd].
    destruct (str_eqb k0 k) eqn:E; simpl.
    + by apply NoDup_cons.
    + apply NoDup_cons. split; [|auto].
      rewrite list_elem_of_In, dict_keys_set. intros [->|H].
      * by rewrite str_eqb_refl in E.
      * by apply Hk0, list_elem_of_In.
Qed.

Lemma NoDup_dict_del {V} (d : dict V) k :
  NoDup (dict_keys d) -> NoDup (dict_keys (dict_del d k)).
Proof.
  induction d as [|[k0 v0] d IH]; simpl; intros Hd; [done|].
  apply NoDup_cons in Hd as [Hk0 Hd].
  destruct (str_eqb k0 k); simpl; [done|].
  apply NoDup_cons. split; [|auto].
  rewrite list_elem_of_In. intros H%dict_keys_del. by apply Hk0, list_elem_of_In.
Qed.

Lemma getShortcut_name w k :
  getShortcut w (FullName k) = Ok (shortcut_tuple (config_shortcuts w) k).
Proof.
  unfold getShortcut, shortcut_tuple, tuple_of, dict_in, dict_getitem. simpl.
  destruct (dict_get (config_shortcuts w) k); simpl; [|done].
  by destruct (decide _).
Qed.

Lemma shortcut_tuple_shape cfg k :
  exists p0 p1 rest, shortcut_tuple cfg k = p0 :: p1 :: rest.
Proof.
  unfold shortcut_tuple, tuple_of. destruct (dict_get cfg k) as [v|]; [|eauto].
  destruct (decide _) as [|Hn]; [eauto|].
  pose proof (str_split_length "," v) as Hl.
  destruct (str_split "," v) as [|p0 [|p1 rest]]; simpl in Hl; eauto; lia.
Qed.

Lemma str_length_app a b : String.length (a +:+ b) = String.length a + String.length b.
Proof. induction a as [|c a IH]; simpl; [done | by rewrite IH]. Qed.




(** C7.  [KeyMapper.setShortcut] on an action that has its [menuPath]
    returns and never changes the configuration; when the [menuPath] is
    not a key of the configuration nothing changes at all, and when it
    is a key only the shortcuts of this action change, to the stored
    string split at the commas. *)
Theorem setShortcut_frame (w : World) (action : action_id) (a : QAction) (key : string) :
  actions w !! action = Some a -> a_menuPath a = Some key ->
  exists w',
    KeyMapper.setShortcut action w = Ok (tt, w') /\
    config_shortcuts w' = config_shortcuts w /\
    match dict_get (config_shortcuts w) key with
    | None => w' = w
    | Some v =>
        w' = with_actions
               (<[action := a_with_shortcuts (str_split "," v) a]> (actions w)) w
    end.
Proof.
  intros Ha Hk.
  unfold KeyMapper.setShortcut, bind, get_action, reads, find_action, lift.
  rewrite Ha, Hk. cbn. unfold dict_in, dict_getitem.
  destruct (dict_get (config_shortcuts w) key) as [v|] eqn:G; cbn.
  - unfold setShortcuts, update_action, bind, get_action, reads, find_action, lift.
    rewrite Ha. cbn. eexists. split; [done|]. split; [done|].
    f_equal. rewrite list_insert_alter. apply list_alter_ext; [|done].
    intros x Hx. congruence.
  - eexists. split; [done|]. done.
Qed.

Lemma setShortcut_frame_witness :
  exists w',
    KeyMapper.setShortcut 1 edit_menu_app = Ok (tt, w') /\
    config_shortcuts w' = config_shortcuts edit_menu_app /\
    w' = with_actions
           (<[1 := a_with_shortcuts ["Ctrl+C"; "Ctrl+Insert"] copy_action]>
              (actions edit_menu_app)) edit_menu_app.
Proof.
  destruct (setShortcut_frame edit_menu_app 1 copy_action "edit__copy")
    as (w' & R & C & H); [reflexivity | reflexivity |].
  exists w'. split; [exact R|]. split; [exact C|]. exact H.
Defined.

(** C8.  [columnCount] is 3 for every parent index; [rowCount] is the
    number of actions of the root menu for the invalid index, and the
    number of actions of the menu the parent index holds otherwise. *)
Theorem rowCount_counts_actions (self : KeyMapModel) (w : World) (parent : QModelIndex) :
  KeyMapModel.columnCount self parent = 3 /\
  (forall root m,
      parent = InvalidIndex -> _root self = Some root -> menus w !! root = Some m ->
      KeyMapModel.rowCount self w parent = Ok (length (m_actions m))) /\
  (forall row column menu m,
      parent = Index row column (ItemMenu menu) -> menus w !! menu = Some m ->
      KeyMapModel.rowCount self w parent = Ok (length (m_actions m))).
Proof.
  split; [done|]. split.
  - intros root m -> Hr Hm. unfold KeyMapModel.rowCount, KeyMapModel.item_actions, find_menu.
    rewrite Hr. cbn. by rewrite Hm.
  - intros row column menu m -> Hm.
    unfold KeyMapModel.rowCount, KeyMapModel.item_actions, find_menu. by rewrite Hm.
Qed.

Lemma rowCount_counts_actions_witness :
  KeyMapModel.columnCount {| _root := Some 0 |} InvalidIndex = 3 /\
  KeyMapModel.rowCount {| _root := Some 0 |} edit_menu_app InvalidIndex = Ok 1 /\
  KeyMapModel.rowCount {| _root := Some 0 |} edit_menu_app (Index 0 0 (ItemMenu 0))
  = Ok 1.
Proof.
  destruct (rowCount_counts_actions {| _root := Some 0 |} edit_menu_app InvalidIndex)
    as (Hc & Hroot & _).
  destruct (rowCount_counts_actions {| _root := Some 0 |} edit_menu_app
              (Index 0 0 (ItemMenu 0))) as (_ & _ & Hsub).
  split; [exact Hc|]. split.
  - exact (Hroot 0 _ eq_refl eq_refl eq_refl).
  - exact (Hsub 0 0 0 _ eq_refl eq_refl).
Defined.

Lemma with_shortcuts_id w : with_shortcuts (config_shortcuts w) w = w.
Proof. by destruct w. Qed.

Lemma shortcut_tuple_get cfg k v :
  dict_get cfg k = Some v -> shortcut_tuple cfg k = tuple_of v.
Proof. unfold shortcut_tuple. by intros ->. Qed.

Lemma tuple_of_shape v : exists p0 p1 rest, tuple_of v = p0 :: p1 :: rest.
Proof.
  unfold tuple_of. destruct (decide _) as [|Hn]; [eauto|].
  pose proof (str_split_length "," v) as Hl.
  destruct (str_split "," v) as [|p0 [|p1 rest]]; simpl in Hl; eauto; lia.
Qed.

Lemma tuple_of_parts d v :
  (d = ","%char \/ str_contains d v = false) ->
  Forall (fun p => str_contains d p = false) (tuple_of v).
Proof.
  unfold tuple_of. intros H. destruct (decide _) as [E|E].
  - apply str_count_0 in E. repeat constructor.
    destruct H as [->|H]; done.
  - by apply str_split_parts.
Qed.

Lemma blank_matches_parts d s t :
  Forall (fun p => str_contains d p = false) t ->
  Forall (fun p => str_contains d p = false) (blank_matches s t).
Proof.
  destruct t as [|p0 [|p1 rest]]; simpl; try done.
  intros H. inversion H as [|? ? H0 H']; subst. inversion H' as [|? ? H1 H'']; subst.
  repeat constructor; try done; by destruct (str_eqb _ _).
Qed.

Lemma tuple_of_join t p0 p1 rest :
  t = p0 :: p1 :: rest ->
  Forall (fun p => str_contains "," p = false) t ->
  tuple_of (str_join "," t) = t.
Proof.
  intros -> H. unfold tuple_of. destruct (decide _) as [E|E].
  - by apply str_count_join_pos in E.
  - by apply str_split_join.
Qed.

(** One step of the first loop. *)
Lemma onAccept_remove_spec shortcut key w v :
  dict_get (config_shortcuts w) key = Some v ->
  KeyMapEditDialog.onAccept_remove shortcut key w =
    Ok (tt, with_shortcuts
              (match value_after shortcut v with
               | Some v' => dict_set (config_shortcuts w) key v'
               | None => dict_del (config_shortcuts w) key
               end) w).
Proof.
  intros G. unfold KeyMapEditDialog.onAccept_remove, value_after.
  unfold bind at 1. unfold reads, lift. rewrite getShortcut_name.
  rewrite (shortcut_tuple_get _ _ _ G).
  destruct (tuple_of_shape v) as (p0 & p1 & rest & Ht). rewrite Ht.
  cbn [getitem lookup list_lookup bind lift matches blank_matches].
  unfold bind, lift, ret, gets, modify, setitem. cbn [length].
  destruct (str_eqb (str_lower p0) (str_lower shortcut)) eqn:E0;
    destruct (str_eqb (str_lower p1) (str_lower shortcut)) eqn:E1;
    cbn [orb]; repeat (destruct (decide (_ < _)); [|simpl in *; lia]);
    cbn [insert list_insert].
  1-3: destruct (decide (String.length _ = 1)); [|done];
       unfold dict_in; by rewrite G.
  by rewrite (dict_set_same _ _ _ G), with_shortcuts_id.
Qed.

Lemma with_shortcuts_twice c1 c2 w :
  with_shortcuts c2 (with_shortcuts c1 w) = with_shortcuts c2 w.
Proof. done. Qed.

(** The whole first loop, key by key. *)
Lemma remove_loop_spec shortcut keys : forall cfg w,
  NoDup keys -> NoDup (dict_keys cfg) ->
  (forall k, k ∈ keys -> exists v, dict_get cfg k = Some v) ->
  exists cfg',
    forM_ keys (KeyMapEditDialog.onAccept_remove shortcut) (with_shortcuts cfg w)
      = Ok (tt, with_shortcuts cfg' w) /\
    NoDup (dict_keys cfg') /\
    forall k, dict_get cfg' k =
              if decide (k ∈ keys) then dict_get cfg k ≫= value_after shortcut
              else dict_get cfg k.
Proof.
  induction keys as [|key keys IH]; intros cfg w Hk Hd Hin.
  - exists cfg. split; [done|]. split; [done|]. intros k.
    destruct (decide _) as [H|]; [|done]. by apply elem_of_nil in H.
  - apply NoDup_cons in Hk as [Hkey Hk].
    destruct (Hin key) as [v G]; [by left|].
    cbn [forM_]. unfold bind at 1.
    rewrite (onAccept_remove_spec shortcut key (with_shortcuts cfg w) v) by done.
    cbn [config_shortcuts with_shortcuts]. rewrite with_shortcuts_twice.
    set (cfg1 := match value_after shortcut v with
                 | Some v' => dict_set cfg key v'
                 | None => dict_del cfg key
                 end).
    assert (Hget1 : forall k, dict_get cfg1 k =
              if str_eqb key k then value_after shortcut v else dict_get cfg k).
    { intros k. unfold cfg1. destruct (value_after shortcut v).
      - apply dict_get_set.
      - by apply dict_get_del. }
    assert (Hd1 : NoDup (dict_keys cfg1)).
    { unfold cfg1. destruct (value_after shortcut v);
        [by apply NoDup_dict_set | by apply NoDup_dict_del]. }
    destruct (IH cfg1 w Hk Hd1) as (cfg' & Hrun & Hd' & Hget').
    { intros k Hk'. rewrite Hget1.
      destruct (str_eqb key k) eqn:E.
      - apply str_eqb_eq in E. by subst.
      - apply Hin. by right. }
    exists cfg'. split; [done|]. split; [done|].
    intros k. rewrite Hget', Hget1.
    destruct (str_eqb key k) eqn:E.
    + apply str_eqb_eq in E. subst k.
      rewrite decide_False by done. rewrite decide_True by (by left).
      by rewrite G.
    + apply str_eqb_neq in E.
      destruct (decide (k ∈ keys)) as [Hc|Hc].
      * rewrite decide_True by (by right). done.
      * rewrite decide_False; [done|]. intros [?|?]%elem_of_cons; done.
Qed.

(** After the loop no stored value holds the shortcut. *)
Lemma value_after_free shortcut v v' :
  shortcut <> "" -> str_contains " " v = false ->
  value_after shortcut v = Some v' ->
  exists p0 p1 rest, tuple_of v' = p0 :: p1 :: rest /\
    str_lower p0 <> str_lower shortcut /\ str_lower p1 <> str_lower shortcut.
Proof.
  intros Hs Hsp. unfold value_after.
  destruct (tuple_of_shape v) as (p0 & p1 & rest & Ht).
  pose proof (tuple_of_parts "," v (or_introl eq_refl)) as Hcomma.
  pose proof (tuple_of_parts " " v (or_intror Hsp)) as Hspace.
  assert (Hne : str_lower "" <> str_lower shortcut).
  { intros H. symmetry in H. by apply str_lower_empty in H. }
  destruct (matches shortcut (tuple_of v)) eqn:M.
  - rewrite str_replace_absent.
    2:{ apply str_contains_join; [done|]. by apply blank_matches_parts. }
    destruct (decide _); [done|]. intros [= <-].
    rewrite Ht in *. cbn [blank_matches].
    erewrite tuple_of_join; [| reflexivity |].
    2:{ by apply (blank_matches_parts "," shortcut (p0 :: p1 :: rest)). }
    do 3 eexists. split; [done|].
    split.
    + destruct (str_eqb (str_lower p0) _) eqn:E; [done | by apply str_eqb_neq].
    + destruct (str_eqb (str_lower p1) _) eqn:E; [done | by apply str_eqb_neq].
  - intros [= <-]. rewrite Ht in *. exists p0, p1, rest. split; [done|].
    cbn [matches] in M. apply orb_false_elim in M as [M0 M1].
    by split; apply str_eqb_neq.
Qed.

Lemma bind_ok {A B} (m : M A) (f : A -> M B) w a w' :
  m w = Ok (a, w') -> bind m f w = f a w'.
Proof. unfold bind. by intros ->. Qed.

Lemma insert_tuple_parts (t : list string) i s p0 p1 rest :
  t = p0 :: p1 :: rest -> i < 2 ->
  Forall (fun p => str_contains "," p = false) t ->
  str_contains "," s = false ->
  exists q0 q1, <[i := s]> t = q0 :: q1 :: rest /\
    Forall (fun p => str_contains "," p = false) (q0 :: q1 :: rest) /\
    (q0 :: q1 :: rest) !! i = Some s.
Proof.
  intros -> Hi H Hs.
  inversion H as [|? ? H0 H']; subst. inversion H' as [|? ? H1 H'']; subst.
  destruct i as [|[|i]]; [| |lia]; cbn; do 2 eexists; split; try done;
    split; try done; repeat constructor; done.
Qed.

(** C1, amended.  For an edited key that is not empty, [onAccept]
    returns, and afterwards: when the entered shortcut is not empty and
    no stored value holds a space, no key other than the edited one has
    the shortcut (compared without case) as its primary or secondary
    shortcut; and when the entered shortcut has no comma (the empty one
    included), the edited key has it at the edited position. *)
Theorem onAccept_collision_free (self : KeyMapEditDialog) (w : World) :
  NoDup (dict_keys (config_shortcuts w)) ->
  _fullname self <> "" ->
  exists self' w',
    KeyMapEditDialog.onAccept self w = Ok (self', w') /\
    (_line self <> "" ->
     (forall k v, dict_get (config_shortcuts w) k = Some v ->
                  str_contains " " v = false) ->
     forall key, key <> _fullname self ->
       In key (dict_keys (config_shortcuts w')) ->
       ~ holds_shortcut w' (_line self) key) /\
    (str_contains "," (_line self) = false ->
     exists tuple,
       getShortcut w' (FullName (_fullname self)) = Ok tuple /\
       tuple !! (if _isprimary self then 0 else 1) = Some (_line self)).
Proof.
  intros Hd Hn.
  set (cfg := config_shortcuts w). set (s := _line self). set (n := _fullname self).
  destruct (remove_loop_spec s (dict_keys cfg) cfg w) as (cfg' & Hrun & Hd' & Hget); try done.
  { intros k Hk. apply dict_keys_get. by apply list_elem_of_In. }
  assert (Hget' : forall k, dict_get cfg' k = dict_get cfg k ≫= value_after s).
  { intros k. rewrite Hget. destruct (decide _) as [|Hk]; [done|].
    destruct (dict_get cfg k) eqn:G; [|done].
    exfalso. apply Hk, list_elem_of_In. by eapply dict_get_keys. }
  (* the list the new shortcut is written into *)
  set (current := if dict_in cfg' n then shortcut_tuple cfg' n else [""; ""]).
  assert (Hcur : exists p0 p1 rest, current = p0 :: p1 :: rest /\
             Forall (fun p => str_contains "," p = false) current).
  { unfold current, dict_in. destruct (dict_get cfg' n) as [v'|] eqn:G.
    - rewrite (shortcut_tuple_get _ _ _ G).
      destruct (tuple_of_shape v') as (p0 & p1 & rest & Ht).
      exists p0, p1, rest. split; [done|]. by apply tuple_of_parts; left.
    - exists "", "", []. split; [done|]. by repeat constructor. }
  destruct Hcur as (p0 & p1 & rest & Hcur & Hparts).
  set (i := if _isprimary self then 0 else 1).
  assert (Hi : i < 2) by (unfold i; destruct (_isprimary self); lia).
  set (cfg'' := dict_set cfg' n (str_join "," (<[i := s]> current))).
  assert (Hrun' : exists self', KeyMapEditDialog.onAccept self w
                                = Ok (self', with_shortcuts cfg'' w)).
  { unfold KeyMapEditDialog.onAccept. fold s n i.
    erewrite bind_ok by reflexivity.
    erewrite bind_ok.
    2:{ etrans; [|exact Hrun]. f_equal. symmetry. apply with_shortcuts_id. }
    apply str_eqb_neq in Hn. fold n in Hn. rewrite Hn. cbn [negb].
    erewrite bind_ok.
    2:{ erewrite bind_ok by reflexivity. cbn [config_shortcuts with_shortcuts].
        erewrite bind_ok.
        2:{ instantiate (1 := with_shortcuts cfg' w). instantiate (1 := current).
            unfold current. destruct (dict_in cfg' n); [|done].
            unfold reads, lift. by rewrite getShortcut_name. }
        erewrite bind_ok.
        2:{ unfold lift, setitem. rewrite Hcur. cbn [length].
            destruct (decide (i < _)) as [_|]; [|lia].
            rewrite <- Hcur. reflexivity. }
        erewrite bind_ok by reflexivity.
        cbn [config_shortcuts with_shortcuts]. reflexivity. }
    eexists. reflexivity. }
  destruct Hrun' as [self' Hrun'].
  exists self', (with_shortcuts cfg'' w). split; [done|].
  cbn [config_shortcuts with_shortcuts]. split.
  - intros Hs Hsp key Hkey Hin (r0 & r1 & rr & Hg & Hm).
    rewrite getShortcut_name in Hg. cbn [config_shortcuts with_shortcuts] in Hg.
    apply dict_keys_get in Hin as [v'' G].
    unfold cfg'' in G. rewrite dict_get_set in G.
    assert (E : str_eqb n key = false).
    { apply str_eqb_neq. intros E. by apply Hkey. }
    rewrite E in G. rewrite Hget' in G.
    destruct (dict_get cfg key) as [v|] eqn:G0; [|done]. cbn in G.
    destruct (value_after_free s v v'' Hs (Hsp _ _ G0) G) as (t0 & t1 & tr & Ht & H0 & H1).
    assert (G'' : dict_get cfg'' key = Some v'').
    { unfold cfg''. rewrite dict_get_set, E, Hget', G0. done. }
    rewrite (shortcut_tuple_get _ _ _ G''), Ht in Hg.
    injection Hg as <- <- <-. destruct Hm; done.
  - intros Hc.
    destruct (insert_tuple_parts current i s p0 p1 rest Hcur Hi Hparts Hc)
      as (q0 & q1 & Hins & Hparts' & Hat).
    exists (q0 :: q1 :: rest). split; [|done].
    rewrite getShortcut_name. cbn [config_shortcuts with_shortcuts]. fold n.
    assert (G'' : dict_get cfg'' n = Some (str_join "," (q0 :: q1 :: rest))).
    { unfold cfg''. by rewrite dict_get_set, str_eqb_refl, Hins. }
    rewrite (shortcut_tuple_get _ _ _ G'').
    f_equal. by eapply tuple_of_join.
Qed.

(** At a configuration without spaces and a shortcut without comma the
    two parts hold together. *)
Lemma onAccept_collision_free_witness :
  accept_claim (dialog_for "file__save" "Ctrl+S" true)
    (config_world [("file__new", "Ctrl+N"); ("file__save_as", "Ctrl+Shift+S,Ctrl+S")]).
Proof.
  destruct (onAccept_collision_free (dialog_for "file__save" "Ctrl+S" true)
              (config_world [("file__new", "Ctrl+N");
                             ("file__save_as", "Ctrl+Shift+S,Ctrl+S")]))
    as (self' & w' & Hrun & Hfree & Hpos).
  - apply (bool_decide_unpack _). vm_compute. exact I.
  - discriminate.
  - exists self', w'. split; [exact Hrun|]. split.
    + apply Hfree; [discriminate|].
      intros k v. cbn [dict_get config_world config_shortcuts].
      repeat (destruct (str_eqb _ k); [intros [= <-]; reflexivity|]).
      discriminate.
    + apply Hpos. reflexivity.
Defined.

(** C1 as stated fails for the empty shortcut, which the dialog holds
    after Clear: accepting it leaves "file__new" with the empty string
    as its secondary shortcut. *)
Lemma onAccept_empty_shortcut_collides :
  ~ accept_claim (dialog_for "file__save" "" true)
      (config_world [("file__new", "Ctrl+N")]).
Proof.
  intros (self' & w' & Hrun & Hfree & _).
  vm_compute in Hrun. injection Hrun as <- <-.
  apply (Hfree "file__new").
  - discriminate.
  - cbn. by left.
  - exists "Ctrl+N", "", []. split; [|by right]. reflexivity.
Qed.

(** The two other conditions cannot be dropped either.  A stored value
    with a space: blanking the secondary shortcut of "x y,xy" and taking
    the spaces out stores "xy,", which holds the entered shortcut. *)
Lemma onAccept_space_in_stored_value :
  ~ accept_claim (dialog_for "file__save" "xy" true)
      (config_world [("file__new", "x y,xy")]).
Proof.
  intros (self' & w' & Hrun & Hfree & _).
  vm_compute in Hrun. injection Hrun as <- <-.
  apply (Hfree "file__new").
  - discriminate.
  - cbn. by left.
  - exists "xy", "", []. split; [|by left]. reflexivity.
Qed.

(** An entered shortcut with a comma: "Ctrl+," is stored as "Ctrl+,,"
    and read back as the primary shortcut "Ctrl+". *)
Lemma onAccept_comma_in_shortcut :
  ~ accept_claim (dialog_for "file__save" "Ctrl+," true) (config_world []).
Proof.
  intros (self' & w' & Hrun & _ & tuple & Hg & Hat).
  vm_compute in Hrun. injection Hrun as <- <-.
  vm_compute in Hg. injection Hg as <-.
  discriminate Hat.
Qed.

Lemma str_app_cons x a b : String x a +:+ b = String x (a +:+ b).
Proof. reflexivity. Qed.

Lemma str_app_nil b : "" +:+ b = b.
Proof. reflexivity. Qed.

Lemma str_app_assoc a b c : (a +:+ b) +:+ c = a +:+ (b +:+ c).
Proof. induction a as [|x a IH]; [done|]. rewrite !str_app_cons. by f_equal. Qed.

Lemma strip_prefix_app p s rest :
  strip_prefix p s = Some rest -> s = p +:+ rest.
Proof.
  revert s. induction p as [|a p IH]; intros s; simpl.
  - by intros [= ->].
  - destruct s as [|b s]; [done|].
    destruct (char_eqb a b) eqn:E; [|done].
    apply char_eqb_eq in E. subst. intros H. by rewrite (IH _ H).
Qed.

Lemma replace_from_skip old new u : forall s rest,
  strip_prefix u s = Some rest ->
  replace_from old new (String.length u) s = replace_from old new 0 rest.
Proof.
  induction u as [|a u IH]; intros s rest; simpl.
  - by intros [= ->].
  - destruct s as [|b s]; [done|].
    destruct (char_eqb a b); [|done]. apply IH.
Qed.

Lemma replace_from_match old new c r rest :
  old <> "" -> strip_prefix old (String c r) = Some rest ->
  replace_from old new 0 (String c r) = new +:+ replace_from old new 0 rest.
Proof.
  intros Ho H. cbn [replace_from]. rewrite H. f_equal.
  destruct old as [|a u]; [done|].
  cbn [strip_prefix] in H. destruct (char_eqb a c); [|done].
  replace (String.length (String a u) - 1) with (String.length u)
    by (cbn [String.length]; lia).
  by apply replace_from_skip.
Qed.

Lemma replace_from_nomatch old new c r :
  strip_prefix old (String c r) = None ->
  replace_from old new 0 (String c r) = String c (replace_from old new 0 r).
Proof. intros H. cbn [replace_from]. by rewrite H. Qed.

(** Induction along the occurrences [str_replace] finds. *)
Lemma replace_from_ind old new (P : string -> string -> Prop) :
  old <> "" ->
  P "" "" ->
  (forall c r rest out,
      strip_prefix old (String c r) = Some rest -> P rest out ->
      P (String c r) (new +:+ out)) ->
  (forall c r out,
      strip_prefix old (String c r) = None -> P r out ->
      P (String c r) (String c out)) ->
  forall s, P s (replace_from old new 0 s).
Proof.
  intros Ho H0 Hm Hn s.
  remember (String.length s) as n eqn:Hlen.
  revert s Hlen. induction n as [n IH] using lt_wf_ind. intros s Hlen.
  destruct s as [|c r]; [done|].
  destruct (strip_prefix old (String c r)) as [rest|] eqn:E.
  - rewrite (replace_from_match _ _ _ _ _ Ho E). apply (Hm _ _ _ _ E).
    apply (IH (String.length rest)); [|done].
    apply strip_prefix_app in E. apply (f_equal String.length) in E.
    rewrite str_length_app in E. destruct old; [done|]. simpl in *. lia.
  - rewrite (replace_from_nomatch _ _ _ _ E). apply (Hn _ _ _ E).
    apply (IH (String.length r)); [simpl in Hlen; lia | done].
Qed.

(** A character that is in both or in neither of [old] and [new] is in
    the result exactly when it is in the string. *)
Lemma str_replace_contains x old new s :
  old <> "" -> str_contains x old = str_contains x new ->
  str_contains x (str_replace old new s) = str_contains x s.
Proof.
  intros Ho Hx. unfold str_replace. destruct old as [|a u] eqn:Eo; [done|].
  rewrite <- Eo in *. clear Eo a u.
  apply (replace_from_ind old new
           (fun s out => str_contains x out = str_contains x s)); try done.
  - intros c r rest out E IH. apply strip_prefix_app in E. rewrite E.
    by rewrite !str_contains_app, IH, Hx.
  - intros c r out _ IH. simpl. by rewrite IH.
Qed.

(** Replacing a character by a string without it removes it. *)
Lemma str_replace_removes c new s :
  str_contains c new = false ->
  str_contains c (str_replace (String c "") new s) = false.
Proof.
  intros Hn. unfold str_replace.
  apply (replace_from_ind (String c "") new
           (fun s out => str_contains c out = false)); try done.
  - intros d r rest out _ IH. by rewrite str_contains_app, Hn, IH.
  - intros d r out E IH. cbn [strip_prefix] in E. cbn [str_contains].
    rewrite IH, orb_false_r. unfold char_eqb in *.
    rewrite Ascii.eqb_sym. by destruct (Ascii.eqb c d).
Qed.

(** Replacing one character by another. *)
Lemma str_replace_char_contains c d s :
  str_contains d (str_replace (String c "") (String d "") s)
  = str_contains d s || str_contains c s.
Proof.
  unfold str_replace.
  apply (replace_from_ind (String c "") (String d "")
           (fun s out => str_contains d out = str_contains d s || str_contains c s));
    try done.
  - intros x r rest out E IH. cbn [strip_prefix] in E.
    destruct (char_eqb c x) eqn:Ex; [|done]. injection E as <-.
    apply char_eqb_eq in Ex. subst x. rewrite str_app_cons.
    cbn [str_contains]. rewrite !char_eqb_refl. cbn [orb].
    by rewrite orb_true_r.
  - intros x r out E IH. cbn [str_contains]. rewrite IH.
    cbn [strip_prefix] in E. destruct (char_eqb c x) eqn:Ex; [done|].
    assert (char_eqb x c = false) as ->.
    { apply char_eqb_neq. apply char_eqb_neq in Ex. congruence. }
    by destruct (char_eqb x d), (str_contains d r).
Qed.

Lemma str_lstrip_contains x s :
  str_contains x (str_lstrip s) = true -> str_contains x s = true.
Proof.
  induction s as [|c r IH]; [done|]. cbn [str_lstrip].
  destruct (isspace c); [|done]. intros H. cbn. by rewrite (IH H), orb_true_r.
Qed.

Lemma iter_replace_contains x old new n s :
  old <> "" -> str_contains x old = str_contains x new ->
  str_contains x (Nat.iter n (str_replace old new) s) = str_contains x s.
Proof.
  intros Ho Hx. induction n as [|n IH]; [done|].
  change (Nat.iter (S n) (str_replace old new) s)
    with (str_replace old new (Nat.iter n (str_replace old new) s)).
  by rewrite str_replace_contains.
Qed.

(** Removing the newlines and dropping the leading whitespace commute. *)
Lemma lstrip_remove_LF s :
  str_lstrip (str_replace (String LF "") "" s)
  = str_replace (String LF "") "" (str_lstrip s).
Proof.
  unfold str_replace. induction s as [|c r IH]; [done|].
  cbn [replace_from strip_prefix String.length Nat.sub].
  destruct (char_eqb LF c) eqn:E.
  - apply char_eqb_eq in E. subst c. cbn. exact IH.
  - cbn [str_lstrip]. destruct (isspace c) eqn:Ec; [exact IH|].
    cbn [replace_from strip_prefix String.length Nat.sub]. by rewrite E.
Qed.

(** C9, amended.  The result of [unwrapText] holds no carriage return,
    and it holds a newline exactly when the text without its leading
    whitespace holds a carriage return. *)
Theorem unwrapText_newlines (text : string) :
  str_contains CR (unwrapText text) = false /\
  str_contains LF (unwrapText text) = str_contains CR (str_lstrip text).
Proof.
  unfold unwrapText. split.
  - rewrite str_replace_contains by done. by apply str_replace_removes.
  - rewrite str_replace_contains by done.
    rewrite str_replace_char_contains.
    rewrite !iter_replace_contains by done.
    rewrite lstrip_remove_LF.
    rewrite (str_replace_contains CR) by done.
    destruct (str_contains LF _) eqn:E; [|done].
    exfalso. rewrite <- lstrip_remove_LF in E.
    apply str_lstrip_contains in E.
    rewrite str_replace_removes in E; done.
Qed.

(** C9 as stated fails for a text that starts with a carriage return:
    [lstrip] takes it off, and the result has no newline. *)
Lemma unwrapText_leading_CR : ~ unwrap_claim (String CR "abc").
Proof.
  intros [_ [_ H]]. specialize (H eq_refl). vm_compute in H. discriminate.
Qed.

Lemma expandVersion_map version :
  expandVersion version = str_join "." (map expand_part (str_split "." version)).
Proof.
  unfold expandVersion. f_equal.
  assert (H : forall l acc,
    foldl (fun parts ver => match int_of_str ver with
                            | Some n => parts ++ [format_05i n]
                            | None => parts ++ [ver]
                            end) acc l = acc ++ map expand_part l).
  { induction l as [|x l IH]; intros acc; cbn [foldl map].
    - by rewrite app_nil_r.
    - rewrite IH. unfold expand_part. destruct (int_of_str x);
        by rewrite <- app_assoc. }
  apply H.
Qed.

Lemma isdigit_not_space c : isdigit c = true -> int_space c = false.
Proof. destruct c as [[] [] [] [] [] [] [] []]; done. Qed.

Lemma int_digits_all_digits s : forall acc b,
  all_digits s = true -> s <> "" \/ b = true ->
  int_digits acc b s = Some (dec_value acc s).
Proof.
  induction s as [|c r IH]; intros acc b Hd Hb.
  - destruct Hb as [Hb|Hb]; [done | by subst].
  - cbn [all_digits] in Hd. apply andb_prop in Hd as [Hc Hr].
    cbn [int_digits dec_value]. rewrite Hc. apply IH; auto.
Qed.

Lemma int_of_str_decimal c :
  is_decimal c = true -> int_of_str c = Some (Z.of_N (dec_value 0 c)).
Proof.
  unfold is_decimal. intros H. apply andb_prop in H as [Hne Hd].
  destruct c as [|d r]; [done|].
  pose proof Hd as Hd'. cbn [all_digits] in Hd'. apply andb_prop in Hd' as [Hc _].
  unfold int_of_str. cbn [lstrip_int]. rewrite (isdigit_not_space _ Hc).
  destruct d as [[] [] [] [] [] [] [] []]; try discriminate Hc;
    (cbv beta iota;
     rewrite (int_digits_all_digits _ 0 false Hd) by (by left);
     reflexivity).
Qed.

(** Linear arithmetic with division and remainder by constants. *)
Ltac lia_div := zify; Z.to_euclidean_division_equations; lia.

Lemma digits_from_small f n acc :
  (n < 10)%N -> digits_from (S f) n acc = String (digit_char n) acc.
Proof.
  intros H. cbn [digits_from]. apply N.ltb_lt in H as H'. rewrite H'.
  by rewrite N.mod_small.
Qed.

Lemma digits_from_big f n acc :
  (10 <= n)%N ->
  digits_from (S f) n acc = digits_from f (n / 10) (String (digit_char (n mod 10)) acc).
Proof.
  intros H. cbn [digits_from]. apply N.ltb_ge in H as H'. by rewrite H'.
Qed.

Lemma fuel_for n k :
  (2 ^ N.of_nat k <= n)%N ->
  exists f, S (N.to_nat (N.log2 n)) = S (k + f).
Proof.
  intros H. apply N.log2_le_mono in H. rewrite N.log2_pow2 in H by lia.
  exists (N.to_nat (N.log2 n) - k). lia.
Qed.

Lemma format_05i_five n :
  (n < 100000)%N -> format_05i (Z.of_N n) = five n.
Proof.
  intros H. unfold format_05i.
  assert ((Z.of_N n <? 0)%Z = false) as -> by lia.
  replace (Z.abs_N (Z.of_N n)) with n by lia.
  unfold str_of_N, five.
  destruct (N.lt_ge_cases n 10) as [H1|H1].
  { rewrite digits_from_small by done.
    replace (n / 10000 mod 10)%N with 0%N by lia_div.
    replace (n / 1000 mod 10)%N with 0%N by lia_div.
    replace (n / 100 mod 10)%N with 0%N by lia_div.
    replace (n / 10 mod 10)%N with 0%N by lia_div.
    replace (n mod 10)%N with n by lia_div. reflexivity. }
  destruct (fuel_for n 3) as [f Hf3];
    [change (2 ^ N.of_nat 3)%N with 8%N; lia|].
  rewrite Hf3. cbn [Nat.add].
  rewrite digits_from_big by done.
  destruct (N.lt_ge_cases n 100) as [H2|H2].
  { rewrite digits_from_small by lia_div.
    replace (n / 10000 mod 10)%N with 0%N by lia_div.
    replace (n / 1000 mod 10)%N with 0%N by lia_div.
    replace (n / 100 mod 10)%N with 0%N by lia_div.
    replace (n / 10 mod 10)%N with (n / 10)%N by lia_div. reflexivity. }
  rewrite digits_from_big by lia_div.
  destruct (N.lt_ge_cases n 1000) as [H3|H3].
  { rewrite digits_from_small by lia_div.
    replace (n / 10000 mod 10)%N with 0%N by lia_div.
    replace (n / 1000 mod 10)%N with 0%N by lia_div.
    replace (n / 100 mod 10)%N with (n / 10 / 10)%N by lia_div.
    replace (n / 10 mod 10)%N with ((n / 10) mod 10)%N by lia_div. reflexivity. }
  destruct (fuel_for n 9) as [f' Hf];
    [change (2 ^ N.of_nat 9)%N with 512%N; lia|].
  assert (f = 6 + f') as -> by lia.
  cbn [Nat.add].
  rewrite digits_from_big by lia_div.
  destruct (N.lt_ge_cases n 10000) as [H4|H4].
  { rewrite digits_from_small by lia_div.
    replace (n / 10000 mod 10)%N with 0%N by lia_div.
    replace (n / 1000 mod 10)%N with (n / 10 / 10 / 10)%N by lia_div.
    replace (n / 100 mod 10)%N with ((n / 10 / 10) mod 10)%N by lia_div.
    reflexivity. }
  rewrite digits_from_big by lia_div.
  rewrite digits_from_small by lia_div.
  replace (n / 10000 mod 10)%N with (n / 10 / 10 / 10 / 10)%N by lia_div.
  replace (n / 1000 mod 10)%N with ((n / 10 / 10 / 10) mod 10)%N by lia_div.
  replace (n / 100 mod 10)%N with ((n / 10 / 10) mod 10)%N by lia_div.
  reflexivity.
Qed.

Lemma ord_digit_char d : (d < 10)%N -> ord (digit_char d) = (48 + d)%N.
Proof.
  intros H. unfold ord, digit_char. apply N_ascii_embedding. lia.
Qed.

Lemma five_digits n :
  (n < 100000)%N ->
  exists a4 a3 a2 a1 a0,
    (a4 < 10 /\ a3 < 10 /\ a2 < 10 /\ a1 < 10 /\ a0 < 10)%N /\
    (n = 10000 * a4 + 1000 * a3 + 100 * a2 + 10 * a1 + a0)%N /\
    five n = String (digit_char a4) (String (digit_char a3)
               (String (digit_char a2) (String (digit_char a1)
                  (String (digit_char a0) "")))).
Proof.
  intros H.
  exists (n / 10000 mod 10)%N, (n / 1000 mod 10)%N, (n / 100 mod 10)%N,
         (n / 10 mod 10)%N, (n mod 10)%N.
  split; [|split; [|done]]; lia_div.
Qed.

Lemma str_compare_five n m :
  (n < 100000)%N -> (m < 100000)%N ->
  str_compare (five n) (five m) = (n ?= m)%N.
Proof.
  intros Hn Hm.
  destruct (five_digits n Hn) as (a4 & a3 & a2 & a1 & a0 & Ha & -> & ->).
  destruct (five_digits m Hm) as (b4 & b3 & b2 & b1 & b0 & Hb & -> & ->).
  cbn [str_compare]. rewrite !ord_digit_char by lia.
  destruct (N.compare_spec (48 + a4) (48 + b4));
    [destruct (N.compare_spec (48 + a3) (48 + b3));
     [destruct (N.compare_spec (48 + a2) (48 + b2));
      [destruct (N.compare_spec (48 + a1) (48 + b1));
       [destruct (N.compare_spec (48 + a0) (48 + b0))|..]|..]|..]|..];
    symmetry; first [apply N.compare_eq_iff | apply N.compare_lt_iff
                    | apply N.compare_gt_iff]; lia.
Qed.

Lemma str_compare_app a b r1 r2 :
  String.length a = String.length b ->
  str_compare (a +:+ r1) (b +:+ r2)
  = match str_compare a b with Eq => str_compare r1 r2 | o => o end.
Proof.
  revert b. induction a as [|x a IH]; intros [|y b] Hl; try done.
  rewrite !str_app_cons. cbn [str_compare].
  destruct (ord x ?= ord y)%N; [|done..].
  apply IH. simpl in Hl. lia.
Qed.

Lemma str_app_nil_r a : a +:+ "" = a.
Proof. induction a as [|x a IH]; [done|]. by rewrite str_app_cons, IH. Qed.

Lemma str_join_cons2 sep p q l :
  str_join sep (p :: q :: l) = p +:+ sep +:+ str_join sep (q :: l).
Proof. reflexivity. Qed.

Lemma five_length n : String.length (five n) = 5.
Proof. reflexivity. Qed.

Lemma expand_part_numeric c :
  numeric_component c ->
  exists n, component_value c = Z.of_N n /\ (n < 100000)%N /\ expand_part c = five n.
Proof.
  intros (z & Hi & Hz). unfold component_value, expand_part. rewrite Hi.
  exists (Z.to_N z). split; [lia|]. split; [lia|].
  rewrite <- format_05i_five by lia. f_equal. lia.
Qed.

Lemma decimal_numeric c :
  is_decimal c = true -> (component_value c < 100000)%Z -> numeric_component c.
Proof.
  intros Hd Hv. unfold component_value in Hv.
  rewrite (int_of_str_decimal _ Hd) in Hv.
  exists (Z.of_N (dec_value 0 c)). split; [by apply int_of_str_decimal | lia].
Qed.

(** C10.  For two versions with the same number of components, all of
    them decimal integers from 0 to 99999, comparing the expanded
    versions as strings gives what comparing the versions component by
    component as numbers gives. *)
Theorem expandVersion_order (a b : string) :
  length (str_split "." a) = length (str_split "." b) ->
  Forall numeric_component (str_split "." a) ->
  Forall numeric_component (str_split "." b) ->
  str_compare (expandVersion a) (expandVersion b)
  = version_compare (map component_value (str_split "." a))
                    (map component_value (str_split "." b)).
Proof.
  rewrite !expandVersion_map.
  generalize (str_split "." a) as la, (str_split "." b) as lb.
  induction la as [|x la IH]; intros [|y lb] Hl Ha Hb; try done.
  inversion Ha as [|? ? Hx Ha']; subst. inversion Hb as [|? ? Hy Hb']; subst.
  destruct (expand_part_numeric x Hx) as (n & Hn & Hn' & En).
  destruct (expand_part_numeric y Hy) as (m & Hm & Hm' & Em).
  cbn [map version_compare]. rewrite Hn, Hm, N2Z.inj_compare.
  rewrite <- (str_compare_five n m) by done.
  simpl in Hl. injection Hl as Hl.
  destruct la as [|x' la], lb as [|y' lb]; try done.
  - cbn [map str_join]. rewrite En, Em.
    by destruct (str_compare (five n) (five m)).
  - cbn [map]. rewrite !str_join_cons2.
    rewrite En, Em. rewrite str_compare_app by done.
    destruct (str_compare (five n) (five m)); [|done..].
    rewrite (str_compare_app "." ".") by done. cbn [str_compare].
    rewrite N.compare_refl. by apply (IH (y' :: lb)).
Qed.

Lemma expandVersion_order_witness :
  str_compare (expandVersion "2.10.0") (expandVersion "2.9.12")
  = version_compare (map component_value (str_split "." "2.10.0"))
                    (map component_value (str_split "." "2.9.12")).
Proof.
  apply expandVersion_order.
  - reflexivity.
  - repeat (constructor; [eexists; split; [vm_compute; reflexivity | lia]|]).
    constructor.
  - repeat (constructor; [eexists; split; [vm_compute; reflexivity | lia]|]).
    constructor.
Defined.

Lemma bind_run {A B} (m : M A) (f : A -> M B) w a w1 r :
  m w = Ok (a, w1) -> f a w1 = r -> bind m f w = r.
Proof. unfold bind. by intros -> ->. Qed.

Lemma get_menu_run w m x : menus w !! m = Some x -> get_menu m w = Ok (x, w).
Proof. unfold get_menu, reads, find_menu, lift. by intros ->. Qed.

Lemma get_action_run w a x : actions w !! a = Some x -> get_action a w = Ok (x, w).
Proof. unfold get_action, reads, find_action, lift. by intros ->. Qed.

Lemma alter_insert {A} (f : A -> A) (l : list A) i x :
  l !! i = Some x -> alter f i l = <[i := f x]> l.
Proof.
  intros H. rewrite list_insert_alter. apply list_alter_ext; [|done].
  intros y Hy. congruence.
Qed.

Lemma update_action_run w a f x :
  actions w !! a = Some x ->
  update_action a f w = Ok (tt, with_actions (<[a := f x]> (actions w)) w).
Proof.
  intros H. unfold update_action.
  eapply bind_run; [by apply get_action_run|].
  unfold modify. by rewrite (alter_insert _ _ _ _ H).
Qed.

Lemma update_menu_run w m f x :
  menus w !! m = Some x ->
  update_menu m f w = Ok (tt, with_menus (<[m := f x]> (menus w)) w).
Proof.
  intros H. unfold update_menu.
  eapply bind_run; [by apply get_menu_run|].
  unfold modify. by rewrite (alter_insert _ _ _ _ H).
Qed.

Lemma lookup_snoc {A} (l : list A) x : (l ++ [x]) !! length l = Some x.
Proof. by apply list_lookup_middle. Qed.

Lemma insert_snoc {A} (l : list A) x y : <[length l := y]> (l ++ [x]) = l ++ [y].
Proof.
  replace (length l) with (length l + 0) by lia. by rewrite insert_app_r.
Qed.

Lemma groups_extend_eq a m m' : m_groups m' = m_groups m -> groups_extend a m m'.
Proof.
  intros E. unfold groups_extend. rewrite E. split; [done|].
  intros g grp v b H1 H2. right. eauto.
Qed.

Lemma groups_extend_trans a m1 m2 m3 :
  groups_extend a m1 m2 -> groups_extend a m2 m3 -> groups_extend a m1 m3.
Proof.
  intros [K1 A1] [K2 A2]. split; [by auto|].
  intros g grp v b H1 H2.
  destruct (A2 g grp v b H1 H2) as [|(grp0 & G1 & G2)]; [by left|].
  by apply (A1 g grp0 v b).
Qed.

Lemma pending_menu self text w a w1 :
  pending self text w a w1 ->
  exists m m', menus w !! self = Some m /\ menus w1 !! self = Some m' /\
    same_menu m m' /\ groups_extend a m m' /\
    m_actions m' = m_actions m ++ [a].
Proof.
  intros (_ & _ & _ & _ & m & m' & Hm & Hw1 & Hs & Hg & Ha).
  exists m, m'. repeat split; try done; try apply Hs; try apply Hg.
  rewrite Hw1. apply list_lookup_insert_eq. by eapply lookup_lt_Some.
Qed.

Lemma pending_update_action self text w a w1 f :
  pending self text w a w1 ->
  (forall x, a_text (f x) = a_text x /\ a_parent (f x) = a_parent x /\
             a_menu (f x) = a_menu x /\ a_menuPath (f x) = a_menuPath x /\
             a_shortcuts (f x) = a_shortcuts x) ->
  exists w2, update_action a f w1 = Ok (tt, w2) /\ pending self text w a w2.
Proof.
  intros (Ha & Hs & Hk & (act & Hact & Ht & Hp & Hm & Hmp & Hsh) & Hmenu) Hf.
  subst a. eexists. split.
  - apply update_action_run. rewrite Hact. apply lookup_snoc.
  - split; [done|]. split; [done|]. split; [done|]. split; [|done].
    exists (f act). cbn. rewrite Hact, insert_snoc. split; [done|].
    destruct (Hf act) as (-> & -> & -> & -> & ->). done.
Qed.

Lemma pending_update_menu self text w a w1 g :
  pending self text w a w1 ->
  (forall x, menus w1 !! self = Some x ->
     same_menu x (g x) /\ groups_extend a x (g x) /\
     m_actions (g x) = m_actions x) ->
  exists w2, update_menu self g w1 = Ok (tt, w2) /\ pending self text w a w2.
Proof.
  intros Hp Hg.
  destruct (pending_menu _ _ _ _ _ Hp) as (m & m' & Hm & Hm' & Hs & Hge & Hact).
  destruct Hp as (Ha & Hsa & Hk & Hacts & (m0 & m0' & Hm0 & Hw1 & _ & _)).
  eexists. split; [by apply update_menu_run|].
  split; [done|]. split; [done|]. split; [done|]. split; [done|].
  exists m, (g m'). split; [done|]. cbn. split.
  - rewrite Hw1. by rewrite list_insert_insert_eq.
  - destruct (Hg m' Hm') as ((H1 & H2 & H3 & H4 & H5) & H6 & H7).
    destruct Hs as (S1 & S2 & S3 & S4 & S5).
    split; [unfold same_menu; repeat split; congruence|].
    split; [by eapply groups_extend_trans | congruence].
Qed.

Lemma addAction_pending self text w m :
  menus w !! self = Some m ->
  exists w1, addAction self text w = Ok (length (actions w), w1) /\
    pending self text w (length (actions w)) w1.
Proof.
  intros Hm. unfold addAction. eexists. split.
  - eapply bind_run; [by apply get_menu_run|].
    eapply bind_run; [reflexivity|].
    eapply bind_run; [by apply update_menu_run|]. reflexivity.
  - split; [done|]. split; [done|]. split; [done|]. split.
    + eexists. split; [reflexivity|]. done.
    + exists m. eexists. split; [done|]. split; [reflexivity|].
      split; [done|]. split; [by apply groups_extend_eq | done].
Qed.

Lemma connect_item_added self text w a w1 name :
  pending self text w a w1 ->
  Menu._createMenuPathName text = Ok name ->
  exists w', Menu._connectActionShortcut self a w1 = Ok (tt, w') /\
    item_added self text w a w' /\ menus w' = menus w1.
Proof.
  intros Hp Hn.
  destruct (pending_menu _ _ _ _ _ Hp) as (m & m' & Hm & Hm' & Hs & Hge & Hma).
  destruct Hp as (Ha & Hsa & Hk & (act & Hact & Ht & Hpar & Hmenu & Hmp & Hsh)
                  & (m0 & m0' & Hm0 & Hw1 & Hs0 & _ & Hma0)).
  assert (m0 = m) by congruence. subst m0.
  assert (m0' = m').
  { rewrite Hw1 in Hm'. rewrite list_lookup_insert_eq in Hm' by (by eapply lookup_lt_Some).
    congruence. }
  subst m0'.
  destruct Hs as (S1 & S2 & S3 & S4 & S5).
  assert (Hla : actions w1 !! a = Some act).
  { subst a. rewrite Hact. apply lookup_snoc. }
  set (p := m_menuPath m +:+ "__" +:+ name).
  set (act1 := a_with_menuPath p act).
  set (w2 := with_keyMappingChanged (keyMappingChanged w1 ++ [a])
               (with_actions (<[a := act1]> (actions w1)) w1)).
  assert (Hrun2 : exists w',
    KeyMapper.setShortcut a w2 = Ok (tt, w') /\
    actions w' = actions w ++
      [a_with_shortcuts (bound_shortcuts (config_shortcuts w) p []) act1] /\
    same_app w w' /\ keyMappingChanged w' = keyMappingChanged w ++ [a] /\
    menus w' = menus w1).
  { assert (Hl2 : actions w2 !! a = Some act1).
    { cbn. apply list_lookup_insert_eq. by eapply lookup_lt_Some. }
    destruct Hsa as (E1 & E2 & E3 & E4 & E5).
    unfold KeyMapper.setShortcut.
    unfold bound_shortcuts. rewrite <- E2.
    destruct (dict_get (config_shortcuts w1) p) as [v|] eqn:G.
    - eexists. split.
      + eapply bind_run; [by apply get_action_run|].
        eapply bind_run; [reflexivity|].
        eapply bind_run; [reflexivity|]. cbn [config_shortcuts w2 with_actions with_keyMappingChanged].
        unfold dict_in. rewrite G.
        eapply bind_run; [unfold lift, dict_getitem; by rewrite G|].
        unfold setShortcuts. by apply update_action_run.
      + cbn. rewrite list_insert_insert_eq. subst a. rewrite Hact, insert_snoc.
        rewrite Hk. done.
    - eexists. split.
      + eapply bind_run; [by apply get_action_run|].
        eapply bind_run; [reflexivity|].
        eapply bind_run; [reflexivity|]. cbn [config_shortcuts w2 with_actions with_keyMappingChanged].
        unfold dict_in. rewrite G. reflexivity.
      + cbn. subst a. rewrite Hact, insert_snoc, Hk.
        split; [|done]. do 2 f_equal. unfold act1, a_with_shortcuts, a_with_menuPath.
        cbn. rewrite Hsh. by destruct act. }
  destruct Hrun2 as (w' & Hrun & Hacts' & Hsa' & Hk' & Hmenus').
  exists w'. split.
  - unfold Menu._connectActionShortcut.
    eapply bind_run; [by apply get_menu_run|].
    eapply bind_run; [by apply get_action_run|].
    eapply bind_run; [unfold lift; by rewrite Ht, Hn|].
    eapply bind_run; [by apply update_action_run|].
    eapply bind_run; [reflexivity|].
    rewrite S4. exact Hrun.
  - split; [|done]. split; [done|]. split; [done|]. split; [done|].
    exists m, m'. split; [done|]. split; [congruence|].
    split; [done|]. split; [done|]. split; [done|].
    eexists _, name. split; [exact Hacts'|]. cbn.
    rewrite Ht, Hpar, Hmenu. done.
Qed.

Lemma value_eqb_refl v : value_eqb v v = true.
Proof.
  induction v as [| b | z | s | a IHa b IHb | s]; cbn; try done.
  - by destruct b.
  - apply Z.eqb_refl.
  - apply String.eqb_refl.
  - by rewrite IHa, IHb.
  - apply String.eqb_refl.
Qed.

Lemma vdict_get_set {A} (d : vdict A) k (x : A) :
  vdict_get (vdict_set d k x) k = Some x.
Proof.
  induction d as [|[k' y] d IH]; cbn.
  - by rewrite value_eqb_refl.
  - destruct (value_eqb k' k) eqn:E; cbn; by rewrite ?E.
Qed.

Lemma vdict_get_set_Some {A} (d : vdict A) k (x : A) k' y :
  vdict_get d k' = Some y -> is_Some (vdict_get (vdict_set d k x) k').
Proof.
  induction d as [|[k0 y0] d IH]; cbn; [done|].
  destruct (value_eqb k0 k) eqn:E; cbn.
  - destruct (value_eqb k0 k'); eauto.
  - destruct (value_eqb k0 k'); eauto.
Qed.

Lemma vdict_get_set_inv {A} (d : vdict A) k (x : A) k' y :
  vdict_get (vdict_set d k x) k' = Some y ->
  vdict_get d k' = Some y \/ (y = x /\ vdict_get d k' = vdict_get d k).
Proof.
  induction d as [|[k0 y0] d IH]; cbn.
  - destruct (value_eqb k k'); [|done]. intros [= <-]. by right.
  - destruct (value_eqb k0 k) eqn:E; cbn.
    + destruct (value_eqb k0 k'); [|by left]. intros [= <-]. by right.
    + destruct (value_eqb k0 k'); [by left | exact IH].
Qed.

(** The groups after [addGroupItem] has put the action [a] in [group]. *)
Lemma groups_extend_add a m group value :
  let groups := match vdict_get (m_groups m) group with
                | Some _ => m_groups m
                | None => vdict_set (m_groups m) group
                            {| g_members := []; g_actions := [] |}
                end in
  forall g, vdict_get groups group = Some g ->
  groups_extend a m
    (m_with_groups
       (vdict_set groups group
          {| g_members := g_members g ++ [a];
             g_actions := vdict_set (g_actions g) value a |}) m).
Proof.
  intros groups g Hg. split; cbn.
  - intros k [grp Hk].
    assert (is_Some (vdict_get groups k)) as [grp' Hk'].
    { unfold groups. destruct (vdict_get (m_groups m) group); [eauto|].
      by eapply vdict_get_set_Some. }
    by eapply vdict_get_set_Some.
  - intros k grp v b Hk Hb.
    apply vdict_get_set_inv in Hk as [Hk|[-> Hk]].
    + unfold groups in Hk. destruct (vdict_get (m_groups m) group) eqn:E.
      * right. eauto.
      * apply vdict_get_set_inv in Hk as [Hk|[-> _]]; [right; eauto | done].
    + cbn in Hb. apply vdict_get_set_inv in Hb as [Hb|[-> _]]; [|by left].
      rewrite Hg in Hk. unfold groups in Hk, Hg.
      destruct (vdict_get (m_groups m) group) eqn:E.
      * right. eauto.
      * rewrite vdict_get_set in Hg. injection Hg as <-. done.
Qed.

Lemma pending_optional self text w a w1 (o : option Slot)
    (conn : action_id -> Slot -> M unit) :
  pending self text w a w1 ->
  (forall s, exists f, conn a s = update_action a f /\
     forall x, a_text (f x) = a_text x /\ a_parent (f x) = a_parent x /\
               a_menu (f x) = a_menu x /\ a_menuPath (f x) = a_menuPath x /\
               a_shortcuts (f x) = a_shortcuts x) ->
  exists w2, match o with Some s => conn a s | None => ret tt end w1 = Ok (tt, w2) /\
    pending self text w a w2.
Proof.
  intros Hp Hc. destruct o as [s|]; [|by exists w1].
  destruct (Hc s) as (f & -> & Hf). by apply pending_update_action.
Qed.

Lemma connect_triggered_update a s :
  exists f, connect_triggered a s = update_action a f /\
     forall x, a_text (f x) = a_text x /\ a_parent (f x) = a_parent x /\
               a_menu (f x) = a_menu x /\ a_menuPath (f x) = a_menuPath x /\
               a_shortcuts (f x) = a_shortcuts x.
Proof. eexists. split; [reflexivity|]. done. Qed.

Lemma connect_toggled_update a s :
  exists f, connect_toggled a s = update_action a f /\
     forall x, a_text (f x) = a_text x /\ a_parent (f x) = a_parent x /\
               a_menu (f x) = a_menu x /\ a_menuPath (f x) = a_menuPath x /\
               a_shortcuts (f x) = a_shortcuts x.
Proof. eexists. split; [reflexivity|]. done. Qed.

Lemma _addAction_pending self properties w m :
  menus w !! self = Some m ->
  exists w1, Menu._addAction self properties w = Ok (length (actions w), w1) /\
    pending self (props_text properties) w (length (actions w)) w1.
Proof. intros Hm. destruct properties; by apply (addAction_pending _ _ _ m). Qed.

Lemma setCheckable_pending self text w a w1 b :
  pending self text w a w1 ->
  exists w2, setCheckable a b w1 = Ok (tt, w2) /\ pending self text w a w2.
Proof. intros Hp. by apply pending_update_action. Qed.

Lemma setChecked_pending self text w a w1 b :
  pending self text w a w1 ->
  exists w2, setChecked a b w1 = Ok (tt, w2) /\ pending self text w a w2.
Proof.
  intros Hp. apply pending_update_action; [done|].
  intros x. by destruct (a_checkable x).
Qed.

(** [addItem] *)
Lemma addItem_run self properties callback value w m name :
  menus w !! self = Some m ->
  Menu._createMenuPathName (props_text properties) = Ok name ->
  exists a w', Menu.addItem self properties callback value w = Ok (a, w') /\
    item_added self (props_text properties) w a w'.
Proof.
  intros Hm Hn. unfold Menu.addItem.
  destruct (_addAction_pending self properties w m Hm) as (w1 & R1 & P1).
  set (o := match callback with
            | Some cb => Some (match value with
                               | VNone => Call cb
                               | _ => CallValue cb value
                               end)
            | None => None
            end).
  destruct (pending_optional _ _ _ _ _ o connect_triggered P1 (connect_triggered_update _))
    as (w2 & R2 & P2).
  destruct (connect_item_added _ _ _ _ _ _ P2 Hn) as (w' & R3 & P3 & _).
  exists (length (actions w)), w'. split; [|done].
  eapply bind_run; [exact R1|].
  eapply bind_run.
  { unfold o in R2. destruct callback; [|exact R2]. by destruct value. }
  eapply bind_run; [exact R3|]. reflexivity.
Qed.

(** [addCheckItem] *)
Lemma addCheckItem_run self properties callback value selected w m name :
  menus w !! self = Some m ->
  Menu._createMenuPathName (props_text properties) = Ok name ->
  exists a w', Menu.addCheckItem self properties callback value selected w = Ok (a, w') /\
    item_added self (props_text properties) w a w'.
Proof.
  intros Hm Hn. unfold Menu.addCheckItem.
  destruct (_addAction_pending self properties w m Hm) as (w1 & R1 & P1).
  destruct (setCheckable_pending _ _ _ _ _ true P1) as (w1a & R1a & P1a).
  destruct (setChecked_pending _ _ _ _ _ selected P1a) as (w1b & R1b & P1b).
  set (o := match callback with
            | Some cb => Some (match value with
                               | VNone => CallState cb
                               | _ => CallStateValue cb value
                               end)
            | None => None
            end).
  destruct (pending_optional _ _ _ _ _ o connect_triggered P1b (connect_triggered_update _))
    as (w2 & R2 & P2).
  destruct (connect_item_added _ _ _ _ _ _ P2 Hn) as (w' & R3 & P3 & _).
  exists (length (actions w)), w'. split; [|done].
  eapply bind_run; [exact R1|].
  eapply bind_run; [exact R1a|].
  eapply bind_run; [exact R1b|].
  eapply bind_run.
  { unfold o in R2. destruct callback; [|exact R2]. by destruct value. }
  eapply bind_run; [exact R3|]. reflexivity.
Qed.

(** [addGroupItem] *)
Lemma addGroupItem_run self properties group value callback selected w m name :
  menus w !! self = Some m ->
  Menu._createMenuPathName (props_text properties) = Ok name ->
  exists a w', Menu.addGroupItem self properties group value callback selected w
               = Ok (a, w') /\
    item_added self (props_text properties) w a w' /\
    exists m', menus w' !! self = Some m' /\ is_Some (vdict_get (m_groups m') group).
Proof.
  intros Hm Hn. unfold Menu.addGroupItem.
  destruct (_addAction_pending self properties w m Hm) as (w1 & R1 & P1).
  destruct (setCheckable_pending _ _ _ _ _ true P1) as (w1a & R1a & P1a).
  destruct (setChecked_pending _ _ _ _ _ selected P1a) as (w1b & R1b & P1b).
  set (o := match callback with
            | Some cb => Some (CallIfChecked cb value)
            | None => None
            end).
  destruct (pending_optional _ _ _ _ _ o connect_toggled P1b (connect_toggled_update _))
    as (w2 & R2 & P2).
  destruct (pending_menu _ _ _ _ _ P2) as (m0 & m2 & Hm0 & Hm2 & _ & _ & _).
  set (groups := match vdict_get (m_groups m2) group with
                 | Some _ => m_groups m2
                 | None => vdict_set (m_groups m2) group
                             {| g_members := []; g_actions := [] |}
                 end).
  assert (Hg : exists g, vdict_get groups group = Some g).
  { unfold groups. destruct (vdict_get (m_groups m2) group) eqn:E; [eauto|].
    rewrite vdict_get_set. eauto. }
  destruct Hg as [g Hg].
  destruct (pending_update_menu _ _ _ _ _
              (m_with_groups
                 (vdict_set groups group
                    {| g_members := g_members g ++ [length (actions w)];
                       g_actions := vdict_set (g_actions g) value (length (actions w)) |}))
              P2) as (w3 & R3 & P3).
  { intros x Hx. assert (x = m2) as -> by congruence.
    split; [done|]. split; [|done]. by apply groups_extend_add. }
  destruct (connect_item_added _ _ _ _ _ _ P3 Hn) as (w' & R4 & P4 & M4).
  exists (length (actions w)), w'. split; [|split; [done|]].
  2:{ rewrite (update_menu_run _ _ _ _ Hm2) in R3. injection R3 as <-.
      rewrite M4. cbn. eexists. split.
      - apply list_lookup_insert_eq. by eapply lookup_lt_Some.
      - cbn. by rewrite vdict_get_set. }
  eapply bind_run; [exact R1|].
  eapply bind_run; [exact R1a|].
  eapply bind_run; [exact R1b|].
  eapply bind_run; [unfold o in R2; destruct callback; exact R2|].
  eapply bind_run; [by apply get_menu_run|].
  fold groups. rewrite Hg.
  eapply bind_run; [reflexivity|].
  eapply bind_run; [exact R3|].
  eapply bind_run; [exact R4|]. reflexivity.
Qed.

Lemma same_app_refl w : same_app w w.
Proof. done. Qed.

Lemma setShortcut_run w a act p :
  actions w !! a = Some act -> a_menuPath act = Some p ->
  exists w', KeyMapper.setShortcut a w = Ok (tt, w') /\
    same_but_actions w w' /\
    actions w' = <[a := rebind (config_shortcuts w) act]> (actions w) /\
    (dict_get (config_shortcuts w) p = None -> w' = w).
Proof.
  intros Ha Hp. unfold KeyMapper.setShortcut, rebind. rewrite Hp.
  destruct (dict_get (config_shortcuts w) p) as [v|] eqn:G.
  - eexists. split.
    + eapply bind_run; [by apply get_action_run|]. rewrite Hp.
      eapply bind_run; [reflexivity|].
      eapply bind_run; [reflexivity|].
      unfold dict_in. rewrite G.
      eapply bind_run; [unfold lift, dict_getitem; by rewrite G|].
      unfold setShortcuts. by apply update_action_run.
    + split; [by repeat split|]. split; [done|]. discriminate.
  - exists w. split.
    + eapply bind_run; [by apply get_action_run|]. rewrite Hp.
      eapply bind_run; [reflexivity|].
      eapply bind_run; [reflexivity|].
      unfold dict_in. by rewrite G.
    + split; [by repeat split|]. split; [|done]. symmetry. by apply list_insert_id.
Qed.

Lemma rebind_menuPath cfg act : a_menuPath (rebind cfg act) = a_menuPath act.
Proof.
  unfold rebind. destruct (a_menuPath act) as [p|] eqn:E; [|done].
  by destruct (dict_get cfg p).
Qed.

Lemma rebind_shortcuts cfg act p :
  a_menuPath act = Some p ->
  a_shortcuts (rebind cfg act) = bound_shortcuts cfg p (a_shortcuts act).
Proof.
  unfold rebind, bound_shortcuts. intros ->. by destruct (dict_get cfg p).
Qed.

Lemma rebind_idemp cfg act : rebind cfg (rebind cfg act) = rebind cfg act.
Proof.
  unfold rebind. destruct (a_menuPath act) as [p|] eqn:E; [|by rewrite E].
  destruct (dict_get cfg p) eqn:G; cbn; rewrite E, G; done.
Qed.

(** The slots run one after the other. *)
Lemma emit_loop l : forall w,
  (forall a, In a l -> exists act p, actions w !! a = Some act /\ a_menuPath act = Some p) ->
  exists w', forM_ l KeyMapper.setShortcut w = Ok (tt, w') /\
    same_but_actions w w' /\
    forall a, actions w' !! a =
              if decide (a ∈ l) then rebind (config_shortcuts w) <$> actions w !! a
              else actions w !! a.
Proof.
  induction l as [|a l IH]; intros w Hl.
  - exists w. split; [done|]. split; [by repeat split|]. intros a.
    destruct (decide _) as [H|]; [|done]. by apply elem_of_nil in H.
  - destruct (Hl a) as (act & p & Ha & Hp); [by left|].
    destruct (setShortcut_run w a act p Ha Hp) as (w1 & R1 & S1 & A1 & _).
    destruct S1 as ((E1 & E2 & E3 & E4 & E5) & E6 & E7).
    destruct (IH w1) as (w' & R & S & A).
    { intros b Hb. destruct (Hl b) as (actb & pb & Hab & Hpb); [by right|].
      rewrite A1. destruct (decide (a = b)) as [->|Hne].
      - rewrite list_lookup_insert_eq by (by eapply lookup_lt_Some).
        eexists _, p. split; [done|]. by rewrite rebind_menuPath.
      - rewrite list_lookup_insert_ne by done. eauto. }
    destruct S as ((F1 & F2 & F3 & F4 & F5) & F6 & F7).
    exists w'. split; [by eapply bind_run|]. split.
    { unfold same_but_actions, same_app. repeat split; congruence. }
    intros b. rewrite A, E2, A1.
    destruct (decide (a = b)) as [->|Hne].
    + rewrite list_lookup_insert_eq by (by eapply lookup_lt_Some).
      rewrite Ha.
      destruct (decide (b ∈ b :: l)) as [_|Hc]; [|exfalso; apply Hc; by left].
      destruct (decide (b ∈ l)); [|done]. cbn. by rewrite rebind_idemp.
    + rewrite list_lookup_insert_ne by done.
      destruct (decide (b ∈ l)) as [Hb|Hb].
      * rewrite decide_True by (by right). done.
      * rewrite decide_False; [done|]. intros [?|?]%elem_of_cons; done.
Qed.

Lemma emission_rebinds_ok w : slots_ok w -> emission_rebinds w.
Proof.
  intros Hs. destruct (emit_loop (keyMappingChanged w) w Hs) as (w' & R & S & A).
  exists w'. split; [|split].
  - unfold KeyMapper.keyMappingChanged_emit. by eapply bind_run.
  - apply S.
  - intros a act p Hin Ha Hp. rewrite A, Ha.
    rewrite decide_True by (by apply list_elem_of_In). cbn.
    eexists. split; [done|]. rewrite rebind_menuPath.
    split; [done|]. by apply rebind_shortcuts.
Qed.

Lemma item_added_slots_ok self text w a w' :
  slots_ok w -> item_added self text w a w' -> slots_ok w'.
Proof.
  intros Hs (Ha & _ & Hk & m & m' & _ & _ & _ & _ & _ & act & name & Hacts & _ & _ & _ & _ & Hmp & _).
  intros b Hb. rewrite Hk in Hb. apply in_app_iff in Hb as [Hb|[<-|[]]].
  - destruct (Hs b Hb) as (actb & p & Hl & Hp). exists actb, p.
    split; [|done]. rewrite Hacts. by apply lookup_app_l_Some.
  - subst a. eexists act, _. split; [|exact Hmp]. rewrite Hacts. apply lookup_snoc.
Qed.

Lemma item_added_bound self text w a w' :
  slots_ok w -> item_added self text w a w' -> shortcut_bound self text w a w'.
Proof.
  intros Hs Hi. split; [done|]. split.
  - destruct Hi as (_ & _ & -> & _). apply in_app_iff. right. by left.
  - by eapply item_added_slots_ok.
Qed.

(** C5.  On a menu that exists and for a text that has a path name,
    [addItem], [addGroupItem] and [addCheckItem] return a new action
    whose [menuPath] is the path of the menu, "__" and the normalised
    text, whose shortcuts are the string stored under that key split at
    the commas, and whose slot is connected to [keyMappingChanged]; and
    every emission of the signal binds each connected action again to
    what the configuration then holds for its [menuPath]. *)
Theorem add_item_binds_shortcut (self : menu_id) (w : World) (m : QMenu)
    (properties : Properties) (name : string) :
  slots_ok w ->
  menus w !! self = Some m ->
  Menu._createMenuPathName (props_text properties) = Ok name ->
  (forall callback value,
     exists a w',
       Menu.addItem self properties callback value w = Ok (a, w') /\
       shortcut_bound self (props_text properties) w a w') /\
  (forall group value callback selected,
     exists a w',
       Menu.addGroupItem self properties group value callback selected w
       = Ok (a, w') /\
       shortcut_bound self (props_text properties) w a w') /\
  (forall callback value selected,
     exists a w',
       Menu.addCheckItem self properties callback value selected w = Ok (a, w') /\
       shortcut_bound self (props_text properties) w a w') /\
  (forall w2, slots_ok w2 -> emission_rebinds w2).
Proof.
  intros Hs Hm Hn. repeat split.
  - intros callback value.
    destruct (addItem_run self properties callback value w m name Hm Hn)
      as (a & w' & R & Hi).
    exists a, w'. split; [done|]. by apply item_added_bound.
  - intros group value callback selected.
    destruct (addGroupItem_run self properties group value callback selected
                w m name Hm Hn) as (a & w' & R & Hi & _).
    exists a, w'. split; [done|]. by apply item_added_bound.
  - intros callback value selected.
    destruct (addCheckItem_run self properties callback value selected
                w m name Hm Hn) as (a & w' & R & Hi).
    exists a, w'. split; [done|]. by apply item_added_bound.
  - apply emission_rebinds_ok.
Qed.

Lemma add_item_binds_shortcut_witness :
  exists a w',
    Menu.addItem 0 (PText "Paste") (Some (Fn "iep.editors.paste")) VNone
      edit_menu_app = Ok (a, w') /\
    shortcut_bound 0 "Paste" edit_menu_app a w'.
Proof.
  destruct (add_item_binds_shortcut 0 edit_menu_app
              {| m_title := "Edit"; m_parent := MenuBarW; m_menuAction := 0;
                 m_actions := [1]; m_menuPath := "edit"; m_groups := [];
                 m_attrs := [] |}
              (PText "Paste") "paste") as (H & _).
  - intros a [<-|[]]. exists copy_action, "edit__copy". split; reflexivity.
  - reflexivity.
  - vm_compute. reflexivity.
  - apply (H (Some (Fn "iep.editors.paste")) VNone).
Defined.

Lemma ext_refl self w : ext self w w.
Proof. repeat split; try done. intros m Hm. exists m. by repeat split. Qed.

Lemma ext_trans self w1 w2 w3 : ext self w1 w2 -> ext self w2 w3 -> ext self w1 w3.
Proof.
  intros (A1 & A2 & A3 & A4 & A5 & A6 & A7) (B1 & B2 & B3 & B4 & B5 & B6 & B7).
  repeat split; try congruence; try lia.
  - intros i m Hi Hm. by apply B6, A6.
  - intros m Hm. destruct (A7 m Hm) as (m2 & H2 & T2 & M2 & P2 & G2).
    destruct (B7 m2 H2) as (m3 & H3 & T3 & M3 & P3 & G3).
    exists m3. repeat split; try congruence. auto.
Qed.

Lemma stable_True self : stable self (fun _ => True).
Proof. done. Qed.

Lemma stable_and self F G :
  stable self F -> stable self G -> stable self (fun w => F w /\ G w).
Proof. intros HF HG w w' He [? ?]. split; eauto. Qed.

Lemma stable_valid self a : stable self (fun w => a < length (actions w)).
Proof. intros w w' (_ & _ & _ & _ & H & _) Ha. lia. Qed.

Lemma valid_ids_mono w w' l :
  length (actions w) <= length (actions w') -> valid_ids w l -> valid_ids w' l.
Proof.
  intros Hl H. unfold valid_ids in *. eapply Forall_impl; [exact H|].
  intros a Ha. simpl in *. lia.
Qed.

Lemma stable_valid_ids self l : stable self (fun w => valid_ids w l).
Proof. intros w w' (_ & _ & _ & _ & H & _). by apply valid_ids_mono. Qed.

Lemma stable_menu self sub : stable self (fun w => is_Some (menus w !! sub)).
Proof.
  intros w w' (_ & _ & _ & _ & _ & H6 & H7) [m Hm].
  destruct (decide (sub = self)) as [->|Hne].
  - destruct (H7 m Hm) as (m' & Hm' & _). eauto.
  - rewrite (H6 _ _ Hne Hm). eauto.
Qed.

Lemma stable_has_group self g : stable self (has_group self g).
Proof.
  intros w w' (_ & _ & _ & _ & _ & _ & H7) (m & Hm & Hg).
  destruct (H7 m Hm) as (m' & Hm' & _ & _ & _ & G). exists m'. auto.
Qed.

(** The rules *)
Lemma spec_ret e attrs self {A} (F : World -> Prop) (a : A) (Q : A -> World -> Prop) :
  (forall w, F w -> Q a w) -> spec e attrs self F (ret a) Q.
Proof.
  intros HQ w He Hr HF. exists a, w. split; [done|]. split; [done|].
  split; [apply ext_refl | auto].
Qed.

Lemma spec_bind e attrs self {A B} (F : World -> Prop) (m : M A) (f : A -> M B)
    (Q : A -> World -> Prop) (R : B -> World -> Prop) :
  stable self F ->
  spec e attrs self F m Q ->
  (forall a, spec e attrs self (fun w => F w /\ Q a w) (f a) R) ->
  spec e attrs self F (bind m f) R.
Proof.
  intros HS Hm Hf w He Hr HF.
  destruct (Hm w He Hr HF) as (a & w1 & R1 & Hr1 & E1 & Q1).
  destruct (Hf a w1) as (b & w2 & R2 & Hr2 & E2 & Q2).
  { destruct E1 as (-> & _). done. }
  { done. }
  { split; [by eapply HS | done]. }
  exists b, w2. split; [by eapply bind_run|]. split; [done|].
  split; [by eapply ext_trans | done].
Qed.

Lemma spec_conseq e attrs self {A} (F F' : World -> Prop) (m : M A)
    (Q Q' : A -> World -> Prop) :
  (forall w, F w -> F' w) -> (forall a w, Q' a w -> Q a w) ->
  spec e attrs self F' m Q' -> spec e attrs self F m Q.
Proof.
  intros HF HQ Hm w He Hr Hw.
  destruct (Hm w He Hr (HF w Hw)) as (a & w' & R & Hr' & E & Q1).
  exists a, w'. auto.
Qed.

(** A step whose result is not used. *)
Lemma spec_seq e attrs self {A B} (F : World -> Prop) (m : M A) (k : M B)
    (Q : A -> World -> Prop) (R : B -> World -> Prop) :
  stable self F ->
  spec e attrs self F m Q ->
  spec e attrs self F k R ->
  spec e attrs self F (bind m (fun _ => k)) R.
Proof.
  intros HS Hm Hk. eapply spec_bind; [done | exact Hm |].
  intros a. eapply spec_conseq; [| |exact Hk]; [by intros w [? ?] | done].
Qed.

Lemma spec_forM_ e attrs self {A} (F : World -> Prop) (l : list A) (f : A -> M unit) :
  stable self F ->
  Forall (fun x => spec e attrs self F (f x) (fun _ _ => True)) l ->
  spec e attrs self F (forM_ l f) (fun _ _ => True).
Proof.
  intros HS Hl. induction Hl as [|x l Hx Hl IH]; cbn [forM_].
  - by apply spec_ret.
  - eapply spec_seq; eauto.
Qed.

Lemma spec_mapM e attrs self {A} (F : World -> Prop) (l : list A)
    (f : A -> M action_id) :
  stable self F ->
  Forall (fun x => spec e attrs self F (f x) (fun a w => a < length (actions w))) l ->
  spec e attrs self F (mapM l f) (fun ys w => valid_ids w ys).
Proof.
  intros HS Hl. induction Hl as [|x l Hx Hl IH]; cbn [mapM].
  - apply spec_ret. intros w _. constructor.
  - eapply spec_bind; [done | exact Hx |]. intros y.
    eapply spec_bind.
    + apply stable_and; [done | apply stable_valid].
    + eapply spec_conseq; [| |exact IH]; [by intros w [? ?] | done].
    + intros ys. apply spec_ret. intros w [[_ Hy] Hys]. by constructor.
Qed.

Lemma grows_refl w : grows w w.
Proof. by repeat split. Qed.

Lemma grows_trans w1 w2 w3 : grows w1 w2 -> grows w2 w3 -> grows w1 w3.
Proof.
  intros (A1 & A2 & A3 & A4 & A5 & A6) (B1 & B2 & B3 & B4 & B5 & B6).
  repeat split; try congruence; try lia. auto.
Qed.

Lemma grows_ext self w w' : grows w w' -> ext self w w'.
Proof.
  intros (A1 & A2 & A3 & A4 & A5 & A6). repeat split; try done.
  - intros i m _. apply A6.
  - intros m Hm. exists m. repeat split; auto.
Qed.

Lemma grows_ready attrs self w w' :
  grows w w' -> menu_ready attrs self w -> menu_ready attrs self w'.
Proof.
  intros (A1 & A2 & A3 & A4 & A5 & A6) (mo & Hm & Hk & Hv & Hg).
  exists mo. split; [auto|]. split; [done|]. split.
  - intros k l Hl. eapply valid_ids_mono; eauto.
  - intros g grp v a H1 H2. specialize (Hg g grp v a H1 H2). lia.
Qed.

Lemma item_added_ext attrs self text w a w' :
  item_added self text w a w' ->
  ext self w w' /\ (menu_ready attrs self w -> menu_ready attrs self w') /\
  a < length (actions w').
Proof.
  intros (Ha & (E1 & E2 & E3 & E4 & E5) & Hk & m & m' & Hm & Hmenus
          & (S1 & S2 & S3 & S4 & S5) & [G1 G2] & Hacts & act & name & Hact & _).
  assert (Hlen : length (actions w') = S (length (actions w))).
  { rewrite Hact, length_app. simpl. lia. }
  assert (Hself : menus w' !! self = Some m').
  { rewrite Hmenus. apply list_lookup_insert_eq. by eapply lookup_lt_Some. }
  split; [|split; [|lia]].
  - repeat split; try done; try lia.
    + intros i x Hi Hx. rewrite Hmenus. by rewrite list_lookup_insert_ne.
    + intros x Hx. assert (x = m) as -> by congruence.
      exists m'. repeat split; try done.
  - intros (mo & Hmo & Hk' & Hv & Hg). assert (mo = m) as -> by congruence.
    exists m'. split; [done|]. rewrite S5. split; [done|]. split.
    + intros k l Hl. eapply valid_ids_mono; [|eauto]. lia.
    + intros g grp v b H1 H2.
      destruct (G2 g grp v b H1 H2) as [->|(grp0 & H3 & H4)]; [lia|].
      specialize (Hg g grp0 v b H3 H4). lia.
Qed.

Lemma addItem_spec e attrs self F properties callback value name :
  Menu._createMenuPathName (props_text properties) = Ok name ->
  spec e attrs self F (Menu.addItem self properties callback value)
    (fun a w => a < length (actions w)).
Proof.
  intros Hn w He Hr HF. pose proof Hr as (mo & Hmo & _).
  destruct (addItem_run self properties callback value w mo name Hmo Hn)
    as (a & w' & R & Hi).
  destruct (item_added_ext attrs _ _ _ _ _ Hi) as (E & Hr' & Hv).
  exists a, w'. auto.
Qed.

Lemma addCheckItem_spec e attrs self F properties callback value selected name :
  Menu._createMenuPathName (props_text properties) = Ok name ->
  spec e attrs self F (Menu.addCheckItem self properties callback value selected)
    (fun a w => a < length (actions w)).
Proof.
  intros Hn w He Hr HF. pose proof Hr as (mo & Hmo & _).
  destruct (addCheckItem_run self properties callback value selected w mo name Hmo Hn)
    as (a & w' & R & Hi).
  destruct (item_added_ext attrs _ _ _ _ _ Hi) as (E & Hr' & Hv).
  exists a, w'. auto.
Qed.

Lemma addGroupItem_spec e attrs self F properties group value callback selected name :
  Menu._createMenuPathName (props_text properties) = Ok name ->
  spec e attrs self F
    (Menu.addGroupItem self properties group value callback selected)
    (fun a w => a < length (actions w) /\ has_group self group w).
Proof.
  intros Hn w He Hr HF. pose proof Hr as (mo & Hmo & _).
  destruct (addGroupItem_run self properties group value callback selected
              w mo name Hmo Hn) as (a & w' & R & Hi & Hg).
  destruct (item_added_ext attrs _ _ _ _ _ Hi) as (E & Hr' & Hv).
  exists a, w'. auto.
Qed.

(** A change of one action that exists. *)
Lemma update_action_spec e attrs self F a f :
  (forall w, F w -> a < length (actions w)) ->
  spec e attrs self F (update_action a f) (fun _ _ => True).
Proof.
  intros Ha w He Hr HF. specialize (Ha w HF).
  destruct (lookup_lt_is_Some_2 _ _ Ha) as [x Hx].
  eexists tt, _. split; [by apply update_action_run|].
  assert (Hlen : length (<[a := f x]> (actions w)) = length (actions w))
    by apply length_insert.
  split; [|split; [|done]].
  - destruct Hr as (mo & Hmo & Hk & Hv & Hg). exists mo. cbn.
    split; [done|]. split; [done|]. split.
    + intros k l Hl. eapply valid_ids_mono; [|eauto]. cbn. lia.
    + intros g grp v b H1 H2. rewrite Hlen. eauto.
  - repeat split; try done; cbn; try lia.
    intros m Hm. exists m. by repeat split.
Qed.

(** A change of the menu itself that keeps what [ext] asks for. *)
Lemma update_menu_spec e attrs self (F : World -> Prop) g :
  (forall m, m_title (g m) = m_title m /\ m_menuAction (g m) = m_menuAction m /\
             m_menuPath (g m) = m_menuPath m /\ m_groups (g m) = m_groups m) ->
  (forall w m, F w ->
     (forall k, In k attrs -> is_Some (dict_get (m_attrs m) k)) ->
     (forall k l, dict_get (m_attrs m) k = Some l -> valid_ids w l) ->
     (forall k, In k attrs -> is_Some (dict_get (m_attrs (g m)) k)) /\
     (forall k l, dict_get (m_attrs (g m)) k = Some l -> valid_ids w l)) ->
  spec e attrs self F (update_menu self g) (fun _ _ => True).
Proof.
  intros Hg Hattrs w He (mo & Hmo & Hk & Hv & Hgr) HF.
  destruct (Hg mo) as (G1 & G2 & G3 & G4).
  destruct (Hattrs w mo HF Hk Hv) as [Hk' Hv'].
  eexists tt, _. split; [by apply update_menu_run|].
  assert (Hself : <[self := g mo]> (menus w) !! self = Some (g mo)).
  { apply list_lookup_insert_eq. by eapply lookup_lt_Some. }
  split; [|split; [|done]].
  - exists (g mo). cbn. split; [done|]. split; [done|]. split; [done|].
    rewrite G4. done.
  - repeat split; try done; cbn.
    + intros i m Hi Hm. by rewrite list_lookup_insert_ne.
    + intros m Hm. assert (m = mo) as -> by congruence.
      exists (g mo). rewrite G4. by repeat split.
Qed.

Lemma addSeparator_spec e attrs self F :
  spec e attrs self F (addSeparator self) (fun _ _ => True).
Proof.
  intros w He Hr HF. pose proof Hr as (mo & Hmo & Hk & Hv & Hg).
  unfold addSeparator.
  set (sep := {| a_text := ""; a_parent := Some self; a_menu := None;
                 a_separator := true; a_menuPath := None; a_shortcuts := [];
                 a_checkable := false; a_checked := false; a_enabled := true;
                 a_triggered := []; a_toggled := [] |}).
  set (w1 := with_actions (actions w ++ [sep]) w).
  assert (Hs1 : spec e attrs self (fun _ => True)
                  (update_menu self
                     (fun m => m_with_actions (m_actions m ++ [length (actions w)]) m))
                  (fun _ _ => True)).
  { apply update_menu_spec; done. }
  destruct (Hs1 w1) as ([] & w' & R & Hr' & E & _); try done.
  { exists mo. cbn. split; [done|]. split; [done|]. split.
    - intros k l Hl. eapply valid_ids_mono; [|eauto]. cbn. rewrite length_app. lia.
    - intros g grp v a H1 H2. rewrite length_app. specialize (Hg _ _ _ _ H1 H2). lia. }
  eexists _, w'. split.
  - eapply bind_run; [by apply get_menu_run|].
    eapply bind_run; [reflexivity|].
    eapply bind_run; [exact R|]. reflexivity.
  - split; [done|]. split; [|done].
    eapply ext_trans; [|exact E].
    repeat split; try done; cbn.
    + rewrite length_app. lia.
    + intros m Hm. exists m. by repeat split.
Qed.

Lemma addMenu_spec e attrs self (F : World -> Prop) sub :
  (forall w, F w -> is_Some (menus w !! sub)) ->
  spec e attrs self F (addMenu self sub) (fun _ _ => True).
Proof.
  intros Hsub w He Hr HF. destruct (Hsub w HF) as [sm Hsm].
  unfold addMenu.
  assert (Hs1 : spec e attrs self (fun _ => True)
                  (update_menu self
                     (fun m => m_with_actions (m_actions m ++ [m_menuAction sm]) m))
                  (fun _ _ => True)).
  { apply update_menu_spec; done. }
  destruct (Hs1 w) as ([] & w' & R & Hr' & E & _); try done.
  eexists _, w'. split; [|done].
  eapply bind_run; [by apply get_menu_run|].
  eapply bind_run; [exact R|]. reflexivity.
Qed.

Lemma removeAction_spec e attrs self F a :
  spec e attrs self F (removeAction self a) (fun _ _ => True).
Proof.
  eapply spec_conseq; [| |apply (update_menu_spec e attrs self (fun _ => True))];
    done.
Qed.

Lemma dict_get_set_is_Some {V} (d : dict V) k v k' :
  is_Some (dict_get d k') -> is_Some (dict_get (dict_set d k v) k').
Proof.
  rewrite dict_get_set. destruct (str_eqb k k'); eauto.
Qed.

Lemma set_attr_spec e attrs self (F : World -> Prop) k l :
  (forall w, F w -> valid_ids w l) ->
  spec e attrs self F (set_attr self k l) (fun _ _ => True).
Proof.
  intros Hl. apply update_menu_spec; [done|].
  intros w m HF Hk Hv. cbn. split.
  - intros k' Hk'. by apply dict_get_set_is_Some, Hk.
  - intros k' l'. rewrite dict_get_set. destruct (str_eqb k k').
    + intros [= <-]. auto.
    + apply Hv.
Qed.

Lemma get_attr_spec e attrs self F k :
  In k attrs ->
  spec e attrs self F (get_attr self k) (fun l w => valid_ids w l).
Proof.
  intros Hin w He Hr HF. pose proof Hr as (mo & Hmo & Hk & Hv & _).
  destruct (Hk k Hin) as [l Hl].
  exists l, w. split.
  - unfold get_attr. eapply bind_run; [by apply get_menu_run|]. by rewrite Hl.
  - split; [done|]. split; [apply ext_refl | eauto].
Qed.

Lemma connect_spec e attrs self F signal slot :
  spec e attrs self F (connect signal slot) (fun _ _ => True).
Proof.
  intros w He Hr HF. eexists tt, _. split; [reflexivity|].
  split; [|split; [|done]].
  - destruct Hr as (mo & Hmo & Hk & Hv & Hg). by exists mo.
  - repeat split; try done. intros m Hm. exists m. by repeat split.
Qed.

Lemma setChecked_spec e attrs self (F : World -> Prop) a b :
  (forall w, F w -> a < length (actions w)) ->
  spec e attrs self F (setChecked a b) (fun _ _ => True).
Proof. apply update_action_spec. Qed.

Lemma action_setEnabled_spec e attrs self (F : World -> Prop) a b :
  (forall w, F w -> a < length (actions w)) ->
  spec e attrs self F (action_setEnabled a b) (fun _ _ => True).
Proof. apply update_action_spec. Qed.

Lemma setCheckedOption_spec e attrs self (F : World -> Prop) group value :
  (forall w, F w -> has_group self group w) ->
  spec e attrs self F (Menu.setCheckedOption self group value) (fun _ _ => True).
Proof.
  intros Hgr w He Hr HF. pose proof Hr as (mo & Hmo & Hk & Hv & Hg).
  destruct (Hgr w HF) as (mo' & Hmo' & [grp Hgrp]).
  assert (mo' = mo) as -> by congruence.
  unfold Menu.setCheckedOption.
  destruct (vdict_get (g_actions grp) value) as [a|] eqn:Ea.
  - destruct (setChecked_spec e attrs self (fun w0 => a < length (actions w0)) a true)
      with (w := w) as ([] & w' & R & Hr' & E & _); try done.
    { by eapply Hg. }
    eexists tt, w'. split; [|done].
    eapply bind_run; [by apply get_menu_run|]. rewrite Hgrp.
    eapply bind_run; [reflexivity|]. by rewrite Ea.
  - eexists tt, w. split.
    + eapply bind_run; [by apply get_menu_run|]. rewrite Hgrp.
      eapply bind_run; [reflexivity|]. by rewrite Ea.
    + split; [done|]. split; [apply ext_refl | done].
Qed.

(** Reading the environment, and steps that do not touch the world. *)
Lemma spec_gets_env e attrs self {A B} (F : World -> Prop) (g : Env -> A)
    (f : A -> M B) (R : B -> World -> Prop) :
  spec e attrs self F (f (g e)) R ->
  spec e attrs self F (bind (gets (fun w => g (env w))) f) R.
Proof.
  intros Hf w He Hr HF. destruct (Hf w He Hr HF) as (b & w' & R' & H).
  exists b, w'. split; [|done].
  eapply bind_run; [reflexivity|]. cbn. by rewrite He.
Qed.

Lemma spec_bind_ret e attrs self {A B} (F : World -> Prop) (a : A)
    (f : A -> M B) (R : B -> World -> Prop) :
  spec e attrs self F (f a) R -> spec e attrs self F (bind (ret a) f) R.
Proof.
  intros Hf w He Hr HF. destruct (Hf w He Hr HF) as (b & w' & R' & H).
  exists b, w'. split; [|done]. by eapply bind_run.
Qed.

Lemma spec_getattr e attrs self {B} (F : World -> Prop) d name v
    (f : Value -> M B) (R : B -> World -> Prop) :
  dict_get d name = Some v ->
  spec e attrs self F (f v) R ->
  spec e attrs self F (bind (getattr d name) f) R.
Proof.
  intros Hd Hf. unfold getattr. rewrite Hd. by apply spec_bind_ret.
Qed.

(** The constructor of a menu class. *)
Lemma init_creates e attrs0 build parent name path :
  str_eqb name "" = false ->
  Menu._createMenuPathName name = Ok path ->
  Forall (fun kv => kv.2 = []) attrs0 ->
  (forall self, spec e (dict_keys attrs0) self (fun _ => True) (build self)
                  (fun _ _ => True)) ->
  creates e
    (fun w => match parent with
              | MenuW p => is_Some (menus w !! p)
              | _ => True
              end)
    (Menu.__init__ attrs0 build parent name) name.
Proof.
  intros Hne Hp Hattrs Hbuild w He HF.
  unfold Menu.__init__. rewrite Hne.
  set (prefix := match parent with
                 | MenuW p => match menus w !! p with
                              | Some pm => m_menuPath pm +:+ "__"
                              | None => ""
                              end
                 | _ => ""
                 end).
  assert (Hprefix :
    match parent with
    | MenuW p => bind (get_menu p) (fun pm => ret (m_menuPath pm +:+ "__"))
    | _ => ret ""
    end w = Ok (prefix, w)).
  { unfold prefix. destruct parent as [|p|]; try done.
    destruct HF as [pm Hpm]. rewrite Hpm.
    eapply bind_run; [by apply get_menu_run|]. done. }
  set (self := length (menus w)).
  assert (Hnew : exists w1,
    new_menu parent name (prefix +:+ path) attrs0 w = Ok (self, w1) /\
    menus w1 = menus w ++
      [{| m_title := name; m_parent := parent;
          m_menuAction := length (actions w); m_actions := [];
          m_menuPath := prefix +:+ path; m_groups := [];
          m_attrs := attrs0 |}] /\
    length (actions w1) = S (length (actions w)) /\
    env w1 = env w /\ config_shortcuts w1 = config_shortcuts w /\
    menuBar_actions w1 = menuBar_actions w /\ menuBar_menus w1 = menuBar_menus w).
  { eexists. split; [reflexivity|]. cbn. rewrite length_app. cbn.
    repeat split; try done. lia. }
  destruct Hnew as (w1 & Hnew & Hmenus1 & Hlen1 & N1 & N2 & N3 & N4).
  assert (Hself1 : menus w1 !! self = Some
            {| m_title := name; m_parent := parent;
               m_menuAction := length (actions w); m_actions := [];
               m_menuPath := prefix +:+ path; m_groups := [];
               m_attrs := attrs0 |}).
  { rewrite Hmenus1. apply lookup_snoc. }
  destruct (Hbuild self w1) as ([] & w' & R & Hr' & E & _); try done;
    [congruence| |].
  { eexists. split; [exact Hself1|]. cbn. split; [|split].
    - intros k Hk. destruct (dict_keys_get attrs0 k Hk) as [l Hl]. eauto.
    - intros k l Hl. assert (l = []) as ->; [|constructor].
      clear -Hattrs Hl. induction attrs0 as [|[k0 l0] d IH]; [done|].
      cbn in Hl. inversion Hattrs as [|? ? H1 H2]; subst. cbn in H1. subst.
      destruct (str_eqb k0 k); [congruence | auto].
    - done. }
  exists self, w'. split.
  - eapply bind_run; [exact Hprefix|].
    eapply bind_run; [unfold lift; by rewrite Hp|].
    eapply bind_run; [exact Hnew|].
    eapply bind_run; [exact R|]. reflexivity.
  - split; [done|].
    destruct E as (E1 & E2 & E3 & E4 & E5 & E6 & E7). split.
    + repeat split; try congruence; try lia.
      intros i m Hm. apply E6.
      * apply lookup_lt_Some in Hm. unfold self. lia.
      * rewrite Hmenus1. by apply lookup_app_l_Some.
    + destruct (E7 _ Hself1) as (m' & Hm' & T & _). eauto.
Qed.

(** A constructor that connects a signal after [Menu.__init__]. *)
Lemma creates_connect e F m name signal (slot : menu_id -> Callback) :
  creates e F m name ->
  creates e F (bind m (fun self =>
                 bind (connect signal (slot self)) (fun _ => ret self))) name.
Proof.
  intros Hm w He HF. destruct (Hm w He HF) as (self & w' & R & Hs & G & mo & Hmo & T).
  eexists self, _. split.
  - eapply bind_run; [exact R|]. reflexivity.
  - split; [done|]. split; [|by exists mo].
    eapply grows_trans; [exact G|]. by repeat split.
Qed.

(** A submenu made while the menu [self] is built. *)
Lemma spec_new_sub e attrs self (F : World -> Prop) m name :
  creates e (fun w => is_Some (menus w !! self)) m name ->
  spec e attrs self F m (fun sub w => is_Some (menus w !! sub)).
Proof.
  intros Hm w He Hr HF. pose proof Hr as (mo & Hmo & _).
  destruct (Hm w He) as (sub & w' & R & Hs & G & so & Hso & _); [eauto|].
  exists sub, w'. split; [done|]. split; [by eapply grows_ready|].
  split; [by apply grows_ext | eauto].
Qed.

Lemma spec_keep e attrs self {A} (F G : World -> Prop) (m : M A)
    (Q : A -> World -> Prop) :
  stable self G -> (forall w, F w -> G w) ->
  spec e attrs self F m Q -> spec e attrs self F m (fun a w => Q a w /\ G w).
Proof.
  intros HG HF Hm w He Hr Hw.
  destruct (Hm w He Hr Hw) as (a & w' & R & Hr' & E & Q1).
  exists a, w'. split; [done|]. split; [done|]. split; [done|].
  split; [done|]. eapply HG; eauto.
Qed.

Lemma spec_forM_valid e attrs self (F : World -> Prop) (l : list action_id)
    (f : action_id -> M unit) :
  stable self F ->
  (forall w, F w -> valid_ids w l) ->
  (forall x, (forall w, F w -> x < length (actions w)) ->
             spec e attrs self F (f x) (fun _ _ => True)) ->
  spec e attrs self F (forM_ l f) (fun _ _ => True).
Proof.
  intros HS Hl Hf. apply spec_forM_; [done|].
  apply Forall_forall. intros x Hx. apply Hf. intros w HF.
  specialize (Hl w HF). unfold valid_ids in Hl.
  rewrite Forall_forall in Hl. by apply Hl.
Qed.

Lemma spec_forM_group e attrs self {A} (F : World -> Prop) (l : list A)
    (f : A -> M unit) g :
  stable self F -> l <> [] ->
  Forall (fun x => spec e attrs self F (f x) (fun _ w => has_group self g w)) l ->
  spec e attrs self F (forM_ l f) (fun _ w => has_group self g w).
Proof.
  intros HS Hne Hl0. destruct l as [|x l]; [done|].
  apply Forall_cons in Hl0 as [Hx Hl]. cbn [forM_].
  eapply spec_bind; [done | exact Hx |]. intros u. cbn beta.
  eapply (spec_conseq e attrs self _ (fun w => F w /\ has_group self g w) _
            _ (fun a w => True /\ has_group self g w)).
  - done.
  - by intros a w [_ ?].
  - apply spec_keep.
    + apply stable_has_group.
    + by intros w [_ ?].
    + apply spec_forM_.
      * apply stable_and; [done | apply stable_has_group].
      * eapply Forall_impl; [exact Hl|]. intros y Hy. cbn.
        eapply spec_conseq; [| |exact Hy]; [by intros w [? ?] | done].
Qed.

Lemma sort_insert_Forall (P : string -> Prop) x l :
  P x -> Forall P l -> Forall P (sort_insert x l).
Proof.
  intros Hx Hl. induction Hl as [|y l Hy Hl IH]; cbn.
  - by repeat constructor.
  - destruct (str_leb x y); by repeat constructor.
Qed.

Lemma str_sort_Forall (P : string -> Prop) l :
  Forall P l -> Forall P (str_sort l).
Proof.
  intros Hl. unfold str_sort. induction Hl as [|x l Hx Hl IH]; cbn; [done|].
  by apply sort_insert_Forall.
Qed.

Lemma sort_insert_nonempty x l : sort_insert x l <> [].
Proof. destruct l as [|y l]; cbn; [done|]. by destruct (str_leb x y). Qed.

Lemma str_sort_snoc_nonempty l x : str_sort (l ++ [x]) <> [].
Proof.
  unfold str_sort. destruct l as [|y l]; cbn; [done|]. apply sort_insert_nonempty.
Qed.

(** A text that starts with neither a bracket nor a space has a path name. *)
Lemma createMenuPathName_head c r :
  c <> "("%char -> c <> " "%char ->
  exists p, Menu._createMenuPathName (String c r) = Ok p.
Proof.
  intros H1 H2. unfold Menu._createMenuPathName, re_sub_brackets.
  cbn [sub_brackets_from].
  assert (char_eqb c "(" = false) as -> by (by apply Ascii.eqb_neq).
  unfold str_replace. cbn [replace_from strip_prefix].
  assert (char_eqb " " c = false) as ->.
  { apply Ascii.eqb_neq. congruence. }
  cbn [str_head res_bind]. eauto.
Qed.

Ltac solve_stable :=
  repeat apply stable_and;
  first [ apply stable_True | apply stable_valid | apply stable_valid_ids
        | apply stable_menu | apply stable_has_group ].

Ltac path_name text :=
  let r := eval vm_compute in (Menu._createMenuPathName text) in
  lazymatch r with
  | Ok ?n => exact (eq_refl : Menu._createMenuPathName text = Ok n)
  end.

Ltac item :=
  lazymatch goal with
  | |- spec _ _ _ _ (Menu.addItem _ (PText ?t) _ _) _ =>
      eapply addItem_spec; path_name t
  | |- spec _ _ _ _ (Menu.addCheckItem _ (PText ?t) _ _ _) _ =>
      eapply addCheckItem_spec; path_name t
  | |- spec _ _ _ _ (Menu.addGroupItem _ (PText ?t) _ _ _ _) _ =>
      eapply addGroupItem_spec; path_name t
  | |- spec _ _ _ _ (addSeparator _) _ => apply addSeparator_spec
  | |- spec _ _ _ _ (connect _ _) _ => apply connect_spec
  end.

Ltac fact :=
  let w := fresh "w" in let H := fresh "H" in
  intros w H; cbn beta in *;
  repeat match goal with
         | H : _ /\ _ |- _ => destruct H
         end;
  unfold valid_ids in *;
  first [ assumption | done
        | by repeat (first [apply Forall_app_2 | constructor]) ].

Ltac gitem :=
  lazymatch goal with
  | |- spec _ _ _ _ (Menu.addGroupItem _ (PText ?t) _ _ _ _) _ =>
      eapply addGroupItem_spec; path_name t
  end.

Lemma spec_post e attrs self {A} (F : World -> Prop) (m : M A)
    (Q Q' : A -> World -> Prop) :
  (forall a w, Q' a w -> Q a w) ->
  spec e attrs self F m Q' -> spec e attrs self F m Q.
Proof. intros HQ. by apply spec_conseq. Qed.

Ltac vitem :=
  first [ item
        | eapply spec_post; [|item]; by intros ? ? [? ?] ].

Ltac step := eapply spec_seq; [solve_stable | vitem |].
Tactic Notation "bind_step" "as" ident(a) :=
  eapply spec_bind; [solve_stable | vitem | intros a; cbn beta].
Lemma spec_ret_True e attrs self {A} (F : World -> Prop) (a : A) :
  spec e attrs self F (ret a) (fun _ _ => True).
Proof. by apply spec_ret. Qed.

Ltac finish := apply spec_ret_True.

Lemma IndentationMenu_build_spec e self :
  spec e ["_items"] self (fun _ => True) (IndentationMenu.build self)
    (fun _ _ => True).
Proof.
  unfold IndentationMenu.build.
  bind_step as a1. bind_step as a2.
  eapply spec_seq; [solve_stable | apply set_attr_spec; fact |].
  step.
  eapply spec_bind; [solve_stable | | intros more; cbn beta].
  { apply spec_mapM; [solve_stable|]. repeat constructor; cbn beta; vitem. }
  eapply spec_bind; [solve_stable | apply get_attr_spec; by left
                    | intros items; cbn beta].
  eapply spec_seq; [solve_stable | apply set_attr_spec; fact |].
  unfold IndentationMenu.setEnabled.
  eapply spec_bind; [solve_stable | apply get_attr_spec; by left
                    | intros items'; cbn beta].
  apply spec_forM_valid; [solve_stable | fact |].
  intros x Hx. cbn [negb].
  eapply spec_seq; [solve_stable | by apply action_setEnabled_spec
                   | by apply setChecked_spec].
Qed.

Lemma IndentationMenu_creates e parent name path :
  str_eqb name "" = false ->
  Menu._createMenuPathName name = Ok path ->
  creates e
    (fun w => match parent with MenuW p => is_Some (menus w !! p) | _ => True end)
    (IndentationMenu.new parent name) name.
Proof.
  intros Hne Hp. unfold IndentationMenu.new.
  apply (creates_connect e _ _ name "iep.editors.currentChanged"
           (fun self => Method self "onEditorsCurrentChanged")).
  eapply init_creates; [done | exact Hp | by repeat constructor |].
  apply IndentationMenu_build_spec.
Qed.

Lemma FileMenu_build_spec e self :
  spec e [] self (fun _ => True) (FileMenu.build self) (fun _ _ => True).
Proof.
  unfold FileMenu.build.
  repeat step.
  eapply spec_bind; [solve_stable | | intros sub; cbn beta].
  { apply (spec_new_sub e [] self _ _ "Indentation").
    by eapply (IndentationMenu_creates e (MenuW self)). }
  eapply spec_seq; [solve_stable | apply addMenu_spec; fact |].
  repeat step. finish.
Qed.

Lemma EditMenu_build_spec e self :
  spec e [] self (fun _ => True) (EditMenu.build self) (fun _ _ => True).
Proof. unfold EditMenu.build. cbv zeta. repeat step. finish. Qed.

Lemma RunMenu_build_spec e self :
  spec e [] self (fun _ => True) (RunMenu.build self) (fun _ _ => True).
Proof. unfold RunMenu.build. cbv zeta. repeat step. finish. Qed.

Lemma ToolsMenu_build_spec e self :
  spec e ["_toolActions"] self (fun _ => True) (ToolsMenu.build self)
    (fun _ _ => True).
Proof. unfold ToolsMenu.build. repeat step. apply connect_spec. Qed.

Lemma HelpMenu_build_spec e self :
  spec e [] self (fun _ => True) (HelpMenu.build self) (fun _ _ => True).
Proof.
  unfold HelpMenu.build, HelpMenu.addUrlItem.
  do 3 (eapply spec_seq; [solve_stable | step; finish |]).
  repeat step. finish.
Qed.

Lemma EdgeColumnMenu_build_spec e self :
  env_ok e ->
  spec e [] self (fun _ => True) (EdgeColumnMenu.build self) (fun _ _ => True).
Proof.
  intros ([v Hv] & _). unfold EdgeColumnMenu.build. cbv zeta.
  eapply spec_bind; [solve_stable | gitem | intros a0; cbn beta].
  eapply spec_seq; [solve_stable | |].
  { apply spec_forM_; [solve_stable|].
    repeat constructor; cbn beta; step; finish. }
  apply spec_gets_env. eapply spec_getattr; [exact Hv|].
  apply setCheckedOption_spec. fact.
Qed.

Lemma QtThemeMenu_build_spec e self :
  env_ok e ->
  spec e [] self (fun _ => True) (QtThemeMenu.build self) (fun _ _ => True).
Proof.
  intros (_ & [s Hs] & _ & _ & _ & Hstyles). unfold QtThemeMenu.build.
  apply (spec_gets_env e [] self _ styleKeys).
  apply (spec_gets_env e [] self _ defaultQtStyleName).
  cbv zeta.
  eapply spec_bind; [solve_stable | | intros u; cbn beta].
  { apply (spec_forM_group e [] self _ _ _ (VStr "style"));
      [solve_stable | apply str_sort_snoc_nonempty |].
    apply str_sort_Forall. apply Forall_app_2.
    - eapply Forall_impl; [exact Hstyles|]. intros k [p Hp]. cbn beta.
      eapply spec_bind; [solve_stable | | intros a].
      + eapply addGroupItem_spec. exact Hp.
      + apply spec_ret. by intros w [_ [_ ?]].
    - repeat constructor.
      assert (Hc : exists p, Menu._createMenuPathName
                    (style_title (defaultQtStyleName e) "Cleanlooks+") = Ok p).
      { unfold style_title.
        destruct (str_eqb _ _); [exists "cleanlooks_" | exists "cleanlooks"];
          vm_compute; reflexivity. }
      destruct Hc as [p Hp].
      eapply spec_bind; [solve_stable | | intros a].
      + eapply addGroupItem_spec. exact Hp.
      + apply spec_ret. by intros w [_ [_ ?]]. }
  apply spec_gets_env. eapply spec_getattr; [exact Hs|].
  cbn [value_lower]. apply spec_bind_ret.
  apply setCheckedOption_spec. fact.
Qed.

Lemma EdgeColumnMenu_creates e parent name path :
  env_ok e -> str_eqb name "" = false ->
  Menu._createMenuPathName name = Ok path ->
  creates e
    (fun w => match parent with MenuW p => is_Some (menus w !! p) | _ => True end)
    (EdgeColumnMenu.new parent name) name.
Proof.
  intros He Hne Hp. eapply init_creates; [done | exact Hp | done |].
  intros self. by apply EdgeColumnMenu_build_spec.
Qed.

Lemma QtThemeMenu_creates e parent name path :
  env_ok e -> str_eqb name "" = false ->
  Menu._createMenuPathName name = Ok path ->
  creates e
    (fun w => match parent with MenuW p => is_Some (menus w !! p) | _ => True end)
    (QtThemeMenu.new parent name) name.
Proof.
  intros He Hne Hp. eapply init_creates; [done | exact Hp | done |].
  intros self. by apply QtThemeMenu_build_spec.
Qed.

Ltac editor_item :=
  eapply spec_seq;
  [ solve_stable
  | unfold ViewMenu.addEditorItem; apply spec_gets_env; cbv zeta; step; finish
  | ].

Lemma ViewMenu_build_spec e self :
  env_ok e ->
  spec e [] self (fun _ => True) (ViewMenu.build self) (fun _ _ => True).
Proof.
  intros He. unfold ViewMenu.build.
  repeat step. repeat editor_item. step. repeat editor_item. step.
  eapply spec_bind; [solve_stable | | intros edge; cbn beta].
  { apply (spec_new_sub e [] self _ _ "Edge column").
    by eapply (EdgeColumnMenu_creates e (MenuW self)). }
  eapply spec_seq; [solve_stable | apply addMenu_spec; fact |].
  eapply spec_bind; [solve_stable | | intros theme; cbn beta].
  { apply (spec_new_sub e [] self _ _ "Qt theme").
    by eapply (QtThemeMenu_creates e (MenuW self)). }
  eapply spec_seq; [solve_stable | apply addMenu_spec; fact |].
  finish.
Qed.

Lemma addBoolSetting_spec e attrs self F text key callback name :
  stable self F ->
  is_Some (dict_get (config_settings e) key) ->
  Menu._createMenuPathName text = Ok name ->
  spec e attrs self F (SettingsMenu.addBoolSetting self (PText text) key callback)
    (fun _ _ => True).
Proof.
  intros HS [v Hv] Hn. unfold SettingsMenu.addBoolSetting. cbv zeta.
  apply spec_gets_env. eapply spec_getattr; [exact Hv|].
  eapply spec_seq; [done | eapply addCheckItem_spec; exact Hn | apply spec_ret_True].
Qed.

Ltac bool_setting H :=
  eapply spec_seq;
  [ solve_stable
  | lazymatch goal with
    | |- spec _ _ _ _ (SettingsMenu.addBoolSetting _ (PText ?t) _ _) _ =>
        eapply addBoolSetting_spec; [solve_stable | exact H | path_name t]
    end
  | ].

Lemma SettingsMenu_build_spec e self :
  env_ok e ->
  spec e [] self (fun _ => True) (SettingsMenu.build self) (fun _ _ => True).
Proof.
  intros (_ & _ & H1 & H2 & H3 & _). unfold SettingsMenu.build.
  bool_setting H1. bool_setting H2. bool_setting H3.
  repeat step. finish.
Qed.

Lemma updateShells_spec e self F :
  stable self F ->
  spec e ["_shellCreateActions"; "_shellActions"] self F
    (ShellMenu.updateShells self) (fun _ _ => True).
Proof.
  intros HS. unfold ShellMenu.updateShells.
  eapply spec_bind; [done | apply get_attr_spec; by left | intros old; cbn beta].
  eapply spec_seq; [by apply stable_and; [|apply stable_valid_ids] | |].
  { apply spec_forM_; [by apply stable_and; [|apply stable_valid_ids]|].
    apply Forall_forall. intros x _. apply removeAction_spec. }
  apply spec_gets_env.
  eapply spec_bind; [by apply stable_and; [|apply stable_valid_ids] |
                    | intros created; cbn beta].
  { apply spec_mapM; [by apply stable_and; [|apply stable_valid_ids]|].
    apply Forall_forall. intros [i name] _.
    destruct (createMenuPathName_head "C"
                ("reate shell " +:+ str_of_Z (i + 1) +:+ ": (" +:+ name +:+ ")"))
      as [p Hp]; [done..|].
    eapply addItem_spec. exact Hp. }
  apply set_attr_spec. by intros w [_ ?].
Qed.

Lemma ShellMenu_build_spec e self :
  spec e ["_shellCreateActions"; "_shellActions"] self (fun _ => True)
    (ShellMenu.build false self) (fun _ _ => True).
Proof.
  unfold ShellMenu.build. cbv zeta.
  bind_step as a1. bind_step as a2. bind_step as a3. bind_step as a4.
  eapply spec_seq; [solve_stable | apply set_attr_spec; fact |].
  cbn [negb]. do 2 step.
  apply updateShells_spec. solve_stable.
Qed.

(** The eight constructors of [buildMenus]. *)
Lemma FileMenu_creates e : creates e (fun _ => True) (FileMenu.new MenuBarW "File") "File".
Proof.
  eapply (init_creates e [] _ MenuBarW "File"); [done | path_name "File" | done |].
  apply FileMenu_build_spec.
Qed.

Lemma EditMenu_creates e : creates e (fun _ => True) (EditMenu.new MenuBarW "Edit") "Edit".
Proof.
  eapply (init_creates e [] _ MenuBarW "Edit"); [done | path_name "Edit" | done |].
  apply EditMenu_build_spec.
Qed.

Lemma ViewMenu_creates e :
  env_ok e -> creates e (fun _ => True) (ViewMenu.new MenuBarW "View") "View".
Proof.
  intros He.
  eapply (init_creates e [] _ MenuBarW "View"); [done | path_name "View" | done |].
  intros self. by apply ViewMenu_build_spec.
Qed.

Lemma SettingsMenu_creates e :
  env_ok e ->
  creates e (fun _ => True) (SettingsMenu.new MenuBarW "Settings") "Settings".
Proof.
  intros He.
  eapply (init_creates e [] _ MenuBarW "Settings");
    [done | path_name "Settings" | done |].
  intros self. by apply SettingsMenu_build_spec.
Qed.

Lemma ShellMenu_creates e :
  creates e (fun _ => True) (ShellMenu.new MenuBarW "Shell") "Shell".
Proof.
  unfold ShellMenu.new, ShellMenu.init.
  apply (creates_connect e _ _ "Shell" "iep.shells.currentShellChanged"
           (fun self => Method self "onCurrentShellChanged")).
  eapply (init_creates e _ _ MenuBarW "Shell");
    [done | path_name "Shell" | by repeat constructor |].
  apply ShellMenu_build_spec.
Qed.

Lemma RunMenu_creates e : creates e (fun _ => True) (RunMenu.new MenuBarW "Run") "Run".
Proof.
  eapply (init_creates e [] _ MenuBarW "Run"); [done | path_name "Run" | done |].
  apply RunMenu_build_spec.
Qed.

Lemma ToolsMenu_creates e :
  creates e (fun _ => True) (ToolsMenu.new MenuBarW "Tools") "Tools".
Proof.
  eapply (init_creates e _ _ MenuBarW "Tools");
    [done | path_name "Tools" | by repeat constructor |].
  apply ToolsMenu_build_spec.
Qed.

Lemma HelpMenu_creates e : creates e (fun _ => True) (HelpMenu.new MenuBarW "Help") "Help".
Proof.
  eapply (init_creates e [] _ MenuBarW "Help"); [done | path_name "Help" | done |].
  apply HelpMenu_build_spec.
Qed.

Lemma grows_titled w w' m title : grows w w' -> titled w m title -> titled w' m title.
Proof.
  intros (_ & _ & _ & _ & _ & H) (mo & Hmo & T). exists mo. auto.
Qed.

Lemma creates_next e m name w :
  creates e (fun _ => True) m name -> env w = e ->
  exists self w', m w = Ok (self, w') /\ env w' = e /\
    self = length (menus w) /\ self < length (menus w') /\
    grows w w' /\ titled w' self name.
Proof.
  intros Hc He. destruct (Hc w He I) as (self & w' & R & Hs & G & mo & Hmo & T).
  exists self, w'. split; [done|]. split; [destruct G as (-> & _); done|].
  split; [done|]. split; [by eapply lookup_lt_Some|]. split; [done|].
  by exists mo.
Qed.

Lemma addMenus_run ms : forall w,
  Forall (fun m => is_Some (menus w !! m)) ms ->
  exists w' acts,
    forM_ ms menuBar_addMenu w = Ok (tt, w') /\
    menus w' = menus w /\ menuBar_menus w' = menuBar_menus w /\
    menuBar_actions w' = menuBar_actions w ++ acts /\
    Forall2 (menu_action w) ms acts.
Proof.
  induction ms as [|m ms IH]; intros w Hms.
  - exists w, []. split; [done|]. rewrite app_nil_r. repeat split; done.
  - apply Forall_cons in Hms as [[mo Hmo] Hms].
    set (w1 := with_menuBar_actions (menuBar_actions w ++ [m_menuAction mo]) w).
    destruct (IH w1 Hms) as (w' & acts & R & E1 & E2 & E3 & E4).
    exists w', (m_menuAction mo :: acts). split.
    + cbn [forM_]. eapply bind_run; [|exact R].
      unfold menuBar_addMenu. eapply bind_run; [by apply get_menu_run|]. done.
    + split; [done|]. split; [done|]. split.
      * rewrite E3. cbn. by rewrite <- app_assoc.
      * constructor; [by exists mo | done].
Qed.

(** C6.  [buildMenus] returns; it makes eight new menus titled File,
    Edit, View, Settings, Shell, Run, Tools and Help, in that order,
    adds the action of each to the menu bar in the same order, and
    keeps the list of the eight in [menuBar._menus]. *)
Theorem buildMenus_eight_menus (w : World) :
  env_ok (env w) ->
  exists w' ms acts,
    buildMenus w = Ok (tt, w') /\
    Forall (fun m => menus w !! m = None) ms /\ NoDup ms /\
    Forall2 (titled w') ms
      ["File"; "Edit"; "View"; "Settings"; "Shell"; "Run"; "Tools"; "Help"] /\
    menuBar_actions w' = menuBar_actions w ++ acts /\
    Forall2 (menu_action w') ms acts /\
    menuBar_menus w' = Some ms.
Proof.
  intros He. set (e := env w) in *.
  destruct (creates_next e _ _ w (FileMenu_creates e) eq_refl)
    as (m1 & w1 & R1 & E1 & S1 & L1 & G1 & T1).
  destruct (creates_next e _ _ w1 (EditMenu_creates e) E1)
    as (m2 & w2 & R2 & E2 & S2 & L2 & G2 & T2).
  destruct (creates_next e _ _ w2 (ViewMenu_creates e He) E2)
    as (m3 & w3 & R3 & E3 & S3 & L3 & G3 & T3).
  destruct (creates_next e _ _ w3 (SettingsMenu_creates e He) E3)
    as (m4 & w4 & R4 & E4 & S4 & L4 & G4 & T4).
  destruct (creates_next e _ _ w4 (ShellMenu_creates e) E4)
    as (m5 & w5 & R5 & E5 & S5 & L5 & G5 & T5).
  destruct (creates_next e _ _ w5 (RunMenu_creates e) E5)
    as (m6 & w6 & R6 & E6 & S6 & L6 & G6 & T6).
  destruct (creates_next e _ _ w6 (ToolsMenu_creates e) E6)
    as (m7 & w7 & R7 & E7 & S7 & L7 & G7 & T7).
  destruct (creates_next e _ _ w7 (HelpMenu_creates e) E7)
    as (m8 & w8 & R8 & E8 & S8 & L8 & G8 & T8).
  set (ms := [m1; m2; m3; m4; m5; m6; m7; m8]).
  (* the titles, in the last world *)
  assert (Ht : Forall2 (titled w8) ms
                 ["File"; "Edit"; "View"; "Settings"; "Shell"; "Run"; "Tools"; "Help"]).
  { repeat constructor;
      repeat (first [assumption | eapply grows_titled; [eassumption|]]). }
  destruct (addMenus_run ms w8) as (w9 & acts & R9 & M9 & B9 & A9 & Hacts).
  { eapply Forall2_Forall_l; [exact Ht|]. apply Forall_true.
    intros title m (mo & Hmo & _). eauto. }
  assert (Hbar : menuBar_actions w8 = menuBar_actions w).
  { destruct G1 as (_ & _ & B1 & _), G2 as (_ & _ & B2 & _),
      G3 as (_ & _ & B3 & _), G4 as (_ & _ & B4 & _), G5 as (_ & _ & B5 & _),
      G6 as (_ & _ & B6 & _), G7 as (_ & _ & B7 & _), G8 as (_ & _ & B8 & _).
    congruence. }
  exists (with_menuBar_menus (Some ms) w9), ms, acts. split.
  { unfold buildMenus.
    eapply bind_run; [exact R1|]. eapply bind_run; [exact R2|].
    eapply bind_run; [exact R3|]. eapply bind_run; [exact R4|].
    eapply bind_run; [exact R5|]. eapply bind_run; [exact R6|].
    eapply bind_run; [exact R7|]. eapply bind_run; [exact R8|].
    cbv zeta. fold ms. eapply bind_run; [exact R9|]. reflexivity. }
  split.
  { unfold ms. repeat constructor; apply lookup_ge_None; lia. }
  split.
  { unfold ms.
    repeat (apply NoDup_cons; split;
            [rewrite ?not_elem_of_cons; repeat split; first [lia | apply not_elem_of_nil]|]).
    apply NoDup_nil_2. }
  cbn [menus menuBar_actions menuBar_menus with_menuBar_menus].
  split.
  { eapply Forall2_impl; [exact Ht|]. intros m t (mo & Hmo & T).
    exists mo. cbn [menus with_menuBar_menus]. by rewrite M9. }
  split; [by rewrite A9, Hbar|].
  split; [|done].
  eapply Forall2_impl; [exact Hacts|]. intros m a (mo & Hmo & T).
  exists mo. cbn [menus with_menuBar_menus]. by rewrite M9.
Qed.

Lemma buildMenus_eight_menus_witness : builds_eight_menus start_app.
Proof.
  apply (buildMenus_eight_menus start_app).
  split; [by eexists|]. split; [by eexists|].
  split; [by eexists|]. split; [by eexists|]. split; [by eexists|].
  repeat constructor.
  - exists "windows". vm_compute. reflexivity.
  - exists "plastique_". vm_compute. reflexivity.
Defined.

(** ** Where the code departs from its documentation *)

(** C2.  The two computations of the path name of an action differ.
    After [buildMenus], the item "2 spaces" of File > Indentation, made
    by [addGroupItem], has the [menuPath] "file__indentation___2_spaces",
    each component normalised on its own by [_createMenuPathName], while
    [getFullName] of the same action, which normalises the joined titles
    at once, returns "file__indentation__2_spaces". *)
Theorem getFullName_differs_from_menuPath :
  exists w' act,
    buildMenus start_app = Ok (tt, w') /\
    actions w' !! 13 = Some act /\
    a_text act = "2 spaces" /\
    a_menuPath act = Some "file__indentation___2_spaces" /\
    getFullName w' 13 = Ok "file__indentation__2_spaces".
Proof.
  eexists _, _. split; [vm_compute; reflexivity|].
  split; [vm_compute; reflexivity|].
  split; [reflexivity|]. split; [reflexivity|].
  vm_compute. reflexivity.
Qed.

(** C4.  [getShortcut] does not always return two strings.  Accepting
    the shortcut "Ctrl+," as primary shortcut of "edit__copy" stores the
    string "Ctrl+,,", and [getShortcut] then returns the three strings
    "Ctrl+", "" and "". *)
Theorem getShortcut_three_parts :
  exists self' w',
    KeyMapEditDialog.onAccept (dialog_for "edit__copy" "Ctrl+," true)
      (config_world []) = Ok (self', w') /\
    config_shortcuts w' = [("edit__copy", "Ctrl+,,")] /\
    getShortcut w' (FullName "edit__copy") = Ok ["Ctrl+"; ""; ""].
Proof.
  eexists _, _. split; [vm_compute; reflexivity|].
  split; [reflexivity|]. vm_compute. reflexivity.
Qed.

(** * Further properties *)

(** ** Path names *)

Lemma replace_char_cons c new d r :
  str_replace (String c "") new (String d r)
  = if char_eqb c d then new +:+ str_replace (String c "") new r
    else String d (str_replace (String c "") new r).
Proof.
  unfold str_replace. cbn [replace_from strip_prefix String.length Nat.sub].
  by destruct (char_eqb c d).
Qed.

Lemma replace_char_app c new a b :
  str_replace (String c "") new (a +:+ b)
  = str_replace (String c "") new a +:+ str_replace (String c "") new b.
Proof.
  induction a as [|d a IH]; [done|].
  rewrite str_app_cons, !replace_char_cons, IH.
  destruct (char_eqb c d); [by rewrite str_app_assoc | done].
Qed.

Lemma replace_char_nonempty c new s :
  new <> "" -> s <> "" -> str_replace (String c "") new s <> "".
Proof.
  intros Hn Hs. destruct s as [|d r]; [done|]. rewrite replace_char_cons.
  destruct (char_eqb c d); [|done]. destruct new; [done|]. by rewrite str_app_cons.
Qed.

Lemma str_head_cons c r : str_head (String c r) = Ok c.
Proof. reflexivity. Qed.

Lemma str_head_nil : str_head "" = Raise IndexError.
Proof. reflexivity. Qed.

Lemma re_sub_invalid_valid s :
  str_forall valid_name_char (re_sub_invalid None s) = true.
Proof.
  induction s as [|c r IH]; [done|]. cbn [re_sub_invalid].
  destruct (valid_name_char c) eqn:E; [|done]. cbn [str_forall]. by rewrite E.
Qed.

Lemma lower_valid_path_char c :
  valid_name_char c = true -> path_char (lower_char c) = true.
Proof. destruct c as [[] [] [] [] [] [] [] []]; vm_compute; done. Qed.

Lemma str_lower_path_chars s :
  str_forall valid_name_char s = true -> str_forall path_char (str_lower s) = true.
Proof.
  induction s as [|c r IH]; [done|]. cbn [str_forall str_lower].
  intros [Hc Hr]%andb_prop. by rewrite lower_valid_path_char, IH.
Qed.

(** X1.  [_createMenuPathName] fails in one way only, with the
    [IndexError] of [name[0]], and exactly when nothing is left of the
    name once the text between brackets is taken out.  Otherwise it
    returns a name made of small letters, digits, underscores and the
    characters from "[" to "`" only: no capital, no space. *)
Theorem createMenuPathName_result (name : string) :
  match Menu._createMenuPathName name with
  | Ok p => re_sub_brackets name <> "" /\ str_forall path_char p = true
  | Raise e => e = IndexError /\ re_sub_brackets name = ""
  end.
Proof.
  unfold Menu._createMenuPathName.
  destruct (re_sub_brackets name) as [|c0 r0] eqn:E; [done|].
  pose proof (replace_char_nonempty " " "_" (String c0 r0)
                ltac:(done) ltac:(done)) as H.
  destruct (str_replace " " "_" (String c0 r0)) as [|c r]; [done|].
  rewrite str_head_cons. cbn [res_bind]. split; [done|].
  apply str_lower_path_chars, re_sub_invalid_valid.
Qed.

(** The path name of a text that needs no bracket or prefix treatment. *)
Lemma sub_brackets_none s :
  str_contains "(" s = false -> re_sub_brackets s = s.
Proof.
  unfold re_sub_brackets. induction s as [|c r IH]; [done|].
  cbn [str_contains sub_brackets_from]. intros [Hc Hr]%orb_false_elim.
  rewrite Hc. by rewrite IH.
Qed.

Lemma re_sub_invalid_app a b :
  re_sub_invalid None (a +:+ b) = re_sub_invalid None a +:+ re_sub_invalid None b.
Proof.
  induction a as [|c a IH]; [done|]. rewrite str_app_cons. cbn [re_sub_invalid].
  destruct (valid_name_char c); [|done]. by rewrite str_app_cons, IH.
Qed.

Lemma re_sub_invalid_count n s :
  String.length s <= n -> re_sub_invalid (Some n) s = re_sub_invalid None s.
Proof.
  revert n. induction s as [|c r IH]; intros n Hn; [done|].
  cbn [re_sub_invalid]. cbn [String.length] in Hn.
  destruct (valid_name_char c).
  - f_equal. apply IH. lia.
  - destruct n as [|n]; [lia|]. apply IH. lia.
Qed.

Lemma str_lower_app a b : str_lower (a +:+ b) = str_lower a +:+ str_lower b.
Proof.
  induction a as [|c a IH]; [done|]. rewrite str_app_cons. cbn [str_lower].
  by rewrite str_app_cons, IH.
Qed.

Lemma replace_space_length s : String.length (str_replace " " "_" s) = String.length s.
Proof.
  induction s as [|c r IH]; [done|]. rewrite replace_char_cons.
  destruct (char_eqb " " c); [rewrite str_app_cons, str_app_nil|];
    cbn [String.length]; by rewrite IH.
Qed.

Lemma plain_text_inv t :
  plain_text t = true ->
  str_contains "(" t = false /\
  exists c r, t = String c r /\ str_contains c "0123456789_ " = false.
Proof.
  unfold plain_text. intros [H1 H2]%andb_prop. split.
  - by destruct (str_contains "(" t).
  - destruct t as [|c r]; [done|]. exists c, r. split; [done|].
    by destruct (str_contains c "0123456789_ ").
Qed.

Lemma plain_head c :
  str_contains c "0123456789_ " = false ->
  char_eqb " " c = false /\ str_contains c "0123456789_" = false /\
  str_contains c "0123456789" = false.
Proof. destruct c as [[] [] [] [] [] [] [] []]; vm_compute; done. Qed.

Lemma plain_text_app a b :
  plain_text a = true -> str_contains "(" b = false -> plain_text (a +:+ b) = true.
Proof.
  intros (Ha & c & r & -> & Hc)%plain_text_inv Hb. unfold plain_text.
  rewrite str_contains_app, Ha, Hb, str_app_cons. by rewrite Hc.
Qed.

Lemma createMenuPathName_plain t :
  plain_text t = true ->
  Menu._createMenuPathName t
  = Ok (str_lower (re_sub_invalid None (str_replace " " "_" t))).
Proof.
  intros (Hb & c & r & -> & Hc)%plain_text_inv.
  destruct (plain_head c Hc) as (Hs & Hd & _).
  unfold Menu._createMenuPathName. rewrite (sub_brackets_none _ Hb).
  rewrite replace_char_cons, Hs, str_head_cons. cbn [res_bind]. by rewrite Hd.
Qed.

Lemma path_name_join a b :
  str_lower (re_sub_invalid None (str_replace " " "_" (a +:+ "__" +:+ b)))
  = str_lower (re_sub_invalid None (str_replace " " "_" a)) +:+ "__" +:+
    str_lower (re_sub_invalid None (str_replace " " "_" b)).
Proof.
  by rewrite !replace_char_app, !re_sub_invalid_app, !str_lower_app.
Qed.

(** The titles [parent_titles] collects above a well-named menu. *)
Lemma well_named_titles w fuel : forall m text,
  well_named fuel w m = true ->
  exists joined mo,
    menus w !! m = Some mo /\
    parent_titles fuel w (Some m) text = Ok (joined +:+ "__" +:+ text) /\
    plain_text joined = true /\
    m_menuPath mo = str_lower (re_sub_invalid None (str_replace " " "_" joined)).
Proof.
  induction fuel as [|fuel IH]; intros m text H; [done|].
  cbn [well_named] in H. cbn [parent_titles]. unfold find_menu.
  destruct (menus w !! m) as [mo|] eqn:Hm; [|done]. cbn [res_bind].
  apply andb_prop in H as [Hp H].
  rewrite (createMenuPathName_plain _ Hp) in H.
  destruct (m_parent mo) as [|p|] eqn:Hpar.
  - exists (m_title mo), mo. apply str_eqb_eq in H. by destruct fuel.
  - destruct (menus w !! p) as [pm|] eqn:Hpm; [|done].
    apply andb_prop in H as [Hw H]. apply str_eqb_eq in H.
    destruct (IH p (m_title mo +:+ "__" +:+ text) Hw)
      as (joined & pm' & Hpm' & Ht & Hj & Hpath).
    assert (pm' = pm) as -> by congruence.
    exists (joined +:+ "__" +:+ m_title mo), mo. split; [done|]. split.
    { rewrite Ht. by rewrite !str_app_assoc. }
    split.
    { apply plain_text_app; [done|]. rewrite str_contains_app.
      apply plain_text_inv in Hp as [-> _]. done. }
    by rewrite H, Hpath, path_name_join.
  - exists (m_title mo), mo. apply str_eqb_eq in H. by destruct fuel.
Qed.

Lemma well_named_same w w' fuel : forall m,
  (forall i mo, menus w !! i = Some mo ->
     exists mo', menus w' !! i = Some mo' /\ m_title mo' = m_title mo /\
       m_parent mo' = m_parent mo /\ m_menuPath mo' = m_menuPath mo) ->
  well_named fuel w m = true -> well_named fuel w' m = true.
Proof.
  induction fuel as [|fuel IH]; intros m Hs H; [done|].
  cbn [well_named] in *.
  destruct (menus w !! m) as [mo|] eqn:Hm; [|done].
  destruct (Hs m mo Hm) as (mo' & -> & -> & -> & ->).
  apply andb_prop in H as [-> H]. cbn [andb].
  destruct (Menu._createMenuPathName (m_title mo)) as [c|]; [|done].
  destruct (m_parent mo) as [|p|]; try done.
  destruct (menus w !! p) as [pm|] eqn:Hpm; [|done].
  destruct (Hs p pm Hpm) as (pm' & -> & _ & _ & ->).
  apply andb_prop in H as [Hw ->]. by rewrite (IH p Hs Hw).
Qed.

Lemma getFullName_well_named w a act m name :
  actions w !! a = Some act -> a_parent act = Some m ->
  well_named (length (menus w)) w m = true ->
  plain_text (a_text act) = true ->
  Menu._createMenuPathName (a_text act) = Ok name ->
  (forall t, parent_titles (length (menus w)) w (Some m) (a_text act) = Ok t ->
             String.length t <= 999) ->
  exists mo, menus w !! m = Some mo /\
    getFullName w a = Ok (m_menuPath mo +:+ "__" +:+ name).
Proof.
  intros Ha Hpar Hw Hp Hn Hlen.
  destruct (well_named_titles w _ m (a_text act) Hw)
    as (joined & mo & Hm & Ht & Hj & Hpath).
  exists mo. split; [done|].
  unfold getFullName, find_action. rewrite Ha. cbn [res_bind].
  rewrite Hpar, Ht. cbn [res_bind].
  specialize (Hlen _ Ht).
  assert (Hfull : plain_text (joined +:+ "__" +:+ a_text act) = true).
  { apply plain_text_app; [done|]. rewrite str_contains_app.
    apply plain_text_inv in Hp as [-> _]. done. }
  apply plain_text_inv in Hfull as (Hb & c & r & Hcr & Hc).
  destruct (plain_head c Hc) as (Hs & _ & Hd).
  rewrite (sub_brackets_none _ Hb).
  assert (Hhead : exists r', str_replace " " "_" (joined +:+ "__" +:+ a_text act)
                             = String c r').
  { rewrite Hcr, replace_char_cons, Hs. eauto. }
  destruct Hhead as [r' Hr']. rewrite Hr', str_head_cons. cbn [res_bind].
  rewrite Hd, <- Hr'.
  rewrite re_sub_invalid_count by (by rewrite replace_space_length).
  rewrite path_name_join, <- Hpath.
  rewrite (createMenuPathName_plain _ Hp) in Hn. by injection Hn as <-.
Qed.

Lemma parent_titles_same w w' fuel : forall m text t,
  (forall i mo, menus w !! i = Some mo ->
     exists mo', menus w' !! i = Some mo' /\ m_title mo' = m_title mo /\
       m_parent mo' = m_parent mo /\ m_menuPath mo' = m_menuPath mo) ->
  parent_titles fuel w m text = Ok t -> parent_titles fuel w' m text = Ok t.
Proof.
  induction fuel as [|fuel IH]; intros [m|] text t Hs H; try done.
  cbn [parent_titles] in *. unfold find_menu in *.
  destruct (menus w !! m) as [mo|] eqn:Hm; [|done].
  destruct (Hs m mo Hm) as (mo' & -> & T & P & _). cbn [res_bind] in *.
  rewrite T, P. by apply IH.
Qed.

Lemma item_added_same_menus self text w a w' :
  item_added self text w a w' ->
  length (menus w') = length (menus w) /\
  forall i mo, menus w !! i = Some mo ->
    exists mo', menus w' !! i = Some mo' /\ m_title mo' = m_title mo /\
      m_parent mo' = m_parent mo /\ m_menuPath mo' = m_menuPath mo.
Proof.
  intros (_ & _ & _ & m & m' & Hm & Hmenus & (T & P & _ & MP & _) & _).
  rewrite Hmenus. split; [by rewrite length_insert|].
  intros i mo Hi. destruct (decide (i = self)) as [->|Hne].
  - assert (mo = m) as -> by congruence.
    exists m'. split; [|done]. apply list_lookup_insert_eq. by eapply lookup_lt_Some.
  - exists mo. split; [|done]. by rewrite list_lookup_insert_ne.
Qed.

Lemma item_added_full_name self text w a w' :
  well_named (length (menus w)) w self = true ->
  plain_text text = true ->
  (forall t, parent_titles (length (menus w)) w (Some self) text = Ok t ->
             String.length t <= 999) ->
  item_added self text w a w' ->
  exists act p, actions w' !! a = Some act /\ a_text act = text /\
    a_menuPath act = Some p /\ getFullName w' a = Ok p.
Proof.
  intros Hw Hp Hlen Hi.
  destruct (item_added_same_menus _ _ _ _ _ Hi) as [Hl Hs].
  destruct Hi as (-> & _ & _ & m & m' & Hm & Hmenus & (_ & _ & _ & MP & _) & _ & _ &
                  act & name & Hacts & Ht & Hpar & _ & Hn & Hmp & _).
  assert (Ha : actions w' !! length (actions w) = Some act).
  { rewrite Hacts. apply lookup_snoc. }
  exists act, (m_menuPath m +:+ "__" +:+ name).
  split; [done|]. split; [done|]. split; [done|].
  destruct (getFullName_well_named w' (length (actions w)) act self name)
    as (mo & Hmo & ->); try done.
  - rewrite Hl. by eapply well_named_same.
  - by rewrite Ht.
  - by rewrite Ht.
  - rewrite Hl, Ht. intros t H.
    destruct (well_named_titles w _ self text Hw) as (j & ? & _ & Hj & _).
    rewrite (parent_titles_same w w' _ _ _ _ Hs Hj) in H. injection H as <-.
    by apply Hlen.
  - assert (mo = m') as ->.
    { rewrite Hmenus, list_lookup_insert_eq in Hmo by (by eapply lookup_lt_Some).
      congruence. }
    by rewrite MP.
Qed.

(** X2.  For plain texts the two computations of the path name agree.
    In a menu whose title, and the titles above it, have no opening
    bracket and start with neither a digit, an underscore nor a space,
    [addItem], [addGroupItem] and [addCheckItem] with such a text return
    an action whose [menuPath] is what [getFullName] returns for it (the
    titles and the text, joined, being no longer than the 999
    replacements [getFullName] allows). *)
Theorem added_item_full_name (self : menu_id) (w : World) (properties : Properties) :
  well_named (length (menus w)) w self = true ->
  plain_text (props_text properties) = true ->
  (forall t, parent_titles (length (menus w)) w (Some self) (props_text properties)
             = Ok t -> String.length t <= 999) ->
  (forall callback value,
     exists a w' act p,
       Menu.addItem self properties callback value w = Ok (a, w') /\
       actions w' !! a = Some act /\ a_text act = props_text properties /\
       a_menuPath act = Some p /\ getFullName w' a = Ok p) /\
  (forall group value callback selected,
     exists a w' act p,
       Menu.addGroupItem self properties group value callback selected w
       = Ok (a, w') /\
       actions w' !! a = Some act /\ a_text act = props_text properties /\
       a_menuPath act = Some p /\ getFullName w' a = Ok p) /\
  (forall callback value selected,
     exists a w' act p,
       Menu.addCheckItem self properties callback value selected w = Ok (a, w') /\
       actions w' !! a = Some act /\ a_text act = props_text properties /\
       a_menuPath act = Some p /\ getFullName w' a = Ok p).
Proof.
  intros Hw Hp Hlen.
  destruct (well_named_titles w _ self "" Hw) as (_ & m & Hm & _).
  pose proof (createMenuPathName_plain _ Hp) as Hn.
  repeat split.
  - intros callback value.
    destruct (addItem_run self properties callback value w m _ Hm Hn)
      as (a & w' & R & Hi).
    destruct (item_added_full_name _ _ _ _ _ Hw Hp Hlen Hi) as (act & p & H).
    by exists a, w', act, p.
  - intros group value callback selected.
    destruct (addGroupItem_run self properties group value callback selected
                w m _ Hm Hn) as (a & w' & R & Hi & _).
    destruct (item_added_full_name _ _ _ _ _ Hw Hp Hlen Hi) as (act & p & H).
    by exists a, w', act, p.
  - intros callback value selected.
    destruct (addCheckItem_run self properties callback value selected
                w m _ Hm Hn) as (a & w' & R & Hi).
    destruct (item_added_full_name _ _ _ _ _ Hw Hp Hlen Hi) as (act & p & H).
    by exists a, w', act, p.
Qed.

Lemma added_item_full_name_witness :
  exists a w' act p,
    Menu.addItem 0 (PText "Select all") (Some (Fn "iep.editors.selectAll")) VNone
      edit_menu_app = Ok (a, w') /\
    actions w' !! a = Some act /\ a_text act = "Select all" /\
    a_menuPath act = Some p /\ getFullName w' a = Ok p.
Proof.
  destruct (added_item_full_name 0 edit_menu_app (PText "Select all")) as (H & _).
  - vm_compute. reflexivity.
  - vm_compute. reflexivity.
  - intros t H. vm_compute in H. injection H as <-. vm_compute. lia.
  - apply (H (Some (Fn "iep.editors.selectAll")) VNone).
Defined.

(** ** The shortcut dialog *)

(** X3.  [getShortcut] of a name never raises and returns at least two
    strings: two when the name is not a key or its stored string has at
    most one comma, and one more than the number of commas otherwise. *)
Theorem getShortcut_length (w : World) (fullName : string) :
  exists tuple,
    getShortcut w (FullName fullName) = Ok tuple /\
    length tuple =
      match dict_get (config_shortcuts w) fullName with
      | Some v => Nat.max 2 (S (str_count "," v))
      | None => 2
      end.
Proof.
  rewrite getShortcut_name. eexists. split; [done|].
  unfold shortcut_tuple. destruct (dict_get _ _) as [v|]; [|done].
  unfold tuple_of. destruct (decide _) as [->|Hn]; [done|].
  rewrite str_split_length. lia.
Qed.

Lemma str_split_snoc_sep c v :
  str_contains c v = false -> str_split c (v +:+ String c "") = [v; ""].
Proof. intros H. by rewrite str_split_app. Qed.

(** X4.  [setFullName] never raises; it stores the name and the
    position, shows the intro in the label, and, when the name is a key
    of the configuration, puts in the line edit the shortcut that
    [getShortcut] returns for the name at that position; when the name
    is not a key the line edit is left as it was. *)
Theorem setFullName_shows_shortcut (self : KeyMapEditDialog) (w : World)
    (fullname : string) (isprimary : bool) :
  exists self' tuple,
    KeyMapEditDialog.setFullName self w fullname isprimary = Ok self' /\
    getShortcut w (FullName fullname) = Ok tuple /\
    _fullname self' = fullname /\ _isprimary self' = isprimary /\
    _label self' = _intro self' /\
    (dict_in (config_shortcuts w) fullname = true ->
     tuple !! (if isprimary then 0 else 1) = Some (_line self')) /\
    (dict_in (config_shortcuts w) fullname = false -> _line self' = _line self).
Proof.
  rewrite getShortcut_name. unfold KeyMapEditDialog.setFullName, shortcut_tuple.
  unfold dict_in, dict_getitem.
  destruct (dict_get (config_shortcuts w) fullname) as [v|] eqn:G;
    [|by eexists _, _].
  cbn [res_bind]. unfold tuple_of.
  destruct (str_contains "," v) eqn:E.
  - destruct (decide _) as [H0|_].
    { apply str_count_0 in H0. congruence. }
    pose proof (str_split_length "," v) as Hl.
    destruct (str_split "," v) as [|p0 [|p1 rest]] eqn:Es; simpl in Hl.
    + lia.
    + assert (str_count "," v = 0) as H0%str_count_0 by lia. congruence.
    + destruct isprimary; cbn; by eexists _, _.
  - destruct (decide _) as [_|H0].
    2:{ exfalso. apply H0. by apply str_count_0. }
    rewrite (str_split_snoc_sep _ _ E).
    destruct isprimary; cbn; by eexists _, _.
Qed.

(** What [onAccept] does, whatever the shortcut: [cfg1] is the
    configuration after the first loop, [current] the list the shortcut
    is written into. *)
Lemma onAccept_run self w :
  NoDup (dict_keys (config_shortcuts w)) ->
  exists cfg1 current,
    NoDup (dict_keys cfg1) /\
    (forall k, dict_get cfg1 k
               = dict_get (config_shortcuts w) k ≫= value_after (_line self)) /\
    current = (if dict_in cfg1 (_fullname self)
               then shortcut_tuple cfg1 (_fullname self) else [""; ""]) /\
    KeyMapEditDialog.onAccept self w
    = Ok (closed self,
          with_shortcuts
            (if str_eqb (_fullname self) "" then cfg1
             else dict_set cfg1 (_fullname self)
                    (str_join "," (<[edited_position self := _line self]> current)))
            w).
Proof.
  intros Hd.
  set (cfg := config_shortcuts w). set (s := _line self). set (n := _fullname self).
  destruct (remove_loop_spec s (dict_keys cfg) cfg w) as (cfg1 & Hrun & Hd1 & Hget);
    try done.
  { intros k Hk. apply dict_keys_get. by apply list_elem_of_In. }
  exists cfg1, (if dict_in cfg1 n then shortcut_tuple cfg1 n else [""; ""]).
  split; [done|]. split.
  { intros k. rewrite Hget. destruct (decide _) as [|Hk]; [done|].
    destruct (dict_get cfg k) eqn:G; [|done].
    exfalso. apply Hk, list_elem_of_In. by eapply dict_get_keys. }
  split; [done|].
  set (current := if dict_in cfg1 n then shortcut_tuple cfg1 n else [""; ""]).
  assert (Hlen : 2 <= length current).
  { unfold current. destruct (dict_in cfg1 n); [|simpl; lia].
    destruct (shortcut_tuple_shape cfg1 n) as (p0 & p1 & rest & ->). simpl. lia. }
  unfold KeyMapEditDialog.onAccept. fold s n.
  erewrite bind_ok by reflexivity.
  erewrite bind_ok.
  2:{ etrans; [|exact Hrun]. f_equal. symmetry. apply with_shortcuts_id. }
  destruct (str_eqb n "") eqn:En; cbn [negb].
  - erewrite bind_ok by reflexivity. reflexivity.
  - erewrite bind_ok.
    2:{ erewrite bind_ok by reflexivity. cbn [config_shortcuts with_shortcuts].
        erewrite bind_ok.
        2:{ instantiate (1 := with_shortcuts cfg1 w). instantiate (1 := current).
            unfold current. destruct (dict_in cfg1 n); [|done].
            unfold reads, lift. by rewrite getShortcut_name. }
        erewrite bind_ok.
        2:{ unfold lift, setitem.
            destruct (decide (_ < length current)) as [_|Hi]; [reflexivity|].
            exfalso. apply Hi. destruct (_isprimary self); lia. }
        erewrite bind_ok by reflexivity.
        cbn [config_shortcuts with_shortcuts]. reflexivity. }
    reflexivity.
Qed.

Lemma value_after_keeps s v :
  matches s (tuple_of v) = false -> value_after s v = Some v.
Proof. unfold value_after. by intros ->. Qed.

Lemma not_holds_matches w s k v :
  dict_get (config_shortcuts w) k = Some v ->
  ~ holds_shortcut w s k -> matches s (tuple_of v) = false.
Proof.
  intros G Hn. destruct (tuple_of_shape v) as (p0 & p1 & rest & Ht).
  rewrite Ht. cbn [matches].
  destruct (str_eqb (str_lower p0) (str_lower s)) eqn:E0;
    [|destruct (str_eqb (str_lower p1) (str_lower s)) eqn:E1; [|done]];
    exfalso; apply Hn; exists p0, p1, rest;
    rewrite getShortcut_name, (shortcut_tuple_get _ _ _ G), Ht; (split; [done|]).
  - left. by apply str_eqb_eq.
  - right. by apply str_eqb_eq.
Qed.

Lemma value_after_is_Some_keys cfg cfg1 s k :
  (forall k, dict_get cfg1 k = dict_get cfg k ≫= value_after s) ->
  In k (dict_keys cfg1) -> In k (dict_keys cfg).
Proof.
  intros Hget [v G]%dict_keys_get. rewrite Hget in G.
  destruct (dict_get cfg k) as [v0|] eqn:G0; [|done]. by eapply dict_get_keys.
Qed.

(** X5.  [onAccept] always returns and closes the dialog; it changes
    nothing but the configuration, adds no key other than the edited
    one, and leaves the stored string of every other key that does not
    hold the entered shortcut as it was. *)
Theorem onAccept_frame (self : KeyMapEditDialog) (w : World) :
  NoDup (dict_keys (config_shortcuts w)) ->
  exists w',
    KeyMapEditDialog.onAccept self w = Ok (closed self, w') /\
    w' = with_shortcuts (config_shortcuts w') w /\
    NoDup (dict_keys (config_shortcuts w')) /\
    (forall k, In k (dict_keys (config_shortcuts w')) ->
               k = _fullname self \/ In k (dict_keys (config_shortcuts w))) /\
    (forall k v, k <> _fullname self ->
       dict_get (config_shortcuts w) k = Some v ->
       ~ holds_shortcut w (_line self) k ->
       dict_get (config_shortcuts w') k = Some v).
Proof.
  intros Hd. destruct (onAccept_run self w Hd) as (cfg1 & current & Hd1 & Hget & _ & Hrun).
  eexists. split; [exact Hrun|]. cbn [config_shortcuts with_shortcuts].
  split; [done|].
  destruct (str_eqb (_fullname self) "") eqn:En.
  - split; [done|]. split.
    + intros k Hk. right. by eapply value_after_is_Some_keys.
    + intros k v _ G Hh. rewrite Hget, G. cbn.
      apply value_after_keeps. by eapply not_holds_matches.
  - split; [by apply NoDup_dict_set|]. split.
    + intros k [->|Hk]%dict_keys_set; [by left|].
      right. by eapply value_after_is_Some_keys.
    + intros k v Hk G Hh. rewrite dict_get_set.
      assert (str_eqb (_fullname self) k = false) as -> by (apply str_eqb_neq; congruence).
      rewrite Hget, G. cbn. apply value_after_keeps. by eapply not_holds_matches.
Qed.

Lemma onAccept_frame_witness :
  exists w',
    KeyMapEditDialog.onAccept (dialog_for "file__save" "Ctrl+S" true)
      (config_world [("file__new", "Ctrl+N"); ("file__save_as", "Ctrl+Shift+S,Ctrl+S")])
    = Ok (closed (dialog_for "file__save" "Ctrl+S" true), w') /\
    dict_get (config_shortcuts w') "file__new" = Some "Ctrl+N".
Proof.
  destruct (onAccept_frame (dialog_for "file__save" "Ctrl+S" true)
              (config_world [("file__new", "Ctrl+N");
                             ("file__save_as", "Ctrl+Shift+S,Ctrl+S")]))
    as (w' & R & _ & _ & _ & H).
  - apply (bool_decide_unpack _). vm_compute. exact I.
  - exists w'. split; [exact R|]. apply H.
    + discriminate.
    + reflexivity.
    + intros (p0 & p1 & rest & Hg & Hm). vm_compute in Hg.
      injection Hg as <- <- <-. destruct Hm; discriminate.
Defined.

Lemma str_lower_nonempty s : s <> "" -> str_lower "" <> str_lower s.
Proof. intros Hs H. symmetry in H. by apply str_lower_empty in H. Qed.

(** X6.  [onAccept] takes the shortcut away from its previous owner: a
    key other than the edited one whose stored string is the entered
    shortcut alone (compared without case, no secondary shortcut) is
    deleted from the configuration. *)
Theorem onAccept_takes_shortcut (self : KeyMapEditDialog) (w : World)
    (k v : string) :
  NoDup (dict_keys (config_shortcuts w)) ->
  _line self <> "" ->
  k <> _fullname self ->
  dict_get (config_shortcuts w) k = Some v ->
  str_contains "," v = false ->
  str_lower v = str_lower (_line self) ->
  exists w',
    KeyMapEditDialog.onAccept self w = Ok (closed self, w') /\
    dict_in (config_shortcuts w') k = false.
Proof.
  intros Hd Hs Hk G Hc Hv.
  destruct (onAccept_run self w Hd) as (cfg1 & current & Hd1 & Hget & _ & Hrun).
  eexists. split; [exact Hrun|]. cbn [config_shortcuts with_shortcuts].
  assert (G1 : dict_get cfg1 k = None).
  { rewrite Hget, G. cbn. unfold value_after, tuple_of.
    rewrite decide_True by (by apply str_count_0).
    cbn [matches blank_matches]. rewrite Hv, str_eqb_refl. cbn [orb].
    assert (str_eqb (str_lower "") (str_lower (_line self)) = false) as ->
      by (by apply str_eqb_neq, str_lower_nonempty).
    reflexivity. }
  unfold dict_in. destruct (str_eqb (_fullname self) "").
  - by rewrite G1.
  - rewrite dict_get_set.
    assert (str_eqb (_fullname self) k = false) as -> by (apply str_eqb_neq; congruence).
    by rewrite G1.
Qed.

Lemma onAccept_takes_shortcut_witness :
  exists w',
    KeyMapEditDialog.onAccept (dialog_for "edit__cut" "ctrl+x" true)
      (config_world [("edit__delete_line", "Ctrl+X"); ("edit__copy", "Ctrl+C")])
    = Ok (closed (dialog_for "edit__cut" "ctrl+x" true), w') /\
    dict_in (config_shortcuts w') "edit__delete_line" = false.
Proof.
  apply (onAccept_takes_shortcut (dialog_for "edit__cut" "ctrl+x" true)
           (config_world [("edit__delete_line", "Ctrl+X"); ("edit__copy", "Ctrl+C")])
           "edit__delete_line" "Ctrl+X").
  - apply (bool_decide_unpack _). vm_compute. exact I.
  - discriminate.
  - discriminate.
  - reflexivity.
  - reflexivity.
  - reflexivity.
Defined.

(** What [onAccept] stores for the edited key when the shortcut has no
    comma. *)
Lemma onAccept_stored self w :
  NoDup (dict_keys (config_shortcuts w)) ->
  _fullname self <> "" ->
  str_contains "," (_line self) = false ->
  exists cfg' stored t,
    KeyMapEditDialog.onAccept self w = Ok (closed self, with_shortcuts cfg' w) /\
    dict_get cfg' (_fullname self) = Some stored /\
    str_contains "," stored = true /\
    str_split "," stored = t /\
    t !! edited_position self = Some (_line self).
Proof.
  intros Hd Hn Hc.
  destruct (onAccept_run self w Hd) as (cfg1 & current & Hd1 & Hget & Hcur & Hrun).
  apply str_eqb_neq in Hn. rewrite Hn in Hrun.
  assert (Hshape : exists p0 p1 rest, current = p0 :: p1 :: rest /\
             Forall (fun p => str_contains "," p = false) current).
  { rewrite Hcur. unfold dict_in.
    destruct (dict_get cfg1 (_fullname self)) as [v'|] eqn:G.
    - rewrite (shortcut_tuple_get _ _ _ G).
      destruct (tuple_of_shape v') as (p0 & p1 & rest & Ht).
      exists p0, p1, rest. split; [done|]. by apply tuple_of_parts; left.
    - exists "", "", []. split; [done|]. by repeat constructor. }
  destruct Hshape as (p0 & p1 & rest & Hshape & Hparts).
  assert (Hi : edited_position self < 2)
    by (unfold edited_position; destruct (_isprimary self); lia).
  destruct (insert_tuple_parts current _ (_line self) p0 p1 rest Hshape Hi Hparts Hc)
    as (q0 & q1 & Hins & Hparts' & Hat).
  rewrite Hins in Hrun.
  eexists _, (str_join "," (q0 :: q1 :: rest)), (q0 :: q1 :: rest).
  split; [exact Hrun|].
  split; [by rewrite dict_get_set, str_eqb_refl|].
  split.
  { destruct (str_contains "," (str_join "," (q0 :: q1 :: rest))) eqn:E; [done|].
    apply str_count_0 in E. by apply str_count_join_pos in E. }
  split; [by apply str_split_join|done].
Qed.

(** X7.  What is applied is what the dialog shows when it is opened
    again: after [onAccept] with a shortcut without comma, [setFullName]
    for the same name and position puts that shortcut in the line
    edit. *)
Theorem accepted_shortcut_is_shown (self other : KeyMapEditDialog) (w : World) :
  NoDup (dict_keys (config_shortcuts w)) ->
  _fullname self <> "" ->
  str_contains "," (_line self) = false ->
  exists w' other',
    KeyMapEditDialog.onAccept self w = Ok (closed self, w') /\
    KeyMapEditDialog.setFullName other w' (_fullname self) (_isprimary self)
    = Ok other' /\
    _line other' = _line self.
Proof.
  intros Hd Hn Hc.
  destruct (onAccept_stored self w Hd Hn Hc) as (cfg' & stored & t & R & G & Hs & Ht & Hat).
  eexists _, _. split; [exact R|].
  unfold KeyMapEditDialog.setFullName, dict_in, dict_getitem.
  cbn [config_shortcuts with_shortcuts]. rewrite G. cbn [res_bind].
  rewrite Hs, Ht. unfold getitem. unfold edited_position in Hat. rewrite Hat.
  split; reflexivity.
Qed.

Lemma accepted_shortcut_is_shown_witness :
  exists w' other',
    KeyMapEditDialog.onAccept (dialog_for "file__save" "Ctrl+S" false)
      (config_world [("file__save", "F2")]) = Ok
        (closed (dialog_for "file__save" "Ctrl+S" false), w') /\
    KeyMapEditDialog.setFullName KeyMapEditDialog.__init__ w' "file__save" false
    = Ok other' /\
    _line other' = "Ctrl+S".
Proof.
  apply (accepted_shortcut_is_shown (dialog_for "file__save" "Ctrl+S" false)
           KeyMapEditDialog.__init__ (config_world [("file__save", "F2")])).
  - apply (bool_decide_unpack _). vm_compute. exact I.
  - discriminate.
  - reflexivity.
Defined.

Lemma slots_ok_with_shortcuts cfg w : slots_ok w -> slots_ok (with_shortcuts cfg w).
Proof. done. Qed.

(** X8.  From the dialog to the action: after [onAccept] with a
    shortcut without comma, the emission of [keyMappingChanged] (what
    closing the mapping dialog does) gives every connected action whose
    [menuPath] is the edited name that shortcut, at the edited position
    of its shortcuts. *)
Theorem accepted_shortcut_is_bound (self : KeyMapEditDialog) (w : World)
    (a : action_id) (act : QAction) :
  NoDup (dict_keys (config_shortcuts w)) ->
  _fullname self <> "" ->
  str_contains "," (_line self) = false ->
  slots_ok w ->
  In a (keyMappingChanged w) ->
  actions w !! a = Some act ->
  a_menuPath act = Some (_fullname self) ->
  exists w1 w2 act',
    KeyMapEditDialog.onAccept self w = Ok (closed self, w1) /\
    KeyMapper.keyMappingChanged_emit w1 = Ok (tt, w2) /\
    actions w2 !! a = Some act' /\
    a_shortcuts act' !! edited_position self = Some (_line self).
Proof.
  intros Hd Hn Hc Hs Ha Hact Hp.
  destruct (onAccept_stored self w Hd Hn Hc) as (cfg' & stored & t & R & G & _ & Ht & Hat).
  destruct (emission_rebinds_ok (with_shortcuts cfg' w)
              (slots_ok_with_shortcuts cfg' w Hs)) as (w2 & E & _ & Hb).
  destruct (Hb a act _ Ha Hact Hp) as (act' & Hact' & _ & Hsh).
  exists (with_shortcuts cfg' w), w2, act'.
  split; [done|]. split; [done|]. split; [done|].
  rewrite Hsh. unfold bound_shortcuts. cbn [config_shortcuts with_shortcuts].
  by rewrite G, Ht.
Qed.

Lemma accepted_shortcut_is_bound_witness :
  exists w1 w2 act',
    KeyMapEditDialog.onAccept (dialog_for "edit__copy" "Ctrl+Shift+C" false)
      edit_menu_app
    = Ok (closed (dialog_for "edit__copy" "Ctrl+Shift+C" false), w1) /\
    KeyMapper.keyMappingChanged_emit w1 = Ok (tt, w2) /\
    actions w2 !! 1 = Some act' /\
    a_shortcuts act' !! 1 = Some "Ctrl+Shift+C".
Proof.
  apply (accepted_shortcut_is_bound (dialog_for "edit__copy" "Ctrl+Shift+C" false)
           edit_menu_app 1 copy_action).
  - apply (bool_decide_unpack _). vm_compute. exact I.
  - discriminate.
  - reflexivity.
  - intros a [<-|[]]. exists copy_action, "edit__copy". split; reflexivity.
  - simpl. by left.
  - reflexivity.
  - reflexivity.
Defined.

Lemma onEdit_loop_cons w shortcut key keys :
  KeyMapEditDialog.onEdit_loop w shortcut (key :: keys)
  = let primSec := held_as shortcut (shortcut_tuple (config_shortcuts w) key) in
    if str_eqb primSec "" then KeyMapEditDialog.onEdit_loop w shortcut keys
    else Ok (Some (in_use_warning primSec key)).
Proof.
  cbn [KeyMapEditDialog.onEdit_loop]. rewrite getShortcut_name.
  destruct (shortcut_tuple_shape (config_shortcuts w) key) as (p0 & p1 & rest & ->).
  cbn [res_bind getitem lookup list_lookup held_as].
  destruct (str_eqb (str_lower p0) (str_lower shortcut)); [done|].
  cbn [res_bind getitem lookup list_lookup].
  by destruct (str_eqb (str_lower p1) (str_lower shortcut)).
Qed.

Lemma held_as_holds w shortcut key :
  held_as shortcut (shortcut_tuple (config_shortcuts w) key) <> "" <->
  holds_shortcut w shortcut key.
Proof.
  unfold holds_shortcut. rewrite getShortcut_name.
  destruct (shortcut_tuple_shape (config_shortcuts w) key) as (p0 & p1 & rest & ->).
  cbn [held_as]. split.
  - intros H. exists p0, p1, rest. split; [done|].
    destruct (str_eqb (str_lower p0) _) eqn:E0; [left; by apply str_eqb_eq|].
    destruct (str_eqb (str_lower p1) _) eqn:E1; [right; by apply str_eqb_eq|done].
  - intros (q0 & q1 & qr & [= <- <- <-] & [H|H]).
    + apply str_eqb_eq in H. by rewrite H.
    + apply str_eqb_eq in H. rewrite H. by destruct (str_eqb (str_lower p0) _).
Qed.

(** X9.  The warning of [onEdit] names the first key, in the order of
    the configuration, that holds the entered shortcut, and says
    "primary" when it is the primary shortcut of that key and
    "secondary" otherwise; the key may be the edited one itself. *)
Theorem onEdit_names_first_holder (self : KeyMapEditDialog) (w : World)
    (before after : list string) (key : string) :
  _line self <> "" ->
  dict_keys (config_shortcuts w) = before ++ key :: after ->
  (forall k, In k before -> ~ holds_shortcut w (_line self) k) ->
  holds_shortcut w (_line self) key ->
  exists self',
    KeyMapEditDialog.onEdit self w = Ok self' /\
    _label self' =
      _intro self +:+ String LF (String LF "") +:+
      in_use_warning
        (held_as (_line self) (shortcut_tuple (config_shortcuts w) key)) key /\
    _line self' = _line self /\ _fullname self' = _fullname self.
Proof.
  intros Hs Hkeys Hbefore Hkey.
  unfold KeyMapEditDialog.onEdit. apply str_eqb_neq in Hs. rewrite Hs, Hkeys.
  assert (Hloop : KeyMapEditDialog.onEdit_loop w (_line self) (before ++ key :: after)
                  = Ok (Some (in_use_warning
                                (held_as (_line self)
                                   (shortcut_tuple (config_shortcuts w) key)) key))).
  { clear Hkeys. induction before as [|k before IH].
    - cbn [app]. rewrite onEdit_loop_cons. cbv zeta.
      apply held_as_holds in Hkey. apply str_eqb_neq in Hkey. by rewrite Hkey.
    - cbn [app]. rewrite onEdit_loop_cons. cbv zeta.
      assert (held_as (_line self) (shortcut_tuple (config_shortcuts w) k) = "") as ->.
      { destruct (decide (held_as (_line self)
                            (shortcut_tuple (config_shortcuts w) k) = "")) as [|Hn];
          [done|]. apply held_as_holds in Hn. exfalso. apply (Hbefore k); [by left|done]. }
      rewrite str_eqb_refl. apply IH. intros k' Hk'. apply Hbefore. by right. }
  rewrite Hloop. cbn [res_bind]. by eexists.
Qed.

Lemma onEdit_names_first_holder_witness :
  exists self',
    KeyMapEditDialog.onEdit (dialog_for "edit__paste" "ctrl+insert" true)
      (config_world [("file__new", "Ctrl+N"); ("edit__copy", "Ctrl+C,Ctrl+Insert");
                     ("edit__cut", "Ctrl+Insert")]) = Ok self' /\
    _label self' =
      String LF (String LF "") +:+
      "WARNING: combo already in use as secondary shortcut for:" +:+
      String LF "edit -> copy".
Proof.
  destruct (onEdit_names_first_holder (dialog_for "edit__paste" "ctrl+insert" true)
              (config_world [("file__new", "Ctrl+N");
                             ("edit__copy", "Ctrl+C,Ctrl+Insert");
                             ("edit__cut", "Ctrl+Insert")])
              ["file__new"] ["edit__cut"] "edit__copy") as (self' & R & L & _).
  - discriminate.
  - reflexivity.
  - intros k [<-|[]] (p0 & p1 & rest & Hg & Hm). vm_compute in Hg.
    injection Hg as <- <- <-. destruct Hm; discriminate.
  - exists "Ctrl+C", "Ctrl+Insert", []. split; [reflexivity|]. by right.
  - exists self'. split; [exact R|]. exact L.
Defined.

(** X10.  Emitting [keyMappingChanged] a second time changes nothing:
    every connected action is already bound to what the configuration
    holds. *)
Theorem keyMappingChanged_emit_twice (w : World) :
  slots_ok w ->
  exists w',
    KeyMapper.keyMappingChanged_emit w = Ok (tt, w') /\
    KeyMapper.keyMappingChanged_emit w' = Ok (tt, w').
Proof.
  intros Hs.
  destruct (emit_loop (keyMappingChanged w) w Hs)
    as (w1 & R1 & ((E1 & C1 & B1 & B2 & N1) & M1 & K1) & A1).
  assert (Hs1 : forall a, In a (keyMappingChanged w1) ->
            exists act p, actions w1 !! a = Some act /\ a_menuPath act = Some p).
  { rewrite K1. intros a Ha. destruct (Hs a Ha) as (act & p & Hact & Hp).
    exists (rebind (config_shortcuts w) act), p.
    rewrite A1, decide_True by (by apply list_elem_of_In). rewrite Hact.
    split; [done|]. by rewrite rebind_menuPath. }
  destruct (emit_loop (keyMappingChanged w1) w1 Hs1)
    as (w2 & R2 & ((E2 & C2 & B3 & B4 & N2) & M2 & K2) & A2).
  assert (w2 = w1) as Hw.
  { assert (actions w2 = actions w1) as Ha.
    { apply list_eq. intros a. rewrite A2, K1.
      destruct (decide (a ∈ keyMappingChanged w)) as [Hin|Hin]; [|done].
      rewrite A1, decide_True by done. rewrite C1.
      destruct (actions w !! a); [|done]. cbn. by rewrite rebind_idemp. }
    destruct w1, w2. cbn in *. congruence. }
  exists w1. split.
  - unfold KeyMapper.keyMappingChanged_emit. by eapply bind_run.
  - unfold KeyMapper.keyMappingChanged_emit. eapply bind_run; [reflexivity|].
    rewrite R2. by rewrite Hw.
Qed.

Lemma keyMappingChanged_emit_twice_witness :
  exists w',
    KeyMapper.keyMappingChanged_emit edit_menu_app = Ok (tt, w') /\
    KeyMapper.keyMappingChanged_emit w' = Ok (tt, w').
Proof.
  apply (keyMappingChanged_emit_twice edit_menu_app).
  intros a [<-|[]]. exists copy_action, "edit__copy". split; reflexivity.
Defined.

(** ** Items, groups and the lists the menus keep *)

Lemma addAction_new self text w m :
  menus w !! self = Some m ->
  addAction self text w
  = Ok (length (actions w),
        with_new_action self (m_with_actions (m_actions m ++ [length (actions w)]) m)
          (plain_action text (Some self)) w).
Proof.
  intros Hm. unfold addAction.
  eapply bind_run; [by apply get_menu_run|].
  eapply bind_run; [reflexivity|].
  eapply bind_run; [by apply update_menu_run|]. reflexivity.
Qed.

Lemma update_new_action self m' act w f :
  update_action (length (actions w)) f (with_new_action self m' act w)
  = Ok (tt, with_new_action self m' (f act) w).
Proof.
  rewrite (update_action_run _ _ _ act) by apply lookup_snoc.
  cbn [actions with_new_action with_menus with_actions]. by rewrite insert_snoc.
Qed.

Lemma update_new_menu self m m' act w g :
  menus w !! self = Some m ->
  update_menu self g (with_new_action self m' act w)
  = Ok (tt, with_new_action self (g m') act w).
Proof.
  intros Hm.
  rewrite (update_menu_run _ _ _ m').
  2:{ cbn. apply list_lookup_insert_eq. by eapply lookup_lt_Some. }
  cbn [menus with_new_action with_menus with_actions].
  by rewrite list_insert_insert_eq.
Qed.

Lemma setShortcut_rebind w a act p :
  actions w !! a = Some act -> a_menuPath act = Some p ->
  KeyMapper.setShortcut a w
  = Ok (tt, with_actions (<[a := rebind (config_shortcuts w) act]> (actions w)) w).
Proof.
  intros Ha Hp. unfold KeyMapper.setShortcut.
  eapply bind_run; [by apply get_action_run|]. rewrite Hp.
  eapply bind_run; [reflexivity|].
  eapply bind_run; [reflexivity|].
  unfold rebind, dict_in. rewrite Hp.
  destruct (dict_get (config_shortcuts w) p) as [v|] eqn:G.
  - eapply bind_run; [unfold lift, dict_getitem; by rewrite G|].
    unfold setShortcuts. by apply update_action_run.
  - unfold ret. do 2 f_equal. rewrite list_insert_id by done. by destruct w.
Qed.

Lemma connect_new_action self m m' act w name :
  menus w !! self = Some m ->
  Menu._createMenuPathName (a_text act) = Ok name ->
  Menu._connectActionShortcut self (length (actions w)) (with_new_action self m' act w)
  = Ok (tt, with_slot w
              (with_new_action self m'
                 (connected (config_shortcuts w) (m_menuPath m' +:+ "__" +:+ name) act)
                 w)).
Proof.
  intros Hm Hn. unfold Menu._connectActionShortcut.
  eapply bind_run.
  { apply get_menu_run. cbn. apply list_lookup_insert_eq. by eapply lookup_lt_Some. }
  eapply bind_run; [apply get_action_run, lookup_snoc|].
  eapply bind_run; [unfold lift; by rewrite Hn|].
  eapply bind_run; [apply update_new_action|].
  eapply bind_run; [reflexivity|].
  erewrite setShortcut_rebind.
  2:{ cbn. apply lookup_snoc. }
  2:{ reflexivity. }
  cbn [actions config_shortcuts with_new_action with_menus with_actions
       with_keyMappingChanged].
  rewrite insert_snoc. reflexivity.
Qed.

Lemma addAction_props self properties w m :
  menus w !! self = Some m ->
  Menu._addAction self properties w
  = Ok (length (actions w),
        with_new_action self (m_with_actions (m_actions m ++ [length (actions w)]) m)
          (plain_action (props_text properties) (Some self)) w).
Proof. intros Hm. destruct properties; by apply addAction_new. Qed.

Lemma a_with_triggered_id act : a_with_triggered (a_triggered act ++ []) act = act.
Proof. destruct act. unfold a_with_triggered. cbn. by rewrite app_nil_r. Qed.

Lemma a_with_toggled_id act : a_with_toggled (a_toggled act ++ []) act = act.
Proof. destruct act. unfold a_with_toggled. cbn. by rewrite app_nil_r. Qed.

Lemma item_slot_run self m' act w callback value :
  match callback with
  | Some cb =>
      match value with
      | VNone => connect_triggered (length (actions w)) (Call cb)
      | _ => connect_triggered (length (actions w)) (CallValue cb value)
      end
  | None => ret tt
  end (with_new_action self m' act w)
  = Ok (tt, with_new_action self m'
              (a_with_triggered (a_triggered act ++ item_slot callback value) act) w).
Proof.
  destruct callback as [cb|]; cbn [item_slot].
  - destruct value; (etrans; [apply update_new_action | reflexivity]).
  - by rewrite a_with_triggered_id.
Qed.

Lemma check_slot_run self m' act w callback value :
  match callback with
  | Some cb =>
      match value with
      | VNone => connect_triggered (length (actions w)) (CallState cb)
      | _ => connect_triggered (length (actions w)) (CallStateValue cb value)
      end
  | None => ret tt
  end (with_new_action self m' act w)
  = Ok (tt, with_new_action self m'
              (a_with_triggered (a_triggered act ++ check_slot callback value) act) w).
Proof.
  destruct callback as [cb|]; cbn [check_slot].
  - destruct value; (etrans; [apply update_new_action | reflexivity]).
  - by rewrite a_with_triggered_id.
Qed.

Lemma group_slot_run self m' act w callback value :
  match callback with
  | Some cb => connect_toggled (length (actions w)) (CallIfChecked cb value)
  | None => ret tt
  end (with_new_action self m' act w)
  = Ok (tt, with_new_action self m'
              (a_with_toggled (a_toggled act ++ group_slot callback value) act) w).
Proof.
  destruct callback as [cb|]; cbn [group_slot].
  - etrans; [apply update_new_action | reflexivity].
  - by rewrite a_with_toggled_id.
Qed.

(** [addItem], step by step. *)
Lemma addItem_world self properties callback value w m name :
  menus w !! self = Some m ->
  Menu._createMenuPathName (props_text properties) = Ok name ->
  Menu.addItem self properties callback value w
  = Ok (length (actions w),
        with_slot w
          (with_new_action self
             (m_with_actions (m_actions m ++ [length (actions w)]) m)
             (connected (config_shortcuts w) (m_menuPath m +:+ "__" +:+ name)
                (a_with_triggered (item_slot callback value)
                   (plain_action (props_text properties) (Some self))))
             w)).
Proof.
  intros Hm Hn. unfold Menu.addItem.
  eapply bind_run; [by apply addAction_props|].
  eapply bind_run; [apply item_slot_run|].
  eapply bind_run; [by eapply connect_new_action|]. reflexivity.
Qed.

(** [addCheckItem], step by step. *)
Lemma addCheckItem_world self properties callback value selected w m name :
  menus w !! self = Some m ->
  Menu._createMenuPathName (props_text properties) = Ok name ->
  Menu.addCheckItem self properties callback value selected w
  = Ok (length (actions w),
        with_slot w
          (with_new_action self
             (m_with_actions (m_actions m ++ [length (actions w)]) m)
             (connected (config_shortcuts w) (m_menuPath m +:+ "__" +:+ name)
                (a_with_triggered (check_slot callback value)
                   (a_with_checked selected
                      (a_with_checkable true
                         (plain_action (props_text properties) (Some self))))))
             w)).
Proof.
  intros Hm Hn. unfold Menu.addCheckItem.
  eapply bind_run; [by apply addAction_props|].
  eapply bind_run; [apply update_new_action|].
  eapply bind_run; [apply update_new_action|]. cbn [a_checkable a_with_checkable].
  eapply bind_run; [apply check_slot_run|].
  eapply bind_run; [by eapply connect_new_action|]. reflexivity.
Qed.

Lemma groups_with_eq groups group value a :
  vdict_set
    (match vdict_get groups group with
     | Some _ => groups
     | None => vdict_set groups group {| g_members := []; g_actions := [] |}
     end) group
    {| g_members := g_members (group_of groups group) ++ [a];
       g_actions := vdict_set (g_actions (group_of groups group)) value a |}
  = groups_with groups group value a.
Proof.
  unfold groups_with. destruct (vdict_get groups group) eqn:E; [done|].
  generalize ({| g_members := g_members (group_of groups group) ++ [a];
                 g_actions := vdict_set (g_actions (group_of groups group)) value a |}).
  intros g. induction groups as [|[k y] d IH]; cbn in *.
  - by rewrite value_eqb_refl.
  - destruct (value_eqb k group) eqn:Ek; [done|]. cbn. rewrite Ek.
    by rewrite IH.
Qed.

Lemma group_lookup_run groups group (w : World) :
  match vdict_get
          (match vdict_get groups group with
           | Some _ => groups
           | None => vdict_set groups group {| g_members := []; g_actions := [] |}
           end) group with
  | Some g => ret g
  | None => raise KeyError
  end w = Ok (group_of groups group, w).
Proof.
  unfold group_of. destruct (vdict_get groups group) eqn:E; [by rewrite E|].
  by rewrite vdict_get_set.
Qed.

(** [addGroupItem], step by step. *)
Lemma addGroupItem_world self properties group value callback selected w m name :
  menus w !! self = Some m ->
  Menu._createMenuPathName (props_text properties) = Ok name ->
  Menu.addGroupItem self properties group value callback selected w
  = Ok (length (actions w),
        with_slot w
          (with_new_action self
             (m_with_groups
                (groups_with (m_groups m) group value (length (actions w)))
                (m_with_actions (m_actions m ++ [length (actions w)]) m))
             (connected (config_shortcuts w) (m_menuPath m +:+ "__" +:+ name)
                (a_with_toggled (group_slot callback value)
                   (a_with_checked selected
                      (a_with_checkable true
                         (plain_action (props_text properties) (Some self))))))
             w)).
Proof.
  intros Hm Hn. unfold Menu.addGroupItem.
  eapply bind_run; [by apply addAction_props|].
  eapply bind_run; [apply update_new_action|].
  eapply bind_run; [apply update_new_action|]. cbn [a_checkable a_with_checkable].
  eapply bind_run; [apply group_slot_run|].
  eapply bind_run.
  { apply get_menu_run. cbn. apply list_lookup_insert_eq. by eapply lookup_lt_Some. }
  cbn [m_groups m_with_actions].
  eapply bind_run; [apply group_lookup_run|].
  eapply bind_run; [by eapply update_new_menu|].
  eapply bind_run; [by eapply connect_new_action|].
  unfold m_with_groups at 1. cbn [m_title m_parent m_menuAction m_actions m_menuPath
                                   m_groups m_attrs m_with_actions].
  by rewrite groups_with_eq.
Qed.

Lemma rebind_fields cfg act :
  a_text (rebind cfg act) = a_text act /\
  a_parent (rebind cfg act) = a_parent act /\
  a_checkable (rebind cfg act) = a_checkable act /\
  a_checked (rebind cfg act) = a_checked act /\
  a_enabled (rebind cfg act) = a_enabled act /\
  a_triggered (rebind cfg act) = a_triggered act /\
  a_toggled (rebind cfg act) = a_toggled act.
Proof.
  unfold rebind. destruct (a_menuPath act) as [p|]; [|done].
  by destruct (dict_get cfg p).
Qed.

(** X11.  An item added with [addGroupItem] under [group] and [value]
    can be selected with [setCheckedOption]: the call finds the group
    and the value and leaves the new action, which is checkable and
    calls back through [toggled], checked. *)
Theorem group_item_can_be_checked (self : menu_id) (w : World) (m : QMenu)
    (properties : Properties) (name : string) (group value : Value)
    (callback : option Callback) (selected : bool) :
  menus w !! self = Some m ->
  Menu._createMenuPathName (props_text properties) = Ok name ->
  exists a w' w'' act,
    Menu.addGroupItem self properties group value callback selected w = Ok (a, w') /\
    Menu.setCheckedOption self group value w' = Ok (tt, w'') /\
    actions w'' !! a = Some act /\
    a_text act = props_text properties /\
    a_checkable act = true /\ a_checked act = true /\
    a_toggled act = group_slot callback value.
Proof.
  intros Hm Hn.
  eexists _, _, _, _. split; [by eapply addGroupItem_world|].
  split.
  { unfold Menu.setCheckedOption.
    eapply bind_run.
    { apply get_menu_run. cbn. apply list_lookup_insert_eq. by eapply lookup_lt_Some. }
    cbn [m_groups m_with_groups]. unfold groups_with. rewrite vdict_get_set.
    eapply bind_run; [reflexivity|].
    cbn [g_actions]. rewrite vdict_get_set.
    unfold setChecked. apply update_action_run.
    cbn [actions with_actions with_slot with_new_action with_menus
         with_keyMappingChanged].
    apply lookup_snoc. }
  cbn [actions with_actions with_slot with_new_action with_menus
       with_keyMappingChanged].
  rewrite insert_snoc. split; [apply lookup_snoc|].
  cbn [m_menuPath m_with_groups m_with_actions].
  set (act0 := connected _ _ _).
  assert (H : a_text act0 = props_text properties /\ a_checkable act0 = true /\
              a_toggled act0 = group_slot callback value).
  { unfold act0, connected.
    match goal with |- context [rebind ?c ?x] =>
      destruct (rebind_fields c x) as (-> & _ & -> & _ & _ & _ & ->) end.
    done. }
  destruct H as (T & C & G). rewrite C. by cbn.
Qed.

Lemma item_step_intro self w m' act :
  is_Some (menus w !! self) ->
  (forall m, menus w !! self = Some m ->
     m_actions m' = m_actions m ++ [length (actions w)] /\ m_attrs m' = m_attrs m) ->
  item_step self w (with_slot w (with_new_action self m' act w)) act.
Proof.
  intros [m Hm] H. split; [done|]. split; [done|]. split; [done|].
  exists m, m'. split; [done|]. split; [done|]. by apply H.
Qed.

(** A comprehension that adds one item per element. *)
Lemma mapM_items self {X} (P : X -> QAction -> Prop) (f : X -> M action_id)
    (l : list X) : forall w m,
  menus w !! self = Some m ->
  (forall x, In x l -> forall w, is_Some (menus w !! self) ->
     exists w' act, f x w = Ok (length (actions w), w') /\
       item_step self w w' act /\ P x act) ->
  exists w' acts m',
    mapM l f w = Ok (seq (length (actions w)) (length l), w') /\
    actions w' = actions w ++ acts /\ Forall2 P l acts /\
    env w' = env w /\ config_shortcuts w' = config_shortcuts w /\
    menus w' = <[self := m']> (menus w) /\
    m_actions m' = m_actions m ++ seq (length (actions w)) (length l) /\
    m_attrs m' = m_attrs m.
Proof.
  induction l as [|x l IH]; intros w m Hm Hf.
  - exists w, [], m. split; [done|]. rewrite !app_nil_r.
    split; [done|]. split; [constructor|]. split; [done|]. split; [done|].
    split; [by rewrite list_insert_id|done].
  - destruct (Hf x (or_introl eq_refl) w (ex_intro _ m Hm))
      as (w1 & act & R1 & (A1 & E1 & C1 & m0 & m1 & Hm0 & M1 & L1 & T1) & HP).
    assert (m0 = m) as -> by congruence.
    assert (Hm1 : menus w1 !! self = Some m1).
    { rewrite M1. apply list_lookup_insert_eq. by eapply lookup_lt_Some. }
    destruct (IH w1 m1 Hm1) as (w' & acts & m' & R & A & F & E & C & M & L & T).
    { intros y Hy. apply Hf. by right. }
    assert (Hlen : length (actions w1) = S (length (actions w))).
    { rewrite A1, length_app. simpl. lia. }
    exists w', (act :: acts), m'. split.
    { cbn [mapM]. eapply bind_run; [exact R1|].
      eapply bind_run; [exact R|]. rewrite Hlen. reflexivity. }
    split; [by rewrite A, A1, <- app_assoc|].
    split; [by constructor|]. split; [congruence|]. split; [congruence|].
    split; [by rewrite M, M1, list_insert_insert_eq|].
    split; [|congruence].
    rewrite L, L1, Hlen, <- app_assoc. reflexivity.
Qed.

Lemma remove_loop self old : forall w m,
  menus w !! self = Some m ->
  forM_ old (removeAction self) w
  = Ok (tt, with_menus
              (<[self := m_with_actions (without old (m_actions m)) m]> (menus w)) w).
Proof.
  induction old as [|a old IH]; intros w m Hm.
  - cbn. unfold ret. do 2 f_equal. unfold without. cbn.
    replace (m_with_actions (m_actions m) m) with m by (by destruct m).
    rewrite list_insert_id by done. by destruct w.
  - cbn [forM_]. eapply bind_run.
    { unfold removeAction. by apply update_menu_run. }
    rewrite (IH _ (m_with_actions (remove_first a (m_actions m)) m)).
    2:{ cbn. apply list_lookup_insert_eq. by eapply lookup_lt_Some. }
    cbn [menus with_menus]. rewrite list_insert_insert_eq. reflexivity.
Qed.

Lemma created_lookup {X} (P : X -> QAction -> Prop) l acts (base : list QAction) :
  Forall2 P l acts ->
  Forall2 (fun a x => exists act, (base ++ acts) !! a = Some act /\ P x act)
          (seq (length base) (length l)) l.
Proof.
  intros F. revert base. induction F as [|x act l acts HP F IH]; intros base.
  - constructor.
  - cbn [length seq]. constructor.
    + exists act. split; [|done]. by rewrite lookup_app_r, Nat.sub_diag.
    + specialize (IH (base ++ [act])).
      rewrite length_app in IH. simpl in IH.
      rewrite Nat.add_1_r, <- app_assoc in IH. exact IH.
Qed.

(** X12.  [onToolInstanceChange] removes the old tool items from the
    menu and adds one checkable item per tool, in order, at the end of
    the menu: its text is the name of the tool and it is checked exactly
    when the tool has an instance; [_toolActions] holds the new items. *)
Theorem onToolInstanceChange_checkmarks (self : menu_id) (w : World) (m : QMenu)
    (old : list action_id) :
  menus w !! self = Some m ->
  dict_get (m_attrs m) "_toolActions" = Some old ->
  Forall (fun tool => exists p, Menu._createMenuPathName tool.1 = Ok p)
         (toolInfo (env w)) ->
  exists w' m' created,
    ToolsMenu.onToolInstanceChange self w = Ok (tt, w') /\
    menus w' !! self = Some m' /\
    dict_get (m_attrs m') "_toolActions" = Some created /\
    m_actions m' = without old (m_actions m) ++ created /\
    Forall2 (fun a tool =>
               exists act, actions w' !! a = Some act /\
                 a_text act = tool.1 /\ a_checkable act = true /\
                 a_checked act = tool.2)
            created (toolInfo (env w)).
Proof.
  intros Hm Hold Hnames.
  set (m1 := m_with_actions (without old (m_actions m)) m).
  set (w1 := with_menus (<[self := m1]> (menus w)) w).
  assert (Hm1 : menus w1 !! self = Some m1).
  { cbn. apply list_lookup_insert_eq. by eapply lookup_lt_Some. }
  destruct (mapM_items self
              (fun (tool : string * bool) act =>
                 a_text act = tool.1 /\ a_checkable act = true /\
                 a_checked act = tool.2)
              (fun '(name, active) =>
                 Menu.addCheckItem self (PText name)
                   (Some (Fn (name +:+ ".menuLauncher"))) VNone active)
              (toolInfo (env w)) w1 m1 Hm1)
    as (w2 & acts & m2 & R & A & F & E & C & M & L & T).
  { intros [name active] Hin w0 [m0 Hm0].
    rewrite Forall_forall in Hnames.
    destruct (Hnames (name, active)) as [p Hp]; [by apply list_elem_of_In|].
    eexists _, _. split; [by eapply addCheckItem_world|].
    split; [by apply item_step_intro; [eauto | intros ? [= <-]%(eq_trans (eq_sym Hm0))]|].
    unfold connected.
    match goal with |- context [rebind ?c ?x] =>
      destruct (rebind_fields c x) as (-> & _ & -> & -> & _) end.
    done. }
  assert (Hm2 : menus w2 !! self = Some m2).
  { rewrite M. apply list_lookup_insert_eq. by eapply lookup_lt_Some. }
  eexists _, _, _. split.
  { unfold ToolsMenu.onToolInstanceChange.
    eapply bind_run.
    { unfold get_attr. eapply bind_run; [by apply get_menu_run|]. by rewrite Hold. }
    eapply bind_run; [by apply remove_loop|]. fold m1 w1.
    eapply bind_run; [reflexivity|].
    eapply bind_run; [exact R|].
    unfold set_attr. by apply update_menu_run. }
  cbn [menus with_menus actions]. split.
  { apply list_lookup_insert_eq. by eapply lookup_lt_Some. }
  cbn [m_attrs m_with_attrs m_actions].
  split; [by rewrite dict_get_set, str_eqb_refl|].
  split; [by rewrite L|].
  rewrite A. by apply created_lookup.
Qed.

Lemma onToolInstanceChange_checkmarks_witness :
  exists w' m' created,
    ToolsMenu.onToolInstanceChange 0 tools_menu_app = Ok (tt, w') /\
    menus w' !! 0 = Some m' /\
    dict_get (m_attrs m') "_toolActions" = Some created /\
    m_actions m' = created /\
    Forall2 (fun a tool =>
               exists act, actions w' !! a = Some act /\
                 a_text act = tool.1 /\ a_checkable act = true /\
                 a_checked act = tool.2)
            created [("Source structure", true); ("File browser", false)].
Proof.
  destruct (onToolInstanceChange_checkmarks 0 tools_menu_app
              {| m_title := "Tools"; m_parent := MenuBarW; m_menuAction := 0;
                 m_actions := []; m_menuPath := "tools"; m_groups := [];
                 m_attrs := [("_toolActions", []); ("_shellCreateActions", []);
                             ("_items", [])] |} [])
    as (w' & m' & created & R & Hm & Ha & Hl & F).
  - reflexivity.
  - reflexivity.
  - repeat (constructor; [eexists; vm_compute; reflexivity|]). constructor.
  - exists w', m', created. split; [exact R|]. split; [exact Hm|].
    split; [exact Ha|]. split; [exact Hl | exact F].
Defined.

(** X13.  [updateShells] always returns: it removes the old items from
    the menu and adds one item per shell configuration, in order, with
    the text "Create shell i: (name)", [i] counting from 1, which calls
    [iep.shells.addShell] with the configuration;
    [_shellCreateActions] holds the new items. *)
Theorem updateShells_replaces_items (self : menu_id) (w : World) (m : QMenu)
    (old : list action_id) :
  menus w !! self = Some m ->
  dict_get (m_attrs m) "_shellCreateActions" = Some old ->
  exists w' m' created,
    ShellMenu.updateShells self w = Ok (tt, w') /\
    menus w' !! self = Some m' /\
    dict_get (m_attrs m') "_shellCreateActions" = Some created /\
    m_actions m' = without old (m_actions m) ++ created /\
    Forall2 (fun a config =>
               exists act, actions w' !! a = Some act /\
                 a_text act = "Create shell " +:+ str_of_Z (config.1 + 1) +:+
                              ": (" +:+ config.2 +:+ ")" /\
                 a_triggered act
                 = [CallValue (Fn "iep.shells.addShell") (VObj config.2)])
            created (enumerate_from 0 (shellConfigs (env w))).
Proof.
  intros Hm Hold.
  set (m1 := m_with_actions (without old (m_actions m)) m).
  set (w1 := with_menus (<[self := m1]> (menus w)) w).
  assert (Hm1 : menus w1 !! self = Some m1).
  { cbn. apply list_lookup_insert_eq. by eapply lookup_lt_Some. }
  destruct (mapM_items self
              (fun (config : Z * string) act =>
                 a_text act = "Create shell " +:+ str_of_Z (config.1 + 1) +:+
                              ": (" +:+ config.2 +:+ ")" /\
                 a_triggered act
                 = [CallValue (Fn "iep.shells.addShell") (VObj config.2)])
              (fun '(i, name) =>
                 Menu.addItem self
                   (PText ("Create shell " +:+ str_of_Z (i + 1) +:+ ": (" +:+
                           name +:+ ")"))
                   (Some (Fn "iep.shells.addShell")) (VObj name))
              (enumerate_from 0 (shellConfigs (env w))) w1 m1 Hm1)
    as (w2 & acts & m2 & R & A & F & E & C & M & L & T).
  { intros [i name] Hin w0 [m0 Hm0].
    destruct (createMenuPathName_head "C"
                ("reate shell " +:+ str_of_Z (i + 1) +:+ ": (" +:+ name +:+ ")"))
      as [p Hp]; [done..|].
    eexists _, _. split; [by eapply addItem_world|].
    split; [by apply item_step_intro; [eauto | intros ? [= <-]%(eq_trans (eq_sym Hm0))]|].
    unfold connected.
    match goal with |- context [rebind ?c ?x] =>
      destruct (rebind_fields c x) as (-> & _ & _ & _ & _ & -> & _) end.
    done. }
  assert (Hm2 : menus w2 !! self = Some m2).
  { rewrite M. apply list_lookup_insert_eq. by eapply lookup_lt_Some. }
  eexists _, _, _. split.
  { unfold ShellMenu.updateShells.
    eapply bind_run.
    { unfold get_attr. eapply bind_run; [by apply get_menu_run|]. by rewrite Hold. }
    eapply bind_run; [by apply remove_loop|]. fold m1 w1.
    eapply bind_run; [reflexivity|].
    eapply bind_run; [exact R|].
    unfold set_attr. by apply update_menu_run. }
  cbn [menus with_menus actions]. split.
  { apply list_lookup_insert_eq. by eapply lookup_lt_Some. }
  cbn [m_attrs m_with_attrs m_actions].
  split; [by rewrite dict_get_set, str_eqb_refl|].
  split; [by rewrite L|].
  rewrite A. by apply created_lookup.
Qed.

Lemma updateShells_replaces_items_witness :
  exists w' m' created,
    ShellMenu.updateShells 0 tools_menu_app = Ok (tt, w') /\
    menus w' !! 0 = Some m' /\
    dict_get (m_attrs m') "_shellCreateActions" = Some created /\
    m_actions m' = created /\
    Forall2 (fun a config =>
               exists act, actions w' !! a = Some act /\
                 a_text act = "Create shell " +:+ str_of_Z (config.1 + 1) +:+
                              ": (" +:+ config.2 +:+ ")" /\
                 a_triggered act
                 = [CallValue (Fn "iep.shells.addShell") (VObj config.2)])
            created [(0%Z, "python"); (1%Z, "pypy (fast)")].
Proof.
  destruct (updateShells_replaces_items 0 tools_menu_app
              {| m_title := "Tools"; m_parent := MenuBarW; m_menuAction := 0;
                 m_actions := []; m_menuPath := "tools"; m_groups := [];
                 m_attrs := [("_toolActions", []); ("_shellCreateActions", []);
                             ("_items", [])] |} [])
    as (w' & m' & created & R & Hm & Ha & Hl & F).
  - reflexivity.
  - reflexivity.
  - exists w', m', created. split; [exact R|]. split; [exact Hm|].
    split; [exact Ha|]. split; [exact Hl | exact F].
Defined.

Lemma group_item_can_be_checked_witness :
  exists a w' w'' act,
    Menu.addGroupItem 0 (PText "4 spaces") (VStr "width") (VInt 4)
      (Some (Method 0 "setWidth")) false tools_menu_app = Ok (a, w') /\
    Menu.setCheckedOption 0 (VStr "width") (VInt 4) w' = Ok (tt, w'') /\
    actions w'' !! a = Some act /\
    a_text act = "4 spaces" /\
    a_checkable act = true /\ a_checked act = true /\
    a_toggled act = [CallIfChecked (Method 0 "setWidth") (VInt 4)].
Proof.
  eapply (group_item_can_be_checked 0 tools_menu_app _ (PText "4 spaces")).
  - reflexivity.
  - vm_compute. reflexivity.
Defined.

Lemma enabled_item_idemp enabled act :
  enabled_item enabled (enabled_item enabled act) = enabled_item enabled act.
Proof.
  unfold enabled_item. destruct enabled; [done|].
  destruct (a_checkable act) eqn:E; cbn; by rewrite ?E.
Qed.

Lemma setEnabled_step child enabled w act :
  actions w !! child = Some act ->
  (action_setEnabled child enabled ;;
   if negb enabled then setChecked child false else ret tt)%M w
  = Ok (tt, with_actions (<[child := enabled_item enabled act]> (actions w)) w).
Proof.
  intros Ha. eapply bind_run; [by apply update_action_run|].
  unfold enabled_item. destruct enabled; cbn [negb]; [done|].
  unfold setChecked. erewrite update_action_run.
  2:{ cbn. apply list_lookup_insert_eq. by eapply lookup_lt_Some. }
  cbn [actions with_actions a_checkable a_with_enabled].
  by rewrite list_insert_insert_eq.
Qed.

Lemma setEnabled_loop enabled items : forall w,
  Forall (fun a => is_Some (actions w !! a)) items ->
  exists acts',
    forM_ items (fun child =>
      action_setEnabled child enabled ;;
      if negb enabled then setChecked child false else ret tt)%M w
    = Ok (tt, with_actions acts' w) /\
    length acts' = length (actions w) /\
    forall a, acts' !! a =
              if decide (a ∈ items) then enabled_item enabled <$> actions w !! a
              else actions w !! a.
Proof.
  induction items as [|child items IH]; intros w Hex.
  - exists (actions w). split; [by destruct w|]. split; [done|]. intros a.
    destruct (decide _) as [H|]; [|done]. by apply elem_of_nil in H.
  - apply Forall_cons in Hex as [[act Hact] Hex].
    set (w1 := with_actions (<[child := enabled_item enabled act]> (actions w)) w).
    destruct (IH w1) as (acts' & R & Hl & Hget).
    { eapply Forall_impl; [exact Hex|]. intros a [x Hx]. cbn.
      destruct (decide (a = child)) as [->|Hne].
      - rewrite list_lookup_insert_eq by (by eapply lookup_lt_Some). eauto.
      - rewrite list_lookup_insert_ne by done. eauto. }
    exists acts'. split.
    { cbn [forM_]. eapply bind_run; [by apply setEnabled_step|]. exact R. }
    split; [rewrite Hl; cbn; by rewrite length_insert|].
    intros a. rewrite Hget. cbn [actions w1 with_actions].
    destruct (decide (a = child)) as [->|Hne].
    + rewrite list_lookup_insert_eq by (by eapply lookup_lt_Some).
      rewrite (decide_True (P := child ∈ child :: items)) by (by left).
      rewrite Hact. cbn. destruct (decide _); [by rewrite enabled_item_idemp | done].
    + rewrite list_lookup_insert_ne by done.
      destruct (decide (a ∈ items)) as [Hin|Hin].
      * by rewrite decide_True by (by right).
      * rewrite decide_False; [done|]. intros [?|?]%elem_of_cons; done.
Qed.

(** X14.  [IndentationMenu.setEnabled] touches the items of [_items]
    and nothing else: each gets the enabled state asked for; disabling
    also unchecks it, enabling leaves its checked state; texts,
    shortcuts and the menus stay as they were. *)
Theorem setEnabled_items (self : menu_id) (w : World) (m : QMenu)
    (items : list action_id) (enabled : bool) :
  menus w !! self = Some m ->
  dict_get (m_attrs m) "_items" = Some items ->
  Forall (fun a => is_Some (actions w !! a)) items ->
  exists w',
    IndentationMenu.setEnabled self enabled w = Ok (tt, w') /\
    menus w' = menus w /\
    (forall a act, In a items -> actions w !! a = Some act ->
       exists act', actions w' !! a = Some act' /\
         a_enabled act' = enabled /\
         (enabled = true -> a_checked act' = a_checked act) /\
         (enabled = false -> a_checkable act = true -> a_checked act' = false) /\
         a_text act' = a_text act /\ a_shortcuts act' = a_shortcuts act) /\
    (forall a, ~ In a items -> actions w' !! a = actions w !! a).
Proof.
  intros Hm Hitems Hex.
  destruct (setEnabled_loop enabled items w Hex) as (acts' & R & _ & Hget).
  exists (with_actions acts' w). split.
  { unfold IndentationMenu.setEnabled. eapply bind_run; [|exact R].
    unfold get_attr. eapply bind_run; [by apply get_menu_run|]. by rewrite Hitems. }
  split; [done|]. cbn [actions with_actions]. split.
  - intros a act Hin Ha. rewrite Hget, decide_True by (by apply list_elem_of_In).
    rewrite Ha. eexists. split; [reflexivity|].
    unfold enabled_item. destruct enabled; [done|].
    destruct (a_checkable act) eqn:Ec; done.
  - intros a Hn. rewrite Hget, decide_False; [done|]. by rewrite list_elem_of_In.
Qed.

Lemma setEnabled_items_witness :
  exists w',
    IndentationMenu.setEnabled 0 false items_menu_app = Ok (tt, w') /\
    exists act', actions w' !! 1 = Some act' /\ a_enabled act' = false /\
      a_text act' = "Copy".
Proof.
  destruct (setEnabled_items 0 items_menu_app items_menu [1] false)
    as (w' & R & _ & H & _).
  - reflexivity.
  - reflexivity.
  - repeat constructor. by eexists.
  - exists w'. split; [exact R|].
    destruct (H 1 copy_action) as (act' & Ha & He & _ & _ & Ht & _).
    + simpl. by left.
    + reflexivity.
    + exists act'. split; [exact Ha|]. split; [exact He | exact Ht].
Defined.

(** ** The tree of the key mapping dialog *)

(** X15.  The rows of the tree are the actions of the menu: for a parent
    that stands for a menu, [index] raises [IndexError] for a row at or
    beyond [rowCount], and for a smaller row returns an index that
    points to the submenu the action opens, or to the action itself,
    [hasChildren] being true exactly in the first case. *)
Theorem index_rows (self : KeyMapModel) (w : World) (parent : QModelIndex)
    (pm : menu_id) (m : QMenu) (row column : nat) :
  index_menu self parent = Some pm ->
  menus w !! pm = Some m ->
  KeyMapModel.rowCount self w parent = Ok (length (m_actions m)) /\
  (length (m_actions m) <= row ->
   KeyMapModel.index self w row column parent = Raise IndexError) /\
  (forall a act,
     m_actions m !! row = Some a -> actions w !! a = Some act ->
     KeyMapModel.index self w row column parent
     = Ok (Index row column (child_item a act)) /\
     KeyMapModel.hasChildren self (Index row column (child_item a act))
     = bool_decide (is_Some (a_menu act))).
Proof.
  intros Hp Hm.
  assert (Hl : forall parentMenu,
            parentMenu = match parent with
                         | InvalidIndex => option_map ItemMenu (_root self)
                         | Index _ _ p => Some p
                         end ->
            KeyMapModel.item_actions w parentMenu = Ok (m_actions m)).
  { intros ? ->. destruct parent as [|r c [x|x]]; cbn in Hp; try done.
    - rewrite Hp. cbn. unfold find_menu. by rewrite Hm.
    - injection Hp as ->. cbn. unfold find_menu. by rewrite Hm. }
  split; [|split].
  - unfold KeyMapModel.rowCount.
    destruct parent as [|r c it]; by rewrite (Hl _ eq_refl).
  - intros Hrow. unfold KeyMapModel.index. rewrite (Hl _ eq_refl). cbn [res_bind].
    unfold getitem. by rewrite lookup_ge_None_2.
  - intros a act Ha Hact. split.
    + unfold KeyMapModel.index. rewrite (Hl _ eq_refl). cbn [res_bind].
      unfold getitem, find_action. rewrite Ha. cbn [res_bind]. rewrite Hact.
      cbn [res_bind]. unfold child_item. by destruct (a_menu act).
    + unfold child_item. by destruct (a_menu act).
Qed.

Lemma index_rows_witness :
  KeyMapModel.rowCount {| _root := Some 0 |} edit_menu_app InvalidIndex = Ok 1 /\
  KeyMapModel.index {| _root := Some 0 |} edit_menu_app 1 0 InvalidIndex
  = Raise IndexError /\
  KeyMapModel.index {| _root := Some 0 |} edit_menu_app 0 2 InvalidIndex
  = Ok (Index 0 2 (ItemAction 1)).
Proof.
  destruct (index_rows {| _root := Some 0 |} edit_menu_app InvalidIndex 0
              {| m_title := "Edit"; m_parent := MenuBarW; m_menuAction := 0;
                 m_actions := [1]; m_menuPath := "edit"; m_groups := [];
                 m_attrs := [] |} 1 0 eq_refl eq_refl) as (Hc & Hhigh & _).
  destruct (index_rows {| _root := Some 0 |} edit_menu_app InvalidIndex 0
              {| m_title := "Edit"; m_parent := MenuBarW; m_menuAction := 0;
                 m_actions := [1]; m_menuPath := "edit"; m_groups := [];
                 m_attrs := [] |} 0 2 eq_refl eq_refl) as (_ & _ & Hrow).
  split; [exact Hc|]. split.
  - apply Hhigh. simpl. lia.
  - exact (proj1 (Hrow 1 copy_action eq_refl eq_refl)).
Defined.

(** ** Versions *)

Lemma str_compare_refl a : str_compare a a = Eq.
Proof. induction a as [|x a IH]; [done|]. cbn. by rewrite N.compare_refl. Qed.

Lemma str_compare_gt_trans a : forall b c,
  str_compare a b = Gt -> str_compare b c = Gt -> str_compare a c = Gt.
Proof.
  induction a as [|x a IH]; intros [|y b] [|z c]; cbn; try done.
  destruct (N.compare_spec (ord x) (ord y)) as [Exy|Lxy|Gxy]; try done;
    destruct (N.compare_spec (ord y) (ord z)) as [Eyz|Lyz|Gyz]; try done;
    intros H1 H2.
  - rewrite Exy, Eyz, N.compare_refl. by eapply IH.
  - assert ((ord x ?= ord z)%N = Gt) as -> by (apply N.compare_gt_iff; lia). done.
  - assert ((ord x ?= ord z)%N = Gt) as -> by (apply N.compare_gt_iff; lia). done.
  - assert ((ord x ?= ord z)%N = Gt) as -> by (apply N.compare_gt_iff; lia). done.
Qed.

Lemma str_gtb_nil a : str_gtb a "" = negb (str_eqb a "").
Proof. by destruct a. Qed.

Lemma ord_inj x y : ord x = ord y -> x = y.
Proof.
  intros H. rewrite <- (ascii_N_embedding x), <- (ascii_N_embedding y).
  unfold ord in H. by rewrite H.
Qed.

Lemma str_compare_eq a : forall b, str_compare a b = Eq -> a = b.
Proof.
  induction a as [|x a IH]; intros [|y b]; cbn; try done.
  destruct (N.compare_spec (ord x) (ord y)) as [E|L|G]; try done.
  intros H. by rewrite (ord_inj _ _ E), (IH _ H).
Qed.

Lemma str_compare_antisym a : forall b,
  str_compare b a = CompOpp (str_compare a b).
Proof.
  induction a as [|x a IH]; intros [|y b]; cbn; try done.
  rewrite (N.compare_antisym (ord x) (ord y)).
  destruct (ord x ?= ord y)%N; cbn; [apply IH | done | done].
Qed.

Lemma str_gtb_trans a b c :
  str_gtb a b = false -> str_gtb b c = false -> str_gtb a c = false.
Proof.
  unfold str_gtb. intros Hab Hbc.
  destruct (str_compare a c) eqn:Hac; try done.
  destruct (str_compare a b) eqn:Eab; try done.
  - apply str_compare_eq in Eab. subst. by rewrite Hac in Hbc.
  - assert (Hba : str_compare b a = Gt) by (by rewrite str_compare_antisym, Eab).
    by rewrite (str_compare_gt_trans _ _ _ Hba Hac) in Hbc.
Qed.

Lemma str_gtb_refl a : str_gtb a a = false.
Proof. unfold str_gtb. by rewrite str_compare_refl. Qed.

Lemma str_gtb_asym a b : str_gtb a b = true -> str_gtb b a = false.
Proof.
  unfold str_gtb. rewrite (str_compare_antisym a b).
  by destruct (str_compare a b).
Qed.

Lemma select_best_from best l :
  let pick := fun remoteVersion result =>
                if str_gtb (expandVersion result) (expandVersion remoteVersion)
                then result else remoteVersion in
  str_gtb (expandVersion best) (expandVersion (foldl pick best l)) = false /\
  (forall r, In r l ->
     str_gtb (expandVersion r) (expandVersion (foldl pick best l)) = false) /\
  (foldl pick best l = best \/ In (foldl pick best l) l).
Proof.
  intros pick. revert best. induction l as [|x l IH]; intros best.
  - cbn. split; [apply str_gtb_refl|]. split; [done | by left].
  - cbn [foldl]. destruct (IH (pick best x)) as (Hb & Hall & Hin).
    assert (Hx : str_gtb (expandVersion x) (expandVersion (pick best x)) = false).
    { unfold pick. destruct (str_gtb (expandVersion x) (expandVersion best)) eqn:E;
        [apply str_gtb_refl | done]. }
    assert (Hbest : str_gtb (expandVersion best) (expandVersion (pick best x)) = false).
    { unfold pick. destruct (str_gtb (expandVersion x) (expandVersion best)) eqn:E;
        [by apply str_gtb_asym | apply str_gtb_refl]. }
    split; [by eapply str_gtb_trans|]. split.
    + intros r [<-|Hr]; [by eapply str_gtb_trans | by apply Hall].
    + destruct Hin as [->|Hin]; [|right; by right].
      unfold pick.
      destruct (str_gtb (expandVersion x) (expandVersion best));
        [right; by left | by left].
Qed.

Lemma zeros_app_nonempty n d : d <> "" -> zeros n +:+ d <> "".
Proof. intros Hd. destruct n; [done|]. cbn [zeros]. by rewrite str_app_cons. Qed.

Lemma digits_from_nonempty f n acc : digits_from (S f) n acc <> "".
Proof.
  revert n acc. induction f as [|f IH]; intros n acc; cbn [digits_from].
  - by destruct (n <? 10)%N.
  - destruct (n <? 10)%N; [done|]. apply IH.
Qed.

Lemma format_05i_nonempty z : format_05i z <> "".
Proof.
  unfold format_05i. destruct (z <? 0)%Z; [done|].
  apply zeros_app_nonempty, digits_from_nonempty.
Qed.

Lemma expand_part_nonempty c : c <> "" -> expand_part c <> "".
Proof.
  intros Hc. unfold expand_part. destruct (int_of_str c); [|done].
  apply format_05i_nonempty.
Qed.

Lemma str_join_nonempty sep p q l : sep <> "" -> str_join sep (p :: q :: l) <> "".
Proof.
  intros Hs. rewrite str_join_cons2. destruct p; [|by rewrite str_app_cons].
  rewrite str_app_nil. destruct sep; [done|]. by rewrite str_app_cons.
Qed.

Lemma expandVersion_nonempty v : v <> "" -> expandVersion v <> "".
Proof.
  intros Hv. rewrite expandVersion_map.
  pose proof (str_split_length "." v) as Hl.
  destruct (str_split "." v) as [|p [|q l]] eqn:Es; simpl in Hl; [lia| |].
  - cbn [map str_join]. apply expand_part_nonempty.
    assert (str_count "." v = 0) as H0 by lia. apply str_count_0 in H0.
    rewrite (str_split_absent _ _ H0) in Es. by injection Es as <-.
  - cbn [map]. by apply str_join_nonempty.
Qed.

(** X16.  The version the update check selects is one of those found
    and none of them expands to a greater string; nothing is selected
    only when every version found is the empty string. *)
Theorem select_best_is_latest (results : list string) :
  (forall r, In r results ->
     str_gtb (expandVersion r) (expandVersion (select_best results)) = false) /\
  (select_best results = "" \/ In (select_best results) results) /\
  (select_best results = "" -> forall r, In r results -> r = "").
Proof.
  destruct (select_best_from "" results) as (_ & Hall & Hin).
  split; [exact Hall|]. split; [exact Hin|].
  intros He r Hr. specialize (Hall r Hr). fold (select_best results) in Hall.
  rewrite He in Hall. change (expandVersion "") with "" in Hall.
  rewrite str_gtb_nil in Hall.
  destruct (str_eqb (expandVersion r) "") eqn:E; [|done].
  apply str_eqb_eq in E. destruct (decide (r = "")) as [|Hn]; [done|].
  by apply expandVersion_nonempty in Hn.
Qed.

Lemma all_digits_app a b : all_digits (a +:+ b) = all_digits a && all_digits b.
Proof.
  induction a as [|c a IH]; [done|]. rewrite str_app_cons. cbn [all_digits].
  by rewrite IH, andb_assoc.
Qed.

Lemma dec_value_app a : forall acc b,
  dec_value acc (a +:+ b) = dec_value (dec_value acc a) b.
Proof. induction a as [|c a IH]; intros acc b; [done|]. rewrite str_app_cons. apply IH. Qed.

Lemma isdigit_digit_char d : (d < 10)%N -> isdigit (digit_char d) = true.
Proof.
  intros H. unfold isdigit, in_range. rewrite (ord_digit_char d H).
  apply andb_true_intro. split; apply N.leb_le; lia.
Qed.

(** The digits [digits_from] puts in front of [s], and their value. *)
Lemma digits_from_value f : forall n s,
  (n < 10 ^ N.of_nat (S f))%N ->
  exists d, digits_from (S f) n s = d +:+ s /\ all_digits d = true /\ d <> "" /\
            forall acc, dec_value acc (d +:+ "") = (acc * 10 ^ N.of_nat (String.length d) + n)%N.
Proof.
  induction f as [|f IH]; intros n s Hn.
  - assert (n < 10)%N by (simpl in Hn; lia).
    rewrite digits_from_small by done.
    exists (String (digit_char n) ""). split; [done|].
    split; [cbn [all_digits]; by rewrite isdigit_digit_char|]. split; [done|].
    intros acc. rewrite str_app_nil_r. cbn [dec_value String.length].
      rewrite (ord_digit_char n) by done. change (10 ^ N.of_nat 1)%N with 10%N. lia.
  - destruct (N.ltb_spec n 10) as [Hs|Hb].
    + rewrite digits_from_small by done.
      exists (String (digit_char n) ""). split; [done|].
      split; [cbn [all_digits]; by rewrite isdigit_digit_char|]. split; [done|].
      intros acc. rewrite str_app_nil_r. cbn [dec_value String.length].
      rewrite (ord_digit_char n) by done. change (10 ^ N.of_nat 1)%N with 10%N. lia.
    + rewrite digits_from_big by done.
      assert (Hm : (n mod 10 < 10)%N) by (apply N.mod_lt; lia).
      destruct (IH (n / 10)%N (String (digit_char (n mod 10)) s))
        as (d & Hd & Had & Hne & Hval).
      { apply N.Div0.div_lt_upper_bound.
        replace (N.of_nat (S (S f))) with (N.succ (N.of_nat (S f))) in Hn by lia.
        rewrite N.pow_succ_r' in Hn. lia. }
      exists (d +:+ String (digit_char (n mod 10)) "").
      split; [by rewrite Hd, str_app_assoc|].
      split.
      { rewrite all_digits_app, Had. cbn [all_digits]. by rewrite isdigit_digit_char. }
      split; [destruct d; [done | by rewrite str_app_cons]|].
      intros acc. rewrite str_app_nil_r, dec_value_app.
      specialize (Hval acc). rewrite str_app_nil_r in Hval. rewrite Hval.
      cbn [dec_value]. rewrite (ord_digit_char _ Hm), str_length_app. cbn [String.length].
      replace (N.of_nat (String.length d + 1)) with (N.succ (N.of_nat (String.length d)))
        by lia.
      rewrite N.pow_succ_r'.
      pose proof (N.Div0.div_mod n 10) as Hdm.
      rewrite (N.mul_comm 10 (10 ^ _)), N.mul_assoc.
      set (Y := (acc * 10 ^ N.of_nat (String.length d))%N).
      set (q := (n / 10)%N) in *. set (r := (n mod 10)%N) in *.
      clearbody Y q r. lia.
Qed.

Lemma str_of_N_value n :
  all_digits (str_of_N n) = true /\ str_of_N n <> "" /\
  dec_value 0 (str_of_N n) = n.
Proof.
  unfold str_of_N.
  destruct (digits_from_value (N.to_nat (N.log2 n)) n "") as (d & Hd & Had & Hne & Hval).
  { destruct (N.eq_dec n 0%N) as [->|Hn]; [done|].
    pose proof (N.log2_spec n ltac:(lia)) as [_ Hlt].
    eapply N.lt_le_trans; [exact Hlt|].
    replace (N.of_nat (S (N.to_nat (N.log2 n)))) with (N.succ (N.log2 n)) by lia.
    apply N.pow_le_mono_l. lia. }
  rewrite Hd, str_app_nil_r. split; [done|]. split; [done|].
  specialize (Hval 0%N). rewrite str_app_nil_r in Hval. rewrite Hval. lia.
Qed.

Lemma zeros_digits k d :
  all_digits d = true ->
  all_digits (zeros k +:+ d) = true /\
  forall acc, dec_value acc (zeros k +:+ d)
              = dec_value (acc * 10 ^ N.of_nat k)%N d.
Proof.
  intros Hd. induction k as [|k [IH1 IH2]].
  - split; [done|]. intros acc. cbn. f_equal. lia.
  - cbn [zeros]. rewrite str_app_cons. split; [by cbn [all_digits]; rewrite IH1|].
    intros acc. cbn [dec_value]. rewrite IH2. f_equal.
    replace (N.of_nat (S k)) with (N.succ (N.of_nat k)) by lia.
    rewrite N.pow_succ_r'. change (ord "0") with 48%N. lia.
Qed.

(** [int('%05i' % z) == z] *)
Lemma int_of_format_05i z : int_of_str (format_05i z) = Some z.
Proof.
  unfold format_05i.
  destruct (str_of_N_value (Z.abs_N z)) as (Had & Hne & Hval).
  set (d := str_of_N (Z.abs_N z)) in *.
  destruct (Z.ltb_spec z 0) as [Hneg|Hpos].
  - destruct (zeros_digits (4 - String.length d) d Had) as [H1 H2].
    unfold int_of_str. cbn [lstrip_int]. change (int_space "-") with false. cbv iota.
    rewrite (int_digits_all_digits _ 0 false H1).
    2:{ left. by apply zeros_app_nonempty. }
    cbn [option_map]. rewrite H2, N.mul_0_l, Hval. f_equal. lia.
  - destruct (zeros_digits (5 - String.length d) d Had) as [H1 H2].
    rewrite int_of_str_decimal.
    2:{ unfold is_decimal. rewrite H1, andb_true_r. apply negb_true_iff, str_eqb_neq.
        by apply zeros_app_nonempty. }
    rewrite H2, N.mul_0_l, Hval. f_equal. lia.
Qed.

Lemma all_digits_no_dot d : all_digits d = true -> str_contains "." d = false.
Proof.
  induction d as [|c d IH]; [done|]. cbn [all_digits str_contains].
  intros [Hc Hd]%andb_prop. rewrite (IH Hd), orb_false_r.
  apply char_eqb_neq. intros ->. discriminate Hc.
Qed.

Lemma format_05i_no_dot z : str_contains "." (format_05i z) = false.
Proof.
  unfold format_05i. destruct (str_of_N_value (Z.abs_N z)) as (Had & _ & _).
  destruct (z <? 0)%Z.
  - cbn [str_contains]. change (char_eqb "-" ".") with false. cbn [orb].
    apply all_digits_no_dot. by apply zeros_digits.
  - apply all_digits_no_dot. by apply zeros_digits.
Qed.

Lemma expand_parts_no_dot v :
  Forall (fun p => str_contains "." p = false) (map expand_part (str_split "." v)).
Proof.
  apply Forall_map. eapply Forall_impl; [apply (str_split_parts "." "." v); by left|].
  intros c Hc. cbn. unfold expand_part. destruct (int_of_str c); [|done].
  apply format_05i_no_dot.
Qed.

Lemma expandVersion_split v :
  str_split "." (expandVersion v) = map expand_part (str_split "." v).
Proof.
  rewrite expandVersion_map. apply str_split_join; [|apply expand_parts_no_dot].
  pose proof (str_split_length "." v) as Hl.
  destruct (str_split "." v); [simpl in Hl; lia | done].
Qed.

(** X17.  [expandVersion] keeps the components and their order: the
    result has as many dot-separated components as the version, each of
    them the ['%05i'] text of the component when [int] reads it and the
    component itself otherwise. *)
Theorem expandVersion_components (version : string) :
  Forall2 (fun ver part =>
             match int_of_str ver with
             | Some n => part = format_05i n
             | None => part = ver
             end)
          (str_split "." version) (str_split "." (expandVersion version)).
Proof.
  rewrite expandVersion_split.
  induction (str_split "." version) as [|ver l IH]; cbn [map]; constructor; [|done].
  unfold expand_part. by destruct (int_of_str ver).
Qed.

Lemma expand_part_idemp c : expand_part (expand_part c) = expand_part c.
Proof.
  destruct (int_of_str c) as [n|] eqn:E.
  - assert (expand_part c = format_05i n) as -> by (unfold expand_part; by rewrite E).
    unfold expand_part. by rewrite int_of_format_05i.
  - assert (expand_part c = c) as -> by (unfold expand_part; by rewrite E).
    unfold expand_part. by rewrite E.
Qed.

(** X18.  Expanding an expanded version changes nothing:
    [int('%05i' % n)] is [n] again. *)
Theorem expandVersion_idempotent (version : string) :
  expandVersion (expandVersion version) = expandVersion version.
Proof.
  rewrite (expandVersion_map (expandVersion version)), expandVersion_split.
  rewrite (expandVersion_map version). f_equal.
  rewrite <- list_fmap_compose. apply list_fmap_ext. intros i c _. cbn.
  apply expand_part_idemp.
Qed.

(** ** Messages *)

Lemma lstrip_head s :
  str_lstrip s = "" \/ exists c r, str_lstrip s = String c r /\ isspace c = false.
Proof.
  induction s as [|c r IH]; [by left|]. cbn [str_lstrip].
  destruct (isspace c) eqn:E; [done|]. right. by exists c, r.
Qed.

Lemma replace_keeps_head o rest new c r :
  o <> c ->
  str_replace (String o rest) new (String c r)
  = String c (str_replace (String o rest) new r).
Proof.
  intros Hne. unfold str_replace. apply replace_from_nomatch.
  cbn [strip_prefix]. by apply char_eqb_neq in Hne as ->.
Qed.

Lemma replace_nil o rest new : str_replace (String o rest) new "" = "".
Proof. reflexivity. Qed.

Lemma iter_replace_keeps_head n o rest new c r :
  o <> c ->
  Nat.iter n (str_replace (String o rest) new) (String c r)
  = String c (Nat.iter n (str_replace (String o rest) new) r).
Proof.
  intros Hne. induction n as [|n IH]; [done|].
  change (Nat.iter (S n) ?f ?s) with (f (Nat.iter n f s)).
  by rewrite IH, replace_keeps_head.
Qed.

Lemma iter_replace_nil n o rest new :
  Nat.iter n (str_replace (String o rest) new) "" = "".
Proof.
  induction n as [|n IH]; [done|].
  change (Nat.iter (S n) ?f ?s) with (f (Nat.iter n f s)). by rewrite IH.
Qed.

Lemma not_space_chars c :
  isspace c = false -> " "%char <> c /\ CR <> c /\ LF <> c.
Proof. destruct c as [[] [] [] [] [] [] [] []]; vm_compute; by intros. Qed.

Lemma unwrapText_lstrip text : str_lstrip (unwrapText text) = unwrapText text.
Proof.
  unfold unwrapText.
  destruct (lstrip_head (str_replace (String LF "") "" text))
    as [->|(c & r & -> & Hc)].
  - by rewrite iter_replace_nil.
  - destruct (not_space_chars c Hc) as (Hs & Hcr & Hlf).
    rewrite iter_replace_keeps_head by done.
    rewrite !replace_keeps_head by done.
    cbn [str_lstrip]. by rewrite Hc.
Qed.

Lemma replace_absent_head o rest new s :
  str_contains o s = false -> str_replace (String o rest) new s = s.
Proof.
  induction s as [|c r IH]; [done|]. cbn [str_contains].
  intros [Hc Hr]%orb_false_elim. rewrite replace_keeps_head.
  - by rewrite IH.
  - apply char_eqb_neq in Hc. congruence.
Qed.

Lemma replace_double_space s :
  no_double_space s = true -> str_replace "  " " " s = s.
Proof.
  induction s as [|c r IH]; [done|]. intros H. unfold str_replace.
  rewrite replace_from_nomatch.
  - f_equal. apply IH. cbn [no_double_space] in H.
    destruct r as [|d r']; [done|]. by apply andb_prop in H as [_ H].
  - cbn [strip_prefix]. destruct (char_eqb " " c) eqn:Ec; [|done].
    destruct r as [|d r']; [done|]. cbn [no_double_space] in H.
    destruct (char_eqb " " d) eqn:Ed; [|done].
    apply char_eqb_eq in Ec, Ed. subst. done.
Qed.

Lemma unwrapText_fixes text : unwrapped text = true -> unwrapText text = text.
Proof.
  unfold unwrapped, unwrapText.
  intros [[[Hlf Hcr]%andb_prop Hl]%andb_prop Hd]%andb_prop.
  apply negb_true_iff in Hlf, Hcr. apply str_eqb_eq in Hl.
  rewrite (replace_absent_head LF "" "" text Hlf), Hl.
  assert (Hi : forall n, Nat.iter n (str_replace "  " " ") text = text).
  { induction n as [|n IH]; [done|].
    change (Nat.iter (S n) ?f ?s) with (f (Nat.iter n f s)).
    by rewrite IH, replace_double_space. }
  rewrite Hi, (replace_absent_head CR "" _ text Hcr).
  by apply replace_absent_head.
Qed.

(** Replacing two spaces by one makes a text shorter, unless there is
    nothing to replace. *)
Lemma replace_double_space_length s :
  String.length (str_replace "  " " " s) <= String.length s /\
  (String.length (str_replace "  " " " s) = String.length s ->
   no_double_space s = true).
Proof.
  unfold str_replace.
  apply (replace_from_ind "  " " "
           (fun s out => String.length out <= String.length s /\
                         (String.length out = String.length s ->
                          no_double_space s = true))); [done|done|..].
  - intros c r rest out Hp [Hle _].
    apply strip_prefix_app in Hp. rewrite Hp.
    rewrite !str_length_app. cbn [String.length]. split; lia.
  - intros c r out Hp [Hle Heq]. cbn [String.length]. split; [lia|].
    intros H. cbn [no_double_space]. destruct r as [|d r']; [done|].
    rewrite Heq by lia. rewrite andb_true_r.
    cbn [strip_prefix] in Hp.
    destruct (char_eqb " " c) eqn:Ec.
    + destruct (char_eqb " " d) eqn:Ed; [done|].
      apply char_eqb_neq in Ed. apply negb_true_iff, andb_false_intro2.
      apply char_eqb_neq. unfold SPACE. congruence.
    + apply char_eqb_neq in Ec. apply negb_true_iff, andb_false_intro1.
      apply char_eqb_neq. unfold SPACE. congruence.
Qed.

Lemma iter_replace_double_space n s :
  String.length (Nat.iter n (str_replace "  " " ") s) <= String.length s /\
  (Nat.iter (S n) (str_replace "  " " ") s = s -> no_double_space s = true).
Proof.
  assert (Hle : forall k t, String.length (Nat.iter k (str_replace "  " " ") t)
                            <= String.length t).
  { induction k as [|k IH]; intros t; [done|].
    change (Nat.iter (S k) ?f ?x) with (f (Nat.iter k f x)).
    destruct (replace_double_space_length (Nat.iter k (str_replace "  " " ") t))
      as [H _]. specialize (IH t). lia. }
  split; [apply Hle|]. intros H.
  apply replace_double_space_length.
  assert (Nat.iter (S n) (str_replace "  " " ") s
          = Nat.iter n (str_replace "  " " ") (str_replace "  " " " s)) as E.
  { clear. induction n as [|n IH]; [done|].
    change (Nat.iter (S (S n)) ?f ?x) with (f (Nat.iter (S n) f x)).
    rewrite IH. done. }
  rewrite E in H. pose proof (Hle n (str_replace "  " " " s)) as H1.
  rewrite H in H1. destruct (replace_double_space_length s) as [H2 _]. lia.
Qed.

(** X19.  What [unwrapText] returns never starts with whitespace, and
    the texts it returns unchanged are exactly those of one line (no
    newline, no carriage return) without leading whitespace and without
    two spaces in a row. *)
Theorem unwrapText_fixed_points (text : string) :
  str_lstrip (unwrapText text) = unwrapText text /\
  (unwrapText text = text <-> unwrapped text = true).
Proof.
  split; [apply unwrapText_lstrip|]. split; [|apply unwrapText_fixes].
  intros H.
  assert (Hcr : str_contains CR text = false).
  { rewrite <- H. unfold unwrapText.
    rewrite str_replace_contains by done. by apply str_replace_removes. }
  assert (Hl : str_lstrip text = text).
  { rewrite <- H. apply unwrapText_lstrip. }
  assert (Hlf : str_contains LF text = false).
  { rewrite <- H at 1. unfold unwrapText.
    rewrite str_replace_contains by done.
    rewrite str_replace_char_contains.
    rewrite !iter_replace_contains by done.
    rewrite lstrip_remove_LF, Hl.
    rewrite str_replace_removes by done.
    by rewrite (str_replace_contains CR) by done. }
  unfold unwrapped. rewrite Hlf, Hcr, Hl, str_eqb_refl. cbn [negb andb].
  unfold unwrapText in H.
  rewrite (replace_absent_head LF "" "" text Hlf), Hl in H.
  set (u := Nat.iter 10 (str_replace "  " " ") text) in *.
  assert (Hu : str_contains CR u = false /\ str_contains LF u = false).
  { unfold u. by rewrite !iter_replace_contains. }
  destruct Hu as [Hucr Hulf].
  rewrite (replace_absent_head CR "" _ u Hucr) in H.
  rewrite (replace_absent_head LF " " _ u Hulf) in H.
  by apply (iter_replace_double_space 9).
Qed.

(** ** Running a cell *)

Lemma block_text_app_r pre rest k :
  block_text (pre ++ rest) (length pre + k) = block_text rest k.
Proof. unfold block_text. by rewrite lookup_app_r, Nat.add_comm, Nat.add_sub by lia. Qed.

Lemma block_text_cell cell k :
  Forall (fun b => starts_cell b = false) cell -> k < length cell ->
  starts_cell (block_text cell k) = false.
Proof.
  intros Hc Hk. unfold block_text.
  destruct (lookup_lt_is_Some_2 cell k Hk) as [b Hb]. rewrite Hb. cbn.
  by eapply Forall_lookup_1 in Hc.
Qed.

(** The first loop, from inside a cell. *)
Lemma cell_start_in_cell pre cell post k :
  (pre = [] \/ exists pre' sep, pre = pre' ++ [sep] /\ pre' <> [] /\
                               starts_cell sep = true) ->
  Forall (fun b => starts_cell b = false) cell ->
  k < length cell ->
  RunMenu.cell_start (pre ++ cell ++ post) (length pre + k) = Some (length pre).
Proof.
  intros Hpre Hcell. induction k as [|k IH]; intros Hk.
  - rewrite Nat.add_0_r. destruct Hpre as [->|(pre' & sep & -> & Hne & Hsep)]; [done|].
    rewrite length_app. cbn [length]. rewrite Nat.add_1_r.
    cbn [RunMenu.cell_start].
    assert (E1 : block_text ((pre' ++ [sep]) ++ cell ++ post) (S (length pre'))
                 = block_text cell 0).
    { replace (S (length pre')) with (length (pre' ++ [sep]) + 0)
        by (rewrite length_app; simpl; lia).
      rewrite block_text_app_r. unfold block_text. by rewrite lookup_app_l. }
    rewrite E1, (block_text_cell cell 0 Hcell Hk).
    destruct pre' as [|p0 pre'']; [done|]. cbn [length RunMenu.cell_start].
    assert (E2 : block_text (((p0 :: pre'') ++ [sep]) ++ cell ++ post)
                   (S (length pre'')) = sep).
    { unfold block_text. rewrite <- app_assoc.
      change (S (length pre'')) with (length (p0 :: pre'')).
      by rewrite lookup_app_r, Nat.sub_diag by lia. }
    rewrite E2, Hsep.
    assert ((S (S (length pre'')) <? length (((p0 :: pre'') ++ [sep]) ++ cell ++ post))
            = true) as ->.
    { apply Nat.ltb_lt. rewrite !length_app. simpl. lia. }
    done.
  - rewrite Nat.add_succ_r. cbn [RunMenu.cell_start].
    assert (E : block_text (pre ++ cell ++ post) (S (length pre + k))
                = block_text cell (S k)).
    { rewrite <- Nat.add_succ_r, block_text_app_r. unfold block_text.
      by rewrite lookup_app_l. }
    rewrite E, (block_text_cell cell (S k) Hcell Hk). apply IH. lia.
Qed.

Lemma str_join_app sep a b :
  a <> [] -> b <> [] ->
  str_join sep (a ++ b) = str_join sep a +:+ sep +:+ str_join sep b.
Proof.
  intros Ha Hb. induction a as [|x a IH]; [done|].
  destruct a as [|y a].
  - cbn [app]. destruct b as [|z b]; [done|]. by rewrite str_join_cons2.
  - cbn [app] in *. rewrite !str_join_cons2, IH by done.
    by rewrite !str_app_assoc.
Qed.

(** The second loop, from the first line of a cell. *)
Lemma cell_end_of_cell lineLength cell post : forall position,
  cell <> [] ->
  Forall (fun b => starts_cell b = false) cell ->
  (post = [] /\ (forall b, last cell = Some b -> lineLength b = String.length b)
   \/ exists sep post', post = sep :: post' /\ starts_cell sep = true) ->
  RunMenu.cell_end lineLength (cell ++ post) position
  = position + String.length (str_join (String LF "") cell).
Proof.
  induction cell as [|b cell IH]; intros position Hne Hcell Hpost; [done|].
  apply Forall_cons in Hcell as [Hb Hcell].
  cbn [app RunMenu.cell_end]. rewrite Hb.
  destruct cell as [|b' cell].
  - cbn [app str_join].
    destruct Hpost as [[-> Hl]|(sep & post' & -> & Hsep)]; [by rewrite Hl|].
    cbn [RunMenu.cell_end]. rewrite Hsep. lia.
  - cbn [app]. change (b' :: cell ++ post) with ((b' :: cell) ++ post).
    rewrite IH; [|done|done|].
    + rewrite str_join_cons2, !str_length_app. cbn [String.length]. lia.
    + destruct Hpost as [[-> Hl]|H]; [left|by right]. split; [done|].
      intros x Hx. apply Hl. by rewrite last_cons, Hx.
Qed.

Lemma str_drop_app a b : str_drop (String.length a) (a +:+ b) = b.
Proof. induction a as [|c a IH]; [by destruct b|]. by rewrite str_app_cons. Qed.

Lemma str_take_app a b : str_take (String.length a) (a +:+ b) = a.
Proof.
  induction a as [|c a IH]; [by destruct b|]. rewrite str_app_cons.
  cbn [String.length str_take]. by rewrite IH.
Qed.

Lemma block_position_app pre rest :
  rest <> [] ->
  block_position (pre ++ rest) (length pre)
  = String.length (str_join (String LF "") pre)
    + (if decide (pre = []) then 0 else 1).
Proof.
  intros Hr. induction pre as [|b pre IH]; [by destruct rest|].
  cbn [app length block_position]. rewrite IH.
  rewrite (decide_False (P := b :: pre = [])) by done.
  destruct pre as [|b' pre].
  - rewrite decide_True by done. cbn [str_join String.length]. lia.
  - rewrite decide_False by done.
    rewrite (str_join_cons2 _ b), !str_length_app. cbn [String.length]. lia.
Qed.

Lemma drop_to_block pre rest :
  rest <> [] ->
  str_drop (block_position (pre ++ rest) (length pre))
    (str_join (String LF "") (pre ++ rest))
  = str_join (String LF "") rest.
Proof.
  intros Hr. rewrite block_position_app by done.
  destruct (decide (pre = [])) as [->|Hp]; [done|].
  rewrite str_join_app by done.
  replace (String.length (str_join (String LF "") pre) + 1)
    with (String.length (str_join (String LF "") pre +:+ String LF ""))
    by (rewrite str_length_app; simpl; lia).
  rewrite <- str_app_assoc. apply str_drop_app.
Qed.

(** X20.  With the cursor in a cell, [runCell] executes exactly the
    lines of the cell, joined by newlines, and gives the number of its
    first line: the cell is a run of lines that do not start with ##,
    begun by the start of the document or a ## line that is not the
    first line, and ended by a ## line or by the end of the document
    (the last line being one line of the layout). *)
Theorem runCell_runs_cell (pre cell post : list string) (cursorBlock : nat)
    (lineLength : string -> nat) :
  (pre = [] \/ exists pre' sep, pre = pre' ++ [sep] /\ pre' <> [] /\
                               starts_cell sep = true) ->
  Forall (fun b => starts_cell b = false) cell ->
  (post = [] /\ (forall b, last cell = Some b -> lineLength b = String.length b)
   \/ exists sep post', post = sep :: post' /\ starts_cell sep = true) ->
  length pre <= cursorBlock < length pre + length cell ->
  RunMenu.runCell true
    (Some {| e_blocks := pre ++ cell ++ post; e_cursorBlock := cursorBlock;
             e_lineLength := lineLength |})
  = Executed (str_join (String LF "") cell) (length pre).
Proof.
  intros Hpre Hcell Hpost Hc.
  assert (Hne : cell <> []) by (destruct cell; [simpl in Hc; lia | done]).
  unfold RunMenu.runCell. cbn [e_blocks e_cursorBlock e_lineLength].
  replace cursorBlock with (length pre + (cursorBlock - length pre)) by lia.
  rewrite cell_start_in_cell by (done || lia).
  rewrite drop_app_length, cell_end_of_cell by done. f_equal.
  unfold selected_text.
  rewrite Nat.min_l, Nat.max_r by lia.
  rewrite drop_to_block by (by destruct cell).
  replace (_ + _ - _) with (String.length (str_join (String LF "") cell)) by lia.
  destruct Hpost as [[-> _]|(sep & post' & -> & _)].
  - rewrite app_nil_r. rewrite <- (str_app_nil_r (str_join _ cell)) at 2.
    apply str_take_app.
  - rewrite str_join_app by done. apply str_take_app.
Qed.

Lemma runCell_runs_cell_witness :
  RunMenu.runCell true
    (Some {| e_blocks := ["import os"; "## first"; "a = 1"; "b = 2";
                          "  ## second"; "c = 3"];
             e_cursorBlock := 3; e_lineLength := String.length |})
  = Executed ("a = 1" +:+ String LF "b = 2") 2.
Proof.
  apply (runCell_runs_cell ["import os"; "## first"] ["a = 1"; "b = 2"]
           ["  ## second"; "c = 3"] 3).
  - right. by exists ["import os"], "## first".
  - by repeat constructor.
  - right. by exists "  ## second", ["c = 3"].
  - simpl. lia.
Defined.

Lemma cell_start_first doc c :
  Forall (fun b => starts_cell b = false) (take c (drop 1 doc)) ->
  c < length doc ->
  RunMenu.cell_start doc c = Some 0.
Proof.
  induction c as [|c IH]; intros Hn Hc; [done|].
  cbn [RunMenu.cell_start].
  assert (Hb : starts_cell (block_text doc (S c)) = false).
  { destruct doc as [|b0 rest]; [simpl in Hc; lia|]. cbn [drop] in Hn.
    destruct (lookup_lt_is_Some_2 rest c ltac:(simpl in Hc; lia)) as [b Hb].
    change (block_text (b0 :: rest) (S c)) with (default "" (rest !! c)).
    rewrite Hb. cbn.
    assert (Ht : take (S c) rest !! c = Some b)
      by (rewrite lookup_take_lt by lia; exact Hb).
    exact (Forall_lookup_1 _ _ _ _ Hn Ht). }
  rewrite Hb. apply IH; [|lia].
  apply Forall_lookup_2. intros i b Hi.
  apply lookup_take_Some in Hi as [Hi Hlt].
  assert (Ht : take (S c) (drop 1 doc) !! i = Some b)
    by (rewrite lookup_take_lt by lia; exact Hi).
  exact (Forall_lookup_1 _ _ _ _ Hn Ht).
Qed.

(** X21.  When the first line of the document starts with ## and the
    cursor is on it or in the cell below it, [runCell] executes the
    empty text: the search upwards stops at the first line without
    looking at it, and the search downwards stops there at once. *)
Theorem runCell_first_line_separator (first : string) (rest : list string)
    (cursorBlock : nat) (lineLength : string -> nat) :
  starts_cell first = true ->
  Forall (fun b => starts_cell b = false) (take cursorBlock rest) ->
  cursorBlock <= length rest ->
  RunMenu.runCell true
    (Some {| e_blocks := first :: rest; e_cursorBlock := cursorBlock;
             e_lineLength := lineLength |})
  = Executed "" 0.
Proof.
  intros Hf Hn Hc. unfold RunMenu.runCell. cbn [e_blocks e_cursorBlock e_lineLength].
  rewrite cell_start_first; [|done|simpl; lia].
  cbn [drop RunMenu.cell_end block_position]. by rewrite Hf.
Qed.

Lemma runCell_first_line_separator_witness :
  RunMenu.runCell true
    (Some {| e_blocks := ["## setup"; "import os"; "x = 1"; "## plot"; "y = 2"];
             e_cursorBlock := 2; e_lineLength := String.length |})
  = Executed "" 0.
Proof.
  apply (runCell_first_line_separator "## setup"
           ["import os"; "x = 1"; "## plot"; "y = 2"] 2).
  - reflexivity.
  - by repeat constructor.
  - simpl. lia.
Defined.

(** ** Checks of the primitives against Python *)

Example replace_ex1 : str_replace "  " " " "a    b   c" = "a  b  c".
Proof. reflexivity. Qed.
Example replace_ex2 : str_replace "aa" "b" "aaa" = "ba".
Proof. reflexivity. Qed.
Example replace_ex3 : str_replace "" "-" "ab" = "-a-b-".
Proof. reflexivity. Qed.
Example split_ex1 : str_split "," "a,,b" = ["a"; ""; "b"].
Proof. reflexivity. Qed.
Example split_ex2 : str_split "," "" = [""].
Proof. reflexivity. Qed.
Example join_ex1 : str_join "," ["a"; ""; "b"] = "a,,b".
Proof. reflexivity. Qed.
Example lower_ex1 : str_lower "Ctrl+N [Z]" = "ctrl+n [z]".
Proof. reflexivity. Qed.
Example int_ex : map int_of_str [" 5 "; "+5"; "-5"; "1_0"; "_1"; "1__0"; "1_"; ""; "+"; "+ 5"; "00_7"; "12a"]
  = [Some 5; Some 5; Some (-5); Some 10; None; None; None; None; None; None; Some 7; None]%Z.
Proof. vm_compute. reflexivity. Qed.
Example fmt_ex : map format_05i [0; 7; -3; 12345; 123456; -12345; -1234]%Z
  = ["00000"; "00007"; "-0003"; "12345"; "123456"; "-12345"; "-1234"].
Proof. vm_compute. reflexivity. Qed.
Example brackets_ex : re_sub_brackets "((a)b" = "b" /\ re_sub_brackets "a)b(c" = "a)b(c"
  /\ re_sub_brackets "a(b)c(d)e" = "ae".
Proof. vm_compute. auto. Qed.
Example invalid_ex : re_sub_invalid None "a[b]^c`d\e-f.g H" = "a[b]^c`d\efgH".
Proof. vm_compute. reflexivity. Qed.
Example sort_ex : str_sort ["b"; "a"; "C"; "ab"] = ["C"; "a"; "ab"; "b"].
Proof. vm_compute. reflexivity. Qed.
